(** * The student roster pipeline: clean, validate, persist, aggregate

    A shallow embedding of the scripts [02_data_cleaning.py],
    [03_database_setup.py], [04_data_insertion.py] and [05_data_analysis.py].

    - A pandas DataFrame is a list of records, one per row, whose fields are
      the columns the scripts read; a field is a [cell], the Python object
      stored in the frame.
    - A Python [str] is kept as its UTF-8 encoding, a [string] of bytes: a
      character is a byte that is no continuation byte, with the
      continuation bytes that follow it.
    - The PostgreSQL server reached through psycopg2 is a [server]: the
      committed catalog, the catalog as the open transaction sees it, the
      sequences and the clock.  One connection talks to it (the scripts are
      sequential and open a single connection).  The world keeps what the
      connection was asked to do, oldest first; psycopg2 opens a
      transaction before the first statement that follows the connect, a
      commit or a rollback, so whether a transaction is open is read off
      that list ([transaction_open]).
    - Console input and output are part of the [world]: [input()] consumes a
      line of [stdin], [print] appends a [line] to [stdout].  A printed line is
      kept as its template and the values interpolated into it; the emoji
      that prefix the messages are left out of the templates.
    - A Python function is a computation in the monad [M]: it threads the
      world and either returns a value or raises an exception. *)

From Stdlib Require Import ZArith QArith Qround Qabs Qpower List String Ascii Bool.
From Stdlib Require Import Lia Lqa.
From Stdlib Require Import Permutation Sorted OrderedTypeEx.
From stdpp Require Import gmap strings.
Import ListNotations.

Local Open Scope string_scope.
Local Open Scope list_scope.
Local Open Scope Z_scope.

(** ** Python values *)

(** The objects found in a cell of a DataFrame.  [NaN] is the float
    not-a-number that [read_excel] and [read_csv] give for an empty field,
    [PyNone] is Python's [None]; pandas counts both as missing.  [PyFloat q]
    is a finite float, [q] being the number its [repr] denotes. *)
Inductive cell : Type :=
| PyNone
| NaN
| PyInt (z : Z)
| PyFloat (q : Q)
| PyStr (s : string).

(** ** SQL values, errors and the table definition language *)

(** A value as the server holds it.  [VNaN] is the numeric not-a-number. *)
Inductive sqlval : Type :=
| VNull
| VInt (z : Z)
| VNum (q : Q)
| VNaN
| VText (s : string).

(** The classes of [psycopg2.Error] the statements of the scripts can meet. *)
Inductive pg_error : Type :=
| SyntaxError
| UndefinedTable
| NotNullViolation (col : string)
| CheckViolation (col : string)
| DataError (col : string)
| InternalError.

Inductive exn : Type :=
| KeyError
| TypeError
| ValueError
| EOFError
| PgError (e : pg_error).

Inductive sqltype : Type :=
| SERIAL
| VARCHAR (n : nat)
| INTEGER
| NUMERIC (precision scale : nat)
| CHAR (n : nat)
| BIGINT
| TIMESTAMP.

(** The expressions that occur in the [CHECK] clauses. *)
Inductive sqlexpr : Type :=
| EGt (col : string) (k : Z)
| EGe (col : string) (k : Z)
| ELe (col : string) (k : Z)
| EAnd (a b : sqlexpr)
| EIn (col : string) (vals : list string).

Inductive sqldefault : Type :=
| NextVal
| CURRENT_TIMESTAMP.

Record column : Type := Column {
  column_name : string;
  data_type : sqltype;
  primary_key : bool;
  not_null : bool;
  check_clause : option sqlexpr;
  column_default : option sqldefault
}.

(** A row of the students relation, typed by its columns: the required
    columns always hold a value, [phone_number] may be NULL. *)
Module Db.
Record row : Type := Row {
  id : Z;
  student_name : string;
  first_name : string;
  last_name : string;
  age : Z;
  average_mark : Q;
  gender : string;
  phone_number : option Z;
  created_at : Z
}.
End Db.

Record table : Type := Table {
  tbl_columns : list column;
  tbl_rows : list Db.row
}.

(** The server as one connection sees it.  Statements read and write
    [working]; [commit] makes it the [committed] catalog, [rollback] puts the
    committed catalog back.  Sequences are not transactional. *)
Record server : Type := Server {
  committed : gmap string table;
  working : gmap string table;
  sequences : gmap string Z;
  now : Z
}.

(** ** The console and the world *)

Inductive arg : Type :=
| AInt (z : Z)
| ANum (q : Q)
| AStr (s : string)
| ANone
| ACell (c : cell)
| ACells (cs : list (list cell))
| AStrs (ss : list string)
| ARow (r : Db.row)
| AExn (e : exn).

Record line : Type := Line { template : string; args : list arg }.

(** The statements a connection has sent, oldest first. *)
Inductive stmt : Type :=
| SelectCount (tbl : string)
| Select (what : string) (tbl : string)
| CreateTableIfNotExists (tbl : string)
| InsertInto (tbl : string) (vals : list sqlval)
| Commit
| Rollback
| Close.

Record world : Type := World {
  db : server;
  sent : list stmt;
  stdin : list string;
  stdout : list line
}.

(** ** The monad of the scripts *)

Inductive result (A : Type) : Type :=
| Ok (a : A)
| Raise (e : exn).
Arguments Ok {A} a.
Arguments Raise {A} e.

Definition M (A : Type) : Type := world -> result A * world.

Definition ret {A} (a : A) : M A := fun w => (Ok a, w).

Definition bind {A B} (m : M A) (k : A -> M B) : M B :=
  fun w => match m w with
           | (Ok a, w') => k a w'
           | (Raise e, w') => (Raise e, w')
           end.

Definition raise {A} (e : exn) : M A := fun w => (Raise e, w).

(** [try: m except e => h e]. *)
Definition try_except {A} (m : M A) (h : exn -> M A) : M A :=
  fun w => match m w with
           | (Ok a, w') => (Ok a, w')
           | (Raise e, w') => h e w'
           end.

(** [try: m finally: f] *)
Definition try_finally {A} (m : M A) (f : M unit) : M A :=
  fun w => match m w with
           | (r, w') => match f w' with
                        | (Ok _, w'') => (r, w'')
                        | (Raise e, w'') => (Raise e, w'')
                        end
           end.

Definition lift {A} (r : result A) : M A := fun w => (r, w).

Declare Scope py_scope.
Delimit Scope py_scope with py.
Notation "x <- m ;; k" := (bind m (fun x => k))
  (at level 100, m at next level, right associativity) : py_scope.
Notation "m ;;; k" := (bind m (fun _ => k))
  (at level 100, right associativity) : py_scope.
Local Open Scope py_scope.

Definition print (t : string) (a : list arg) : M unit :=
  fun w => (Ok tt, {| db := db w; sent := sent w; stdin := stdin w;
                      stdout := stdout w ++ [Line t a] |}).

(** [input(prompt)]: the prompt is written, one line is read; at the end of
    the input Python raises [EOFError]. *)
Definition input (prompt : string) : M string :=
  fun w => match stdin w with
           | [] => (Raise EOFError,
                    {| db := db w; sent := sent w; stdin := [];
                       stdout := stdout w ++ [Line prompt []] |})
           | l :: rest => (Ok l,
                    {| db := db w; sent := sent w; stdin := rest;
                       stdout := stdout w ++ [Line prompt []] |})
           end.

(** Computations that only return or raise. *)
Definition rbind {A B} (r : result A) (k : A -> result B) : result B :=
  match r with
  | Ok a => k a
  | Raise e => Raise e
  end.

(** A loop that collects one value per element and stops at the first
    exception. *)
Fixpoint traverse {A B} (f : A -> result B) (l : list A) : result (list B) :=
  match l with
  | [] => Ok []
  | a :: rest =>
      rbind (f a) (fun b => rbind (traverse f rest) (fun bs => Ok (b :: bs)))
  end.

(** ** Builtins *)

Definition isnull (c : cell) : bool :=
  match c with
  | PyNone | NaN => true
  | _ => false
  end.

Definition notna (c : cell) : bool := negb (isnull c).

Definition Qlt_bool (a b : Q) : bool := negb (Qle_bool b a).

(** Truncation toward zero, what [int] does to a float. *)
Definition Qtrunc (q : Q) : Z :=
  if Qle_bool 0 q then Qfloor q else Qceiling q.

(** What lies outside the repository.  Python's parsing of a [str] by [int]
    and [float] ([None] is [ValueError]; [float] may give not-a-number,
    [Some None]).  The text the server writes for a number that is assigned
    to a text column.  The server's parser: the scripts paste the table name
    into the text of their statements, and [parses_as_table] says whether
    the server reads the pasted text as the name of a table ([order], the
    empty text and [my table] are not read so).  The server's executor: the
    groups of a [GROUP BY] come out of its aggregation in an order of its
    own, [group_before] on their keys. *)
Class Runtime : Type := {
  py_int_of_str : string -> option Z;
  py_float_of_str : string -> option (option Q);
  pg_text_of_number : sqlval -> string;
  parses_as_table : string -> bool;
  group_before : string -> string -> bool
}.

(** ** Strings *)

(** The characters [str.isspace] accepts, among the first 128. *)
Definition is_space (c : ascii) : bool :=
  let n := nat_of_ascii c in
  ((9 <=? n) && (n <=? 13) || (28 <=? n) && (n <=? 32))%nat.

(** A byte [10xxxxxx], which continues a character. *)
Definition is_continuation (c : ascii) : bool :=
  let n := nat_of_ascii c in
  ((128 <=? n) && (n <? 192))%nat.

Definition starts_with_continuation (s : string) : bool :=
  match s with
  | EmptyString => false
  | String c _ => is_continuation c
  end.

(** The characters of a text, each with its bytes. *)
Fixpoint chars (s : string) : list string :=
  match s with
  | EmptyString => []
  | String c rest =>
      match chars rest with
      | next :: others =>
          if starts_with_continuation next then String c next :: others
          else String c EmptyString :: next :: others
      | [] => [String c EmptyString]
      end
  end.

(** [len(s)]: the number of characters. *)
Definition char_length (s : string) : nat := List.length (chars s).

(** The bits a byte gives to the code point: all seven of a byte below 128,
    the low six of a continuation byte, and the low five, four or three of
    the first byte of a character of two, three or four bytes. *)
Definition payload (c : ascii) : N :=
  let n := N_of_ascii c in
  (if n <? 128 then n
   else if n <? 192 then n - 128
   else if n <? 224 then n - 192
   else if n <? 240 then n - 224
   else n - 240)%N.

(** [ord(c)] of a character. *)
Definition code_point (c : string) : N :=
  match c with
  | EmptyString => 0%N
  | String b rest =>
      List.fold_left (fun acc b => (acc * 64 + payload b)%N)
                     (list_ascii_of_string rest) (payload b)
  end.

(** [c.isspace()]: the white space of Unicode. *)
Definition isspace (c : string) : bool :=
  let n := code_point c in
  ((9 <=? n) && (n <=? 13) || (28 <=? n) && (n <=? 32) ||
   (n =? 133) || (n =? 160) || (n =? 5760) ||
   (8192 <=? n) && (n <=? 8202) || (n =? 8232) || (n =? 8233) ||
   (n =? 8239) || (n =? 8287) || (n =? 12288))%N.

Definition lower_char (c : ascii) : ascii :=
  let n := nat_of_ascii c in
  if ((65 <=? n) && (n <=? 90))%nat then ascii_of_nat (n + 32) else c.

(** [s.lower()], on the letters A to Z.  Python also lowercases the letters
    outside ASCII, which are left as they are here: none of them becomes [y]
    or white space, and the scripts only ask whether the lowercased and
    stripped answer is [y]. *)
Fixpoint lower (s : string) : string :=
  match s with
  | EmptyString => EmptyString
  | String c rest => String (lower_char c) (lower rest)
  end.

Fixpoint drop_while {A} (p : A -> bool) (l : list A) : list A :=
  match l with
  | [] => []
  | a :: rest => if p a then drop_while p rest else l
  end.

Definition lstrip (cs : list string) : list string := drop_while isspace cs.

Definition rstrip (cs : list string) : list string :=
  List.rev (drop_while isspace (List.rev cs)).

(** [s.strip()]: without the white space at both ends. *)
Definition strip (s : string) : string :=
  String.concat "" (rstrip (lstrip (chars s))).

(** [s.split(sep)] for a separator of one character: a cut at every
    occurrence, so two adjacent separators enclose an empty part. *)
Fixpoint split (sep : ascii) (s : string) : list string :=
  match s with
  | EmptyString => [EmptyString]
  | String c rest =>
      if Ascii.eqb c sep then EmptyString :: split sep rest
      else match split sep rest with
           | [] => [String c EmptyString]
           | part :: parts => String c part :: parts
           end
  end.

(** ** pandas *)

Definition len {A} (l : list A) : Z := Z.of_nat (List.length l).

(** [mask.sum()] of a boolean Series. *)
Definition sum (mask : list bool) : Z := len (List.filter (fun b => b) mask).

(** [mask.all()] *)
Definition all (mask : list bool) : bool := forallb (fun b => b) mask.

(** [~mask] *)
Definition invert (mask : list bool) : list bool := List.map negb mask.

(** [a | b] on two masks over the same index. *)
Definition mask_or (a b : list bool) : list bool :=
  List.map (fun p => orb (fst p) (snd p)) (List.combine a b).

(** [df[mask]] *)
Fixpoint boolean_index {A} (df : list A) (mask : list bool) : list A :=
  match df, mask with
  | r :: df', b :: mask' =>
      if b then r :: boolean_index df' mask' else boolean_index df' mask'
  | _, _ => []
  end.

(** [df.dropna(subset=[col])] *)
Definition dropna {A} (col : A -> cell) (df : list A) : list A :=
  List.filter (fun r => notna (col r)) df.

(** [series < k] and [series > k] against an integer constant: a missing
    value compares false, a number compares as a number, and a [str] makes
    Python raise [TypeError]. *)
Definition cell_lt (c : cell) (k : Z) : result bool :=
  match c with
  | PyNone | NaN => Ok false
  | PyInt z => Ok (z <? k)
  | PyFloat q => Ok (Qlt_bool q (inject_Z k))
  | PyStr _ => Raise TypeError
  end.

Definition cell_gt (c : cell) (k : Z) : result bool :=
  match c with
  | PyNone | NaN => Ok false
  | PyInt z => Ok (k <? z)
  | PyFloat q => Ok (Qlt_bool (inject_Z k) q)
  | PyStr _ => Raise TypeError
  end.

Definition series_cmp (cmp : cell -> Z -> result bool) (col : list cell) (k : Z)
  : result (list bool) :=
  traverse (fun c => cmp c k) col.

(** [series.isin(values)] for a list of strings. *)
Definition isin (col : list cell) (values : list string) : list bool :=
  List.map (fun c => match c with
                     | PyStr s => existsb (String.eqb s) values
                     | _ => false
                     end) col.

(** [series.str.split(sep, expand=True)]: the frame of the parts.  A cell
    that is not a [str] gives a row of [NaN]; a row with fewer parts than the
    widest one is filled with [None]; the frame has as many columns as the
    widest row has parts, and none when the series is empty.  (A series
    without any [str] may have no [.str] accessor at all, and pandas then
    raises on the accessor; here the exception comes one step later, from
    the column that is not there.) *)
Definition str_split (sep : ascii) (c : cell) : list cell :=
  match c with
  | PyStr s => List.map PyStr (split sep s)
  | _ => [NaN]
  end.

Definition expand_width (rows : list (list cell)) : nat :=
  List.fold_right Nat.max 0%nat (List.map (@List.length cell) rows).

Definition expand_row (width : nat) (parts : list cell) : list cell :=
  match parts with
  | [NaN] => List.repeat NaN width
  | _ => parts ++ List.repeat PyNone (width - List.length parts)
  end.

Record parts_frame : Type := PartsFrame {
  pf_width : nat;
  pf_rows : list (list cell)
}.

Definition str_split_expand (sep : ascii) (col : list cell) : parts_frame :=
  let rows := List.map (str_split sep) col in
  let width := expand_width rows in
  {| pf_width := width; pf_rows := List.map (expand_row width) rows |}.

(** [frame[k]]: the column labelled [k], [KeyError] when there is none. *)
Definition getitem (f : parts_frame) (k : nat) : result (list cell) :=
  if (k <? pf_width f)%nat
  then Ok (List.map (fun r => List.nth k r PyNone) (pf_rows f))
  else Raise KeyError.

(** ** The frames of the scripts *)

(** The columns of [data/students.xlsx] the scripts read. *)
Module Raw.
Record row : Type := Row {
  student_name : cell;
  age : cell;
  average_mark : cell;
  gender : cell;
  phone_number : cell
}.
End Raw.

(** The columns of [data/students_cleaned.csv]. *)
Module Clean.
Record row : Type := Row {
  student_name : cell;
  first_name : cell;
  last_name : cell;
  age : cell;
  average_mark : cell;
  gender : cell;
  phone_number : cell
}.

(** [df[name]]: the column of that label. *)
Definition column (name : string) : option (row -> cell) :=
  if String.eqb name "student name" then Some student_name
  else if String.eqb name "first name" then Some first_name
  else if String.eqb name "last name" then Some last_name
  else if String.eqb name "age" then Some age
  else if String.eqb name "average mark" then Some average_mark
  else if String.eqb name "gender" then Some gender
  else if String.eqb name "phone number" then Some phone_number
  else None.
End Clean.

(** [df[name]] *)
Definition getcol (df : list Clean.row) (name : string) : result (list cell) :=
  match Clean.column name with
  | Some f => Ok (List.map f df)
  | None => Raise KeyError
  end.

(** [name in df.columns] *)
Definition in_columns (name : string) : bool :=
  match Clean.column name with
  | Some _ => true
  | None => false
  end.

(** [df.head()] *)
Definition head {A} (df : list A) : list A := List.firstn 5 df.

(** A [for] loop that updates a local variable. *)
Fixpoint for_loop {A S} (l : list A) (body : A -> S -> M S) (s : S) : M S :=
  match l with
  | [] => ret s
  | a :: rest => s' <- body a s ;; for_loop rest body s'
  end.

(** * 02_data_cleaning.py *)

Module data_cleaning.

Definition remove_missing_average_marks (df : list Raw.row) : M (list Raw.row) :=
  print "=== Removing Records with Missing Average Marks ===" [] ;;;
  let initial_count := len df in
  let missing_marks := sum (List.map isnull (List.map Raw.average_mark df)) in
  print "Records before cleaning: {}" [AInt initial_count] ;;;
  print "Records with missing average marks: {}" [AInt missing_marks] ;;;
  let df_cleaned := dropna Raw.average_mark df in
  let final_count := len df_cleaned in
  let removed_count := initial_count - final_count in
  print "Records after cleaning: {}" [AInt final_count] ;;;
  print "Records removed: {}" [AInt removed_count] ;;;
  ret df_cleaned.

(** [df['first name'] = first; df['last name'] = last] *)
Fixpoint assign_names (df : list Raw.row) (first last : list cell)
  : list Clean.row :=
  match df, first, last with
  | r :: df', f :: first', l :: last' =>
      {| Clean.student_name := Raw.student_name r;
         Clean.first_name := f;
         Clean.last_name := l;
         Clean.age := Raw.age r;
         Clean.average_mark := Raw.average_mark r;
         Clean.gender := Raw.gender r;
         Clean.phone_number := Raw.phone_number r |}
      :: assign_names df' first' last'
  | _, _, _ => []
  end.

Definition split_student_names (df : list Raw.row) : M (list Clean.row) :=
  print "=== Splitting Student Names ===" [] ;;;
  let name_parts := str_split_expand " " (List.map Raw.student_name df) in
  first <- lift (getitem name_parts 0) ;;
  last <- lift (getitem name_parts 1) ;;
  let df := assign_names df first last in
  print "Sample name splitting results:" [] ;;;
  print "{}" [ACells (List.map (fun r => [Clean.student_name r;
                                          Clean.first_name r;
                                          Clean.last_name r]) (head df))] ;;;
  let missing_first := sum (List.map isnull (List.map Clean.first_name df)) in
  let missing_last := sum (List.map isnull (List.map Clean.last_name df)) in
  (if (0 <? missing_first) || (0 <? missing_last)
   then print "Warning: {} records missing first name, {} missing last name"
              [AInt missing_first; AInt missing_last]
   else print "All names split successfully" []) ;;;
  ret df.

Definition validate_cleaned_data (df : list Clean.row) : M bool :=
  print "=== Final Data Validation ===" [] ;;;
  print "Missing values in key columns:" [] ;;;
  for_loop ["first name"; "last name"; "average mark"; "gender"]
    (fun column (_ : unit) =>
       col <- lift (getcol df column) ;;
       let missing_count := sum (List.map isnull col) in
       if 0 <? missing_count
       then print "  {}: {} missing" [AStr column; AInt missing_count]
       else print "  {}: No missing values" [AStr column]) tt ;;;
  print "Final dataset shape: {} rows, {} columns" [AInt (len df); AInt 7] ;;;
  ret true.

(** Steps 2 to 4 of [main], on the frame that step 1 loaded; step 5 writes
    the result to the CSV file. *)
Definition main (df : list Raw.row) : M (list Clean.row) :=
  print "=== Student Data Cleaning Pipeline ===" [] ;;;
  df_cleaned <- remove_missing_average_marks df ;;
  df_final <- split_student_names df_cleaned ;;
  _ <- validate_cleaned_data df_final ;;
  ret df_final.

End data_cleaning.

(** * The store: PostgreSQL behind psycopg2 *)

(** ** Assignment of a value to a column *)

Definition is_blank (c : ascii) : bool := Ascii.eqb c " ".

Fixpoint all_blank (s : string) : bool :=
  match s with
  | EmptyString => true
  | String c rest => is_blank c && all_blank rest
  end.

(** Trailing blanks are not significant in a [CHAR(n)] value: it is kept
    without them. *)
Fixpoint rtrim (s : string) : string :=
  match s with
  | EmptyString => EmptyString
  | String c rest =>
      match rtrim rest with
      | EmptyString => if is_blank c then EmptyString else String c EmptyString
      | r => String c r
      end
  end.

(** [VARCHAR(n)] and [CHAR(n)] hold [n] characters.  A text with more
    characters is an error, unless only blanks are cut off; blanks are one
    byte each, so the characters over are then the last bytes. *)
Definition fit_text (n : nat) (s : string) : option string :=
  let over := (char_length s - n)%nat in
  let kept := (String.length s - over)%nat in
  if (char_length s <=? n)%nat then Some s
  else if all_blank (String.substring kept over s)
       then Some (String.substring 0 kept s)
       else None.

(** Rounding to [scale] decimal places, halves away from zero. *)
Definition round_half_away (x : Q) : Z :=
  if Qle_bool 0 x then Qfloor (x + (1 # 2)) else - Qfloor (- x + (1 # 2)).

Definition numeric_round (precision scale : nat) (q : Q) : option Q :=
  let unit := 10 ^ Z.of_nat scale in
  let n := round_half_away (q * inject_Z unit) in
  if Z.abs n <? 10 ^ Z.of_nat precision
  then Some (Qred (Qmake n (Z.to_pos unit)))
  else None.

Definition in_int32 (z : Z) : bool := (- 2 ^ 31 <=? z) && (z <? 2 ^ 31).
Definition in_int64 (z : Z) : bool := (- 2 ^ 63 <=? z) && (z <? 2 ^ 63).

Section Store.
Context {rt : Runtime}.

(** How psycopg2 writes a Python object into the statement. *)
Definition adapt (c : cell) : sqlval :=
  match c with
  | PyNone => VNull
  | NaN => VNaN
  | PyInt z => VInt z
  | PyFloat q => VNum q
  | PyStr s => VText s
  end.

Definition text_of (v : sqlval) : string :=
  match v with
  | VText s => s
  | _ => pg_text_of_number v
  end.

(** The value a column of type [ty] keeps of [v]; [None] is a data error.
    The scripts send integers to the integer columns and floats to the
    numeric column; what the server would make of another kind of value
    there is left an error. *)
Definition coerce (ty : sqltype) (v : sqlval) : option sqlval :=
  match v with
  | VNull => Some VNull
  | _ =>
      match ty with
      | VARCHAR n => option_map VText (fit_text n (text_of v))
      | CHAR n => option_map (fun s => VText (rtrim s)) (fit_text n (text_of v))
      | SERIAL | INTEGER =>
          match v with
          | VInt z => if in_int32 z then Some (VInt z) else None
          | _ => None
          end
      | BIGINT =>
          match v with
          | VInt z => if in_int64 z then Some (VInt z) else None
          | _ => None
          end
      | NUMERIC p s =>
          match v with
          | VInt z => option_map VNum (numeric_round p s (inject_Z z))
          | VNum q => option_map VNum (numeric_round p s q)
          | VNaN => Some VNaN
          | _ => None
          end
      | TIMESTAMP =>
          match v with
          | VInt z => Some (VInt z)
          | _ => None
          end
      end
  end.

Fixpoint assoc {A} (k : string) (l : list (string * A)) : option A :=
  match l with
  | [] => None
  | (k', a) :: rest => if String.eqb k k' then Some a else assoc k rest
  end.

(** The default of a column the statement does not name: [SERIAL] draws from
    the sequence. *)
Definition default_of (c : column) (seq ts : Z) : sqlval :=
  match column_default c, data_type c with
  | Some NextVal, _ => VInt seq
  | Some CURRENT_TIMESTAMP, _ => VInt ts
  | None, SERIAL => VInt seq
  | None, _ => VNull
  end.

Definition required (c : column) : bool :=
  not_null c || primary_key c ||
  match data_type c with SERIAL => true | _ => false end.

(** Comparison of a value with an integer constant, in SQL's three-valued
    logic: NULL compares unknown, not-a-number is above every number. *)
Definition sql_compare (v : sqlval) (k : Z) : option comparison :=
  match v with
  | VNull => None
  | VInt z => Some (z ?= k)
  | VNum q => Some (q ?= inject_Z k)%Q
  | VNaN => Some Gt
  | VText _ => None
  end.

Definition sql_and (a b : option bool) : option bool :=
  match a, b with
  | Some false, _ | _, Some false => Some false
  | Some true, Some true => Some true
  | _, _ => None
  end.

Fixpoint eval (e : sqlexpr) (cand : list (string * sqlval)) : option bool :=
  let value col := match assoc col cand with Some v => v | None => VNull end in
  match e with
  | EGt col k =>
      option_map (fun c => match c with Gt => true | _ => false end)
                 (sql_compare (value col) k)
  | EGe col k =>
      option_map (fun c => match c with Lt => false | _ => true end)
                 (sql_compare (value col) k)
  | ELe col k =>
      option_map (fun c => match c with Gt => false | _ => true end)
                 (sql_compare (value col) k)
  | EAnd a b => sql_and (eval a cand) (eval b cand)
  | EIn col vals =>
      match value col with
      | VText s => Some (existsb (String.eqb s) vals)
      | _ => None
      end
  end.

(** First pass of an INSERT: every column of the table gets the value the
    statement gives it, or its default, converted to the column's type. *)
Fixpoint assign_columns (ddl : list column) (given : list (string * sqlval))
  (seq ts : Z) : result (list (string * sqlval)) :=
  match ddl with
  | [] => Ok []
  | c :: rest =>
      let v := match assoc (column_name c) given with
               | Some v => v
               | None => default_of c seq ts
               end in
      match coerce (data_type c) v with
      | None => Raise (PgError (DataError (column_name c)))
      | Some v' =>
          match assign_columns rest given seq ts with
          | Ok cand => Ok ((column_name c, v') :: cand)
          | Raise e => Raise e
          end
      end
  end.

(** Second pass: the NOT NULL constraints. *)
Fixpoint check_not_null (ddl : list column) (cand : list (string * sqlval))
  : result unit :=
  match ddl with
  | [] => Ok tt
  | c :: rest =>
      match required c, assoc (column_name c) cand with
      | true, Some VNull | true, None =>
          Raise (PgError (NotNullViolation (column_name c)))
      | _, _ => check_not_null rest cand
      end
  end.

(** Third pass: the CHECK constraints; one fails when it evaluates to false
    (an unknown result passes). *)
Fixpoint check_constraints (ddl : list column) (cand : list (string * sqlval))
  : result unit :=
  match ddl with
  | [] => Ok tt
  | c :: rest =>
      match check_clause c with
      | Some e =>
          match eval e cand with
          | Some false => Raise (PgError (CheckViolation (column_name c)))
          | _ => check_constraints rest cand
          end
      | None => check_constraints rest cand
      end
  end.

(** The stored row, read back by column name. *)
Definition row_of (cand : list (string * sqlval)) : option Db.row :=
  match assoc "id" cand, assoc "student_name" cand, assoc "first_name" cand,
        assoc "last_name" cand, assoc "age" cand, assoc "average_mark" cand,
        assoc "gender" cand, assoc "phone_number" cand, assoc "created_at" cand
  with
  | Some (VInt i), Some (VText n), Some (VText f), Some (VText l),
    Some (VInt a), Some (VNum m), Some (VText g), Some p, Some c =>
      match p, c with
      | VNull, VInt t => Some (Db.Row i n f l a m g None t)
      | VInt ph, VInt t => Some (Db.Row i n f l a m g (Some ph) t)
      | _, _ => None
      end
  | _, _, _, _, _, _, _, _, _ => None
  end.

(** [INSERT INTO t (cols) VALUES (vals)] on a table defined by [ddl]. *)
Definition store_insert (ddl : list column) (cols : list string)
  (vals : list sqlval) (seq ts : Z) : result Db.row :=
  if negb (forallb (fun c => existsb (String.eqb c) (List.map column_name ddl)) cols)
  then Raise (PgError InternalError)
  else
    match assign_columns ddl (List.combine cols vals) seq ts with
    | Raise e => Raise e
    | Ok cand =>
        match check_not_null ddl cand with
        | Raise e => Raise e
        | Ok _ =>
            match check_constraints ddl cand with
            | Raise e => Raise e
            | Ok _ =>
                match row_of cand with
                | Some r => Ok r
                | None => Raise (PgError InternalError)
                end
            end
        end
    end.

(** ** Statements *)

Definition note (s : stmt) (w : world) : world :=
  {| db := db w; sent := sent w ++ [s]; stdin := stdin w; stdout := stdout w |}.

Definition set_db (srv : server) (w : world) : world :=
  {| db := srv; sent := sent w; stdin := stdin w; stdout := stdout w |}.

(** The scripts paste the table name into every statement.  A statement on
    a text under which the catalog holds no table fails; the error is the one
    of the table that is not there, also for a text at which the server
    would stop as a syntax error (both are a [psycopg2.Error]). *)

(** [cursor.execute("SELECT COUNT( * ) FROM t"); cursor.fetchone()[0]] *)
Definition select_count (tbl : string) : M Z :=
  fun w =>
    let w := note (SelectCount tbl) w in
    match working (db w) !! tbl with
    | Some t => (Ok (len (tbl_rows t)), w)
    | None => (Raise (PgError UndefinedTable), w)
    end.

(** A query whose result [q] computes from the rows of the table. *)
Definition select {A} (what : string) (tbl : string) (q : list Db.row -> A) : M A :=
  fun w =>
    let w := note (Select what tbl) w in
    match working (db w) !! tbl with
    | Some t => (Ok (q (tbl_rows t)), w)
    | None => (Raise (PgError UndefinedTable), w)
    end.

(** One execution of the INSERT statement.  The sequence moves even when the
    row is refused. *)
Definition execute_insert (tbl : string) (cols : list string) (vals : list sqlval)
  : M unit :=
  fun w =>
    let w := note (InsertInto tbl vals) w in
    let srv := db w in
    match working srv !! tbl with
    | None => (Raise (PgError UndefinedTable), w)
    | Some t =>
        let seq := match sequences srv !! tbl with Some n => n | None => 1 end in
        let seqs := <[tbl := seq + 1]> (sequences srv) in
        match store_insert (tbl_columns t) cols vals seq (now srv) with
        | Raise e =>
            (Raise e, set_db {| committed := committed srv; working := working srv;
                                sequences := seqs; now := now srv |} w)
        | Ok r =>
            let t' := {| tbl_columns := tbl_columns t;
                         tbl_rows := tbl_rows t ++ [r] |} in
            (Ok tt, set_db {| committed := committed srv;
                              working := <[tbl := t']> (working srv);
                              sequences := seqs; now := now srv |} w)
        end
    end.

(** [cursor.executemany(sql, data)]: the statement once per tuple, in order,
    stopping at the first error. *)
Definition executemany (tbl : string) (cols : list string)
  (data : list (list sqlval)) : M unit :=
  for_loop data (fun vals (_ : unit) => execute_insert tbl cols vals) tt.

(** [conn.commit()] *)
Definition commit : M unit :=
  fun w =>
    let w := note Commit w in
    let srv := db w in
    (Ok tt, set_db {| committed := working srv; working := working srv;
                      sequences := sequences srv; now := now srv |} w).

(** [conn.rollback()] *)
Definition rollback : M unit :=
  fun w =>
    let w := note Rollback w in
    let srv := db w in
    (Ok tt, set_db {| committed := committed srv; working := committed srv;
                      sequences := sequences srv; now := now srv |} w).

(** [conn.close()]: what was not committed is lost. *)
Definition close : M unit :=
  fun w =>
    let w := note Close w in
    let srv := db w in
    (Ok tt, set_db {| committed := committed srv; working := committed srv;
                      sequences := sequences srv; now := now srv |} w).

(** [CREATE TABLE IF NOT EXISTS t (ddl)], the text [tbl] pasted for [t]: a
    syntax error when the server does not read that text as the name of a
    table; nothing is done when the table is there. *)
Definition create_table_if_not_exists (tbl : string) (ddl : list column) : M unit :=
  fun w =>
    let w := note (CreateTableIfNotExists tbl) w in
    let srv := db w in
    if negb (parses_as_table tbl) then (Raise (PgError SyntaxError), w)
    else
      match working srv !! tbl with
      | Some _ => (Ok tt, w)
      | None =>
          (Ok tt, set_db {| committed := committed srv;
                            working := <[tbl := Table ddl []]> (working srv);
                            sequences := <[tbl := 1]> (sequences srv);
                            now := now srv |} w)
      end.

(** [SELECT ... FROM information_schema.columns WHERE table_name = t
    ORDER BY ordinal_position]: no row when there is no such table. *)
Definition select_columns (tbl : string) : M (list column) :=
  fun w =>
    let w := note (Select "information_schema.columns" tbl) w in
    (Ok (match working (db w) !! tbl with
         | Some t => tbl_columns t
         | None => []
         end), w).

End Store.

(** * 03_database_setup.py *)

Module database_setup.
Section Setup.
Context {rt : Runtime}.

(** The column definitions of the [CREATE TABLE] statement. *)
Definition create_table_sql : list column :=
  [ Column "id" SERIAL true false None None;
    Column "student_name" (VARCHAR 100) false true None None;
    Column "first_name" (VARCHAR 50) false true None None;
    Column "last_name" (VARCHAR 50) false true None None;
    Column "age" INTEGER false true (Some (EGt "age" 0)) None;
    Column "average_mark" (NUMERIC 4 2) false true
           (Some (EAnd (EGe "average_mark" 0) (ELe "average_mark" 10))) None;
    Column "gender" (CHAR 1) false true (Some (EIn "gender" ["m"; "f"])) None;
    Column "phone_number" BIGINT false false None None;
    Column "created_at" TIMESTAMP false false None (Some CURRENT_TIMESTAMP) ].

Definition type_name (ty : sqltype) : string :=
  match ty with
  | SERIAL | INTEGER => "integer"
  | VARCHAR _ => "character varying"
  | NUMERIC _ _ => "numeric"
  | CHAR _ => "character"
  | BIGINT => "bigint"
  | TIMESTAMP => "timestamp without time zone"
  end.

Definition default_text (c : column) : string :=
  match column_default c, data_type c with
  | Some NextVal, _ | None, SERIAL => " DEFAULT nextval"
  | Some CURRENT_TIMESTAMP, _ => " DEFAULT CURRENT_TIMESTAMP"
  | None, _ => ""
  end.

Definition create_students_table (table_name : string) : M bool :=
  print "=== Creating Table '{}' ===" [AStr table_name] ;;;
  try_except
    (create_table_if_not_exists table_name create_table_sql ;;;
     commit ;;;
     print "Table '{}' created successfully" [AStr table_name] ;;;
     columns <- select_columns table_name ;;
     print "Table structure:" [] ;;;
     for_loop columns
       (fun col (_ : unit) =>
          let nullable := if required col then "NOT NULL" else "NULL" in
          print "  {}: {} {}{}" [AStr (column_name col);
                                AStr (type_name (data_type col));
                                AStr nullable; AStr (default_text col)]) tt ;;;
     ret true)
    (fun e =>
       match e with
       | PgError _ =>
           print "Error creating table: {}" [AExn e] ;;;
           rollback ;;;
           ret false
       | _ => raise e
       end).

End Setup.
End database_setup.

(** * 04_data_insertion.py *)

Module data_insertion.
Section Insertion.
Context {rt : Runtime}.

Definition validate_data_before_insertion (df : list Clean.row) : M bool :=
  print "=== Data Validation Before Insertion ===" [] ;;;
  let validation_passed := true in
  let critical_columns := ["first name"; "last name"; "age"; "average mark"; "gender"] in
  validation_passed <-
    for_loop critical_columns
      (fun column validation_passed =>
         col <- lift (getcol df column) ;;
         let missing_count := sum (List.map isnull col) in
         if 0 <? missing_count
         then print "{}: {} missing values" [AStr column; AInt missing_count] ;;;
              ret false
         else print "{}: No missing values" [AStr column] ;;;
              ret validation_passed)
      validation_passed ;;
  validation_passed <-
    (if in_columns "age"
     then col <- lift (getcol df "age") ;;
          below <- lift (series_cmp cell_lt col 1) ;;
          above <- lift (series_cmp cell_gt col 150) ;;
          let invalid_ages := len (boolean_index df (mask_or below above)) in
          if 0 <? invalid_ages
          then print "Found {} records with invalid age values" [AInt invalid_ages] ;;;
               ret false
          else print "All age values within valid range" [] ;;;
               ret validation_passed
     else ret validation_passed) ;;
  validation_passed <-
    (if in_columns "average mark"
     then col <- lift (getcol df "average mark") ;;
          below <- lift (series_cmp cell_lt col 0) ;;
          above <- lift (series_cmp cell_gt col 10) ;;
          let invalid_marks := len (boolean_index df (mask_or below above)) in
          if 0 <? invalid_marks
          then print "Found {} records with invalid average mark values"
                     [AInt invalid_marks] ;;;
               ret false
          else print "All average mark values within valid range" [] ;;;
               ret validation_passed
     else ret validation_passed) ;;
  validation_passed <-
    (if in_columns "gender"
     then col <- lift (getcol df "gender") ;;
          let valid_genders := all (isin col ["m"; "f"]) in
          if negb valid_genders
          then let invalid_gender_count := sum (invert (isin col ["m"; "f"])) in
               print "Found {} records with invalid gender values"
                     [AInt invalid_gender_count] ;;;
               ret false
          else print "All gender values are valid" [] ;;;
               ret validation_passed
     else ret validation_passed) ;;
  ret validation_passed.

(** [int(x)] *)
Definition py_int (c : cell) : result Z :=
  match c with
  | PyNone => Raise TypeError
  | NaN => Raise ValueError
  | PyInt z => Ok z
  | PyFloat q => Ok (Qtrunc q)
  | PyStr s =>
      match py_int_of_str s with
      | Some z => Ok z
      | None => Raise ValueError
      end
  end.

(** [float(x)]; [None] is not-a-number. *)
Definition py_float (c : cell) : result (option Q) :=
  match c with
  | PyNone => Raise TypeError
  | NaN => Ok None
  | PyInt z => Ok (Some (inject_Z z))
  | PyFloat q => Ok (Some q)
  | PyStr s =>
      match py_float_of_str s with
      | Some f => Ok f
      | None => Raise ValueError
      end
  end.

Definition adapt_float (f : option Q) : sqlval :=
  match f with
  | Some q => VNum q
  | None => VNaN
  end.

(** The column list of [insert_sql]. *)
Definition insert_columns : list string :=
  ["student_name"; "first_name"; "last_name"; "age"; "average_mark"; "gender";
   "phone_number"].

(** The body of the loop over [df.iterrows()]: the tuple of one row. *)
Definition record_data (row : Clean.row) : result (list sqlval) :=
  rbind (if notna (Clean.phone_number row)
         then rbind (py_int (Clean.phone_number row)) (fun z => Ok (VInt z))
         else Ok VNull) (fun phone_number =>
  rbind (py_int (Clean.age row)) (fun age =>
  rbind (py_float (Clean.average_mark row)) (fun average_mark =>
  Ok [adapt (Clean.student_name row);
      adapt (Clean.first_name row);
      adapt (Clean.last_name row);
      VInt age;
      adapt_float average_mark;
      adapt (Clean.gender row);
      phone_number]))).

(** The statements of [insert_student_data] that follow the question to the
    operator: the tuples are built, sent in one transaction and committed. *)
Definition insertion (df : list Clean.row) (table_name : string) : M bool :=
  insertion_data <- lift (traverse record_data df) ;;
  print "Inserting {} records..." [AInt (len insertion_data)] ;;;
  executemany table_name insert_columns insertion_data ;;;
  commit ;;;
  final_count <- select_count table_name ;;
  print "Successfully inserted {} records" [AInt (len insertion_data)] ;;;
  print "Total records in table: {}" [AInt final_count] ;;;
  ret true.

(** The two [except] clauses of [insert_student_data]. *)
Definition insertion_failed (e : exn) : M bool :=
  match e with
  | PgError _ =>
      print "Database error during insertion: {}" [AExn e] ;;;
      rollback ;;;
      ret false
  | _ =>
      print "Unexpected error during insertion: {}" [AExn e] ;;;
      rollback ;;;
      ret false
  end.

Definition insert_student_data (df : list Clean.row) (table_name : string) : M bool :=
  print "=== Inserting Data into Table '{}' ===" [AStr table_name] ;;;
  try_except
    (existing_count <- select_count table_name ;;
     if 0 <? existing_count
     then print "Table already contains {} records" [AInt existing_count] ;;;
          answer <- input "Do you want to proceed with insertion anyway? (y/n): " ;;
          let response := strip (lower answer) in
          if negb (String.eqb response "y")
          then print "Data insertion cancelled by user" [] ;;;
               ret false
          else insertion df table_name
     else insertion df table_name)
    insertion_failed.

(** [SUM(...)] of SQL: NULL over no row. *)
Definition sql_sum (l : list Z) : option Z :=
  match l with
  | [] => None
  | _ => Some (List.fold_right Z.add 0 l)
  end.

(** [col IS NULL] on a stored row: only [phone_number] can be. *)
Definition is_null (col : string) (r : Db.row) : bool :=
  if String.eqb col "phone_number"
  then match Db.phone_number r with None => true | Some _ => false end
  else false.

Definition null_fields : list string :=
  ["first_name"; "last_name"; "age"; "average_mark"; "gender"].

(** [SELECT SUM(CASE WHEN f IS NULL THEN 1 ELSE 0 END), ... FROM t] *)
Definition null_counts_query (rows : list Db.row) : list (option Z) :=
  List.map (fun f => sql_sum (List.map (fun r => if is_null f r then 1 else 0) rows))
           null_fields.

(** The part of [verify_insertion_success] after the count check: the null
    counts of the required fields, then a sample of the rows. *)
Definition check_null_fields (table_name : string) : M bool :=
  null_counts <- select "null counts" table_name null_counts_query ;;
  let all_checks_passed := true in
  all_checks_passed <-
    for_loop (List.combine null_fields null_counts)
      (fun '(field, count) all_checks_passed =>
         match count with
         | Some 0 => print "{}: No null values" [AStr field] ;;;
                     ret all_checks_passed
         | Some n => print "{}: {} null values found" [AStr field; AInt n] ;;;
                     ret false
         | None => print "{}: {} null values found" [AStr field; ANone] ;;;
                   ret false
         end)
      all_checks_passed ;;
  sample_records <- select "* LIMIT 5" table_name (List.firstn 5) ;;
  print "Sample of inserted data:" [] ;;;
  columns <- select_columns table_name ;;
  let column_names := List.map column_name columns in
  for_loop (List.combine (List.seq 1 (List.length sample_records)) sample_records)
    (fun '(i, record) (_ : unit) =>
       print "  Record {}: {}" [AInt (Z.of_nat i); AStrs column_names; ARow record])
    tt ;;;
  ret all_checks_passed.

(** The two [except] clauses of [verify_insertion_success]. *)
Definition verification_error (e : exn) : M bool :=
  match e with
  | PgError _ =>
      print "Database error during verification: {}" [AExn e] ;;;
      ret false
  | _ =>
      print "Unexpected error during verification: {}" [AExn e] ;;;
      ret false
  end.

Definition verify_insertion_success (table_name : string) (expected_count : Z)
  : M bool :=
  print "=== Verifying Data Insertion Success ===" [] ;;;
  try_except
    (actual_count <- select_count table_name ;;
     print "Expected records: {}" [AInt expected_count] ;;;
     print "Actual records: {}" [AInt actual_count] ;;;
     if expected_count <=? actual_count
     then print "Record count verification passed" [] ;;;
          check_null_fields table_name
     else print "Record count verification failed" [] ;;;
          ret false)
    verification_error.

(** Steps 3, 5 and 6 of [main], on the frame that step 2 loaded and the
    connection that step 4 opened.  The value is the exit status of the
    process: [sys.exit(1)] gives 1, reaching the end gives 0.  The [finally]
    clause closes the connection on both ways out of steps 5 and 6.  The two
    lines that print the time of day are left out. *)
Definition main (df : list Clean.row) (table_name : string) : M Z :=
  print "=== Student Data Insertion Pipeline ===" [] ;;;
  valid <- validate_data_before_insertion df ;;
  if negb valid
  then print "Data validation failed - please fix data quality issues before proceeding" [] ;;;
       ret 1
  else
    try_finally
      (insertion_successful <- insert_student_data df table_name ;;
       if negb insertion_successful
       then print "Data insertion failed" [] ;;;
            ret 1
       else
         verification_passed <- verify_insertion_success table_name (len df) ;;
         (if verification_passed
          then print "=== Data Insertion Complete ===" [] ;;;
               print "Successfully inserted and verified {} student records" [AInt (len df)] ;;;
               print "Database is ready for analytical queries" []
          else print "Data insertion completed but verification failed" [] ;;;
               print "Please check the database manually for any issues" []) ;;;
         ret 0)
      (close ;;;
       print "Database connection closed" []).

End Insertion.
End data_insertion.

(** * 05_data_analysis.py *)

(** ** Grouping, ordering and the aggregate functions of SQL *)

Fixpoint add_to_group {A} (k : string) (r : A) (groups : list (string * list A))
  : list (string * list A) :=
  match groups with
  | [] => [(k, [r])]
  | (k', rs) :: rest =>
      if String.eqb k k' then (k', rs ++ [r]) :: rest
      else (k', rs) :: add_to_group k r rest
  end.

(** [GROUP BY key]: the groups in the order their keys first appear, each
    with its rows in table order. *)
Definition group_by {A} (key : A -> string) (rows : list A) : list (string * list A) :=
  List.fold_left (fun groups r => add_to_group (key r) r groups) rows [].

Fixpoint insert_sorted {A} (le : A -> A -> bool) (x : A) (l : list A) : list A :=
  match l with
  | [] => [x]
  | y :: rest => if le x y then x :: l else y :: insert_sorted le x rest
  end.

(** [ORDER BY]: a sort by [le]; this one keeps rows that compare equal in the
    order they had. *)
Definition order_by {A} (le : A -> A -> bool) (l : list A) : list A :=
  List.fold_right (insert_sorted le) [] l.

Definition Qsum (l : list Q) : Q := List.fold_right Qplus 0%Q l.

Definition Qmin_of (a b : Q) : Q := if Qle_bool a b then a else b.
Definition Qmax_of (a b : Q) : Q := if Qle_bool a b then b else a.

(** The server writes a [NUMERIC] in base 10000.  The weight of a number is
    the exponent of its first digit that is not zero, and [first_digit] is
    that digit, from 1 to 9999; zero has weight 0 and first digit 0. *)
Fixpoint weight_above (fuel : nat) (x : Z) : Z :=
  match fuel with
  | O => 0
  | S fuel => if x <? 10000 then 0 else 1 + weight_above fuel (x / 10000)
  end.

Fixpoint weight_below (fuel : nat) (q : Q) : Z :=
  match fuel with
  | O => -1
  | S fuel =>
      if Qle_bool 1 (q * 10000) then -1
      else -1 + weight_below fuel (q * 10000)
  end.

Definition weight (q : Q) : Z :=
  let a := Qabs q in
  if Qle_bool 1 a then weight_above (Z.to_nat (Z.log2 (Qfloor a))) (Qfloor a)
  else if Qle_bool a 0 then 0
  else weight_below (Pos.to_nat (Pos.size (Qden a))) a.

Definition first_digit (q : Q) : Z :=
  Qfloor (Qabs q / Qpower 10000 (weight q)).

(** The number of decimals of a quotient of two [NUMERIC]s
    ([select_div_scale]): enough for 16 significant digits by an estimate of
    the weight of the quotient, no fewer than either operand shows, and at
    most 1000.  AVG divides the sum of the marks, which shows the two
    decimals of a [NUMERIC(4,2)], by their count, which shows none. *)
Definition div_scale (x : Q) (n : Z) : Z :=
  let qweight :=
    weight x - weight (inject_Z n) -
    (if first_digit x <=? first_digit (inject_Z n) then 1 else 0) in
  Z.min 1000 (Z.max 0 (Z.max 0 (Z.max 2 (16 - qweight * 4)))).

(** [x / n] as a [NUMERIC]: rounded to that many decimals, halves away from
    zero. *)
Definition numeric_div (x : Q) (n : Z) : Q :=
  let unit := 10 ^ div_scale x n in
  Qred (Qmake (round_half_away (x / inject_Z n * inject_Z unit)) (Z.to_pos unit)).

(** [AVG], [MIN] and [MAX] are NULL over no row. *)
Definition sql_avg (l : list Q) : option Q :=
  match l with
  | [] => None
  | _ => Some (numeric_div (Qsum l) (len l))
  end.

Definition sql_min (l : list Q) : option Q :=
  match l with
  | [] => None
  | x :: rest => Some (List.fold_left Qmin_of rest x)
  end.

Definition sql_max (l : list Q) : option Q :=
  match l with
  | [] => None
  | x :: rest => Some (List.fold_left Qmax_of rest x)
  end.

Fixpoint distinct (l : list string) : list string :=
  match l with
  | [] => []
  | x :: rest => x :: List.filter (fun y => negb (String.eqb x y)) (distinct rest)
  end.

(** Rounding to [digits] decimals, a tie going to the even neighbour: what
    [round] does to a [Decimal] and [Series.round] to a float (taken on the
    exact value). *)
Definition round_half_even (digits : nat) (q : Q) : Q :=
  let unit := 10 ^ Z.of_nat digits in
  let x := (q * inject_Z unit)%Q in
  let f := Qfloor x in
  let n := match (x - inject_Z f ?= 1 # 2)%Q with
           | Lt => f
           | Gt => f + 1
           | Eq => if Z.even f then f else f + 1
           end in
  Qred (Qmake n (Z.to_pos unit)).

(** [series.sum()] of a Series of integers. *)
Definition series_sum (l : list Z) : Z := List.fold_right Z.add 0 l.

Module data_analysis.

(** A row of [analysis_query]. *)
Record gender_row : Type := GenderRow {
  g_gender : string;
  student_count : Z;
  avg_mark_in_group : option Q;
  min_mark_in_group : option Q;
  max_mark_in_group : option Q
}.

(** A row of the age group query. *)
Record age_row : Type := AgeRow {
  age_group : string;
  total_students : Z;
  high_performers : Z;
  avg_mark : option Q
}.

(** A row of [df_results]. *)
Record summary_row : Type := SummaryRow {
  Gender : string;
  Student_Count : Z;
  Average_Mark : Q;
  Min_Mark : Q;
  Max_Mark : Q
}.

(** [df_results]: its rows, and the column [Percentage] once it was added.
    An entry of that column is [None] when it is not a finite number. *)
Record results_frame : Type := ResultsFrame {
  summary : list summary_row;
  Percentage : option (list (option Q))
}.

Section Analysis.
Context {rt : Runtime}.

Definition marks (rows : list Db.row) : list Q := List.map Db.average_mark rows.

(** [average_mark > 5.0] *)
Definition above_5 (r : Db.row) : bool := Qlt_bool 5 (Db.average_mark r).

(** [SELECT COUNT( * ), COUNT(DISTINCT gender), MIN(average_mark),
    MAX(average_mark), AVG(average_mark) FROM t] *)
Definition overview_query (rows : list Db.row)
  : Z * Z * option Q * option Q * option Q :=
  (len rows, len (distinct (List.map Db.gender rows)),
   sql_min (marks rows), sql_max (marks rows), sql_avg (marks rows)).

(** [SELECT gender, COUNT( * ), AVG(average_mark), MIN(average_mark),
    MAX(average_mark) FROM t WHERE average_mark > 5.0 GROUP BY gender
    ORDER BY gender] *)
Definition analysis_query (rows : list Db.row) : list gender_row :=
  let selected := List.filter above_5 rows in
  let groups := group_by Db.gender selected in
  order_by (fun a b => String.leb (g_gender a) (g_gender b))
    (List.map (fun g => {| g_gender := fst g;
                           student_count := len (snd g);
                           avg_mark_in_group := sql_avg (marks (snd g));
                           min_mark_in_group := sql_min (marks (snd g));
                           max_mark_in_group := sql_max (marks (snd g)) |})
              groups).

(** [f"{x:.2f}"]: formatting [None] raises [TypeError]. *)
Definition format_2f (x : option Q) : result arg :=
  match x with
  | Some q => Ok (ANum q)
  | None => Raise TypeError
  end.

Definition analyze_student_performance_by_gender (table_name : string)
  : M (option (list gender_row)) :=
  print "=== Analyzing Student Performance by Gender ===" [] ;;;
  try_except
    (print "Dataset Overview:" [] ;;;
     overview <- select "overview" table_name overview_query ;;
     let '(total, categories, lo, hi, mean) := overview in
     print "  Total students in database: {}" [AInt total] ;;;
     print "  Gender categories: {}" [AInt categories] ;;;
     lo <- lift (format_2f lo) ;;
     hi <- lift (format_2f hi) ;;
     print "  Average mark range: {} to {}" [lo; hi] ;;;
     mean <- lift (format_2f mean) ;;
     print "  Overall average mark: {}" [mean] ;;;
     print "Students with average marks > 5.0:" [] ;;;
     results <- select "analysis_query" table_name analysis_query ;;
     print "Query Results:" [] ;;;
     for_loop results
       (fun row (_ : unit) =>
          let gender_label := if String.eqb (g_gender row) "m" then "Male" else "Female" in
          print "  {} students: {} students" [AStr gender_label; AInt (student_count row)] ;;;
          mean <- lift (format_2f (avg_mark_in_group row)) ;;
          print "    Average mark in group: {}" [mean] ;;;
          lo <- lift (format_2f (min_mark_in_group row)) ;;
          hi <- lift (format_2f (max_mark_in_group row)) ;;
          print "    Mark range in group: {} to {}" [lo; hi]) tt ;;;
     ret (Some results))
    (fun e =>
       match e with
       | PgError _ =>
           print "Database error during analysis: {}" [AExn e] ;;;
           ret None
       | _ =>
           print "Unexpected error during analysis: {}" [AExn e] ;;;
           ret None
       end).

(** The [CASE] expression of the age group query. *)
Definition age_group_of (r : Db.row) : string :=
  if Db.age r <? 20 then "Under 20"
  else if (20 <=? Db.age r) && (Db.age r <=? 25) then "20-25"
  else "Over 25".

(** The groups of the age group query, before they are ordered. *)
Definition age_groups (rows : list Db.row) : list age_row :=
  List.map (fun g => {| age_group := fst g;
                        total_students := len (snd g);
                        high_performers := len (List.filter above_5 (snd g));
                        avg_mark := sql_avg (marks (snd g)) |})
           (group_by age_group_of rows).

(** [ORDER BY avg_mark DESC]; NULL would come first. *)
Definition avg_desc (a b : age_row) : bool :=
  match avg_mark a, avg_mark b with
  | Some x, Some y => Qle_bool y x
  | None, _ => true
  | Some _, None => false
  end.

(** The answer of the server: the groups as its aggregation hands them out,
    sorted by [ORDER BY avg_mark DESC].  There are three groups at most, and
    the server sorts so few rows by insertion: groups of equal average stay
    in the order in which they were handed out. *)
Definition age_group_query (rows : list Db.row) : list age_row :=
  order_by avg_desc
    (order_by (fun a b => group_before (age_group a) (age_group b))
              (age_groups rows)).

(** [SELECT COUNT( * ), COUNT(CASE WHEN average_mark > 5.0 THEN 1 END),
    COUNT(CASE WHEN average_mark <= 5.0 THEN 1 END), AVG(average_mark) FROM t] *)
Definition stats_query (rows : list Db.row) : Z * Z * Z * option Q :=
  (len rows,
   len (List.filter above_5 rows),
   len (List.filter (fun r => Qle_bool (Db.average_mark r) 5) rows),
   sql_avg (marks rows)).

(** [a / b * 100 if b > 0 else 0]; the quotient is kept exact. *)
Definition rate (a b : Z) : Q :=
  if 0 <? b then (inject_Z a / inject_Z b * 100)%Q else 0%Q.

Definition perform_additional_exploratory_analysis (table_name : string) : M unit :=
  print "=== Additional Exploratory Analysis ===" [] ;;;
  try_except
    (print "Performance Distribution Analysis:" [] ;;;
     age_results <- select "age_group" table_name age_group_query ;;
     print "Performance by Age Group:" [] ;;;
     for_loop age_results
       (fun row (_ : unit) =>
          let performance_rate := rate (high_performers row) (total_students row) in
          mean <- lift (format_2f (avg_mark row)) ;;
          print "  {}: {}/{} high performers ({}%), avg mark: {}"
                [AStr (age_group row); AInt (high_performers row);
                 AInt (total_students row); ANum performance_rate; mean]) tt ;;;
     stats <- select "stats" table_name stats_query ;;
     let '(total, above, at_or_below, overall) := stats in
     let success_rate := rate above total in
     print "Overall Performance Statistics:" [] ;;;
     print "  Total students: {}" [AInt total] ;;;
     print "  Students with marks > 5.0: {} ({}%)" [AInt above; ANum success_rate] ;;;
     print "  Students with marks <= 5.0: {} ({}%)"
           [AInt at_or_below; ANum (100 - success_rate)%Q] ;;;
     overall <- lift (format_2f overall) ;;
     print "  Overall average mark: {}" [overall])
    (fun e =>
       match e with
       | PgError _ => print "Database error during exploratory analysis: {}" [AExn e]
       | _ => print "Unexpected error during exploratory analysis: {}" [AExn e]
       end).

(** [round(x, 2)]: [None] has no [__round__]. *)
Definition py_round (x : option Q) (digits : nat) : result Q :=
  match x with
  | Some q => Ok (round_half_even digits q)
  | None => Raise TypeError
  end.

(** The body of the loop that builds [data_for_dataframe]. *)
Definition summary_of (row : gender_row) : result summary_row :=
  let gender_label := if String.eqb (g_gender row) "m" then "Male" else "Female" in
  rbind (py_round (avg_mark_in_group row) 2) (fun average =>
  rbind (py_round (min_mark_in_group row) 2) (fun lo =>
  rbind (py_round (max_mark_in_group row) 2) (fun hi =>
  Ok {| Gender := gender_label;
        Student_Count := student_count row;
        Average_Mark := average;
        Min_Mark := lo;
        Max_Mark := hi |}))).

(** [df.loc[df['Student_Count'].idxmax()]]: the first row with the greatest
    count. *)
Fixpoint idxmax (rows : list summary_row) : option summary_row :=
  match rows with
  | [] => None
  | r :: rest =>
      match idxmax rest with
      | Some m => if Student_Count r <? Student_Count m then Some m else Some r
      | None => Some r
      end
  end.

(** [(count / total * 100).round(1)]: a division by zero gives numpy's [inf]
    or [nan], no exception. *)
Definition percentage (count total : Z) : option Q :=
  if total =? 0 then None
  else Some (round_half_even 1 (inject_Z count / inject_Z total * 100)).

Definition summary_cells (r : summary_row) : list cell :=
  [PyStr (Gender r); PyInt (Student_Count r); PyFloat (Average_Mark r);
   PyFloat (Min_Mark r); PyFloat (Max_Mark r)].

(** [results] is what [analyze_student_performance_by_gender] returned:
    [None], or the list of rows; [not results] holds of [None] and of the
    empty list. *)
Definition create_pandas_dataframe_from_results (results : option (list gender_row))
  : M (option results_frame) :=
  print "=== Creating pandas DataFrame from Query Results ===" [] ;;;
  match results with
  | None | Some [] =>
      print "No results available to convert to DataFrame" [] ;;;
      ret None
  | Some results =>
      data_for_dataframe <- lift (traverse summary_of results) ;;
      let df_results := data_for_dataframe in
      print "Successfully created pandas DataFrame from query results" [] ;;;
      print "DataFrame Contents:" [] ;;;
      print "{}" [ACells (List.map summary_cells df_results)] ;;;
      print "Additional Analysis Using pandas:" [] ;;;
      let total_high_performers := series_sum (List.map Student_Count df_results) in
      print "Total students with average marks > 5.0: {}" [AInt total_high_performers] ;;;
      if 1 <? len df_results
      then
        most <- lift (match idxmax df_results with
                      | Some m => Ok m
                      | None => Raise ValueError
                      end) ;;
        let gender_with_most := Gender most in
        let highest_count := Student_Count most in
        print "Gender with most high performers: {} ({} students)"
              [AStr gender_with_most; AInt highest_count] ;;;
        let percentages :=
          List.map (fun r => percentage (Student_Count r) total_high_performers)
                   df_results in
        print "Percentage Distribution:" [] ;;;
        for_loop (List.combine df_results percentages)
          (fun '(row, p) (_ : unit) =>
             print "  {}: {}% of high performers"
                   [AStr (Gender row);
                    match p with Some q => ANum q | None => ANone end]) tt ;;;
        ret (Some {| summary := df_results; Percentage := Some percentages |})
      else ret (Some {| summary := df_results; Percentage := None |})
  end.

(** Steps 2 to 5 of [main], on the connection that step 1 opened.  The
    [finally] clause closes the connection on every way out.  The two lines
    that print the time of day are left out. *)
Definition main (table_name : string) : M unit :=
  print "=== Student Performance Analysis Pipeline ===" [] ;;;
  try_finally
    (results <- analyze_student_performance_by_gender table_name ;;
     match results with
     | None => print "Core analysis failed" []
     | Some _ =>
         df_results <- create_pandas_dataframe_from_results results ;;
         match df_results with
         | None => print "DataFrame creation failed" []
         | Some df_results =>
             perform_additional_exploratory_analysis table_name ;;;
             print "=== Analysis Summary ===" [] ;;;
             print "Successfully analyzed student performance patterns" [] ;;;
             print "Created pandas DataFrame with {} gender groups"
                   [AInt (len (summary df_results))] ;;;
             print "Demonstrated database query optimization and pandas integration" [] ;;;
             print "Assignment requirements completed successfully" []
         end
     end)
    (close ;;;
     print "Database connection closed" []).

End Analysis.
End data_analysis.

(** * The wording of the specification

    Definitions that follow the text of the specification, not the code, to
    compare the two. *)

Module Spec.

(** "age is a positive integer, plausible upper bound (<= 150)" *)
Definition age_invariant (a : Z) : bool := (0 <? a) && (a <=? 150).

Definition is_integer (c : cell) : bool :=
  match c with
  | PyInt _ => true
  | PyFloat q => Pos.eqb (Qden (Qred q)) 1
  | _ => false
  end.

Definition age_ok (c : cell) : bool :=
  match c with
  | PyInt z => age_invariant z
  | PyFloat q => is_integer c && age_invariant (Qfloor q)
  | _ => false
  end.

(** "average_mark is a decimal in the closed interval [0, 10]" *)
Definition mark_ok (c : cell) : bool :=
  match c with
  | PyInt z => (0 <=? z) && (z <=? 10)
  | PyFloat q => Qle_bool 0 q && Qle_bool q 10
  | _ => false
  end.

(** "gender is exactly one of the two accepted codes" *)
Definition gender_ok (c : cell) : bool :=
  match c with
  | PyStr s => String.eqb s "m" || String.eqb s "f"
  | _ => false
  end.

(** "first_name and last_name are non-empty" *)
Definition name_ok (c : cell) : bool :=
  match c with
  | PyStr s => negb (String.eqb s "")
  | _ => false
  end.

(** "phone_number, if present, is an integer; absence is allowed" *)
Definition phone_ok (c : cell) : bool := isnull c || is_integer c.

(** "for each field, accumulates a violation count across the whole batch" *)
Definition violations (ok : cell -> bool) (col : list cell) : Z :=
  len (List.filter (fun c => negb (ok c)) col).

(** "passed = true iff every field's violation count is zero" *)
Definition passed (df : list Clean.row) : bool :=
  (violations age_ok (List.map Clean.age df) =? 0) &&
  (violations mark_ok (List.map Clean.average_mark df) =? 0) &&
  (violations gender_ok (List.map Clean.gender df) =? 0) &&
  (violations name_ok (List.map Clean.first_name df) =? 0) &&
  (violations name_ok (List.map Clean.last_name df) =? 0) &&
  (violations phone_ok (List.map Clean.phone_number df) =? 0).

(** "Drops any record whose average mark field is absent or non-numeric" *)
Definition dropped (r : Raw.row) : bool :=
  match Raw.average_mark r with
  | PyInt _ | PyFloat _ => false
  | _ => true
  end.

Definition starts_with_space (s : string) : bool :=
  match s with
  | EmptyString => true
  | String c _ => is_space c
  end.

(** The name cut at runs of whitespace. *)
Fixpoint tokens (s : string) : list string :=
  match s with
  | EmptyString => []
  | String c rest =>
      if is_space c then tokens rest
      else if starts_with_space rest then String c EmptyString :: tokens rest
      else match tokens rest with
           | t :: ts => String c t :: ts
           | [] => [String c EmptyString]
           end
  end.

(** "first token -> first_name, second token -> last_name; any further
    tokens are discarded"; "if fewer than two parts exist, last_name is left
    empty" *)
Definition split_name (s : string) : string * string :=
  match tokens s with
  | a :: b :: _ => (a, b)
  | [a] => (a, "")
  | [] => ("", "")
  end.

(** "compares against the pre-batch count plus inserted count" *)
Definition expected_count (pre_batch inserted : Z) : Z := pre_batch + inserted.



End Spec.

(** * Sample inputs *)

Module Sample.

Fixpoint digits (s : string) (acc : Z) : option Z :=
  match s with
  | EmptyString => Some acc
  | String c rest =>
      let n := Z.of_nat (nat_of_ascii c) in
      if (48 <=? n) && (n <=? 57) then digits rest (10 * acc + (n - 48)) else None
  end.

Definition decimal (s : string) : option Z :=
  match s with
  | EmptyString => None
  | String "-" (String c rest) => option_map Z.opp (digits (String c rest) 0)
  | _ => digits s 0
  end.

Definition is_name_char (c : ascii) : bool :=
  let n := nat_of_ascii c in
  ((97 <=? n) && (n <=? 122) || (48 <=? n) && (n <=? 57) || (n =? 95))%nat.

Definition is_digit (c : ascii) : bool :=
  let n := nat_of_ascii c in
  ((48 <=? n) && (n <=? 57))%nat.

(** Lowercase letters, digits and underscores, not starting with a digit and
    not one of a few reserved words. *)
Definition plain_name (s : string) : bool :=
  match s with
  | EmptyString => false
  | String c _ =>
      negb (is_digit c) &&
      forallb is_name_char (list_ascii_of_string s) &&
      negb (existsb (String.eqb s)
                    ["order"; "table"; "select"; "from"; "where"; "group"; "user"])
  end.

(** A runtime that reads decimal integers; the samples put text in the text
    columns, so the server never has to write a number as text.  It takes
    plain names for tables and hands out groups in the order of their
    keys. *)
#[global] Instance runtime : Runtime := {|
  py_int_of_str := decimal;
  py_float_of_str := fun s => option_map (fun z => Some (inject_Z z)) (decimal s);
  pg_text_of_number := fun _ => "NaN";
  parses_as_table := plain_name;
  group_before := String.leb
|}.

(** A server without tables, and the console with nothing typed. *)
Definition fresh : world :=
  {| db := {| committed := ∅; working := ∅; sequences := ∅; now := 1700000000 |};
     sent := []; stdin := []; stdout := [] |}.

(** The world after [create_students_table]. *)
Definition created : world :=
  snd (database_setup.create_students_table "students" fresh).

Definition student (name first last : string) (age : Z) (mark : Q) (gender : string)
  : Clean.row :=
  {| Clean.student_name := PyStr name; Clean.first_name := PyStr first;
     Clean.last_name := PyStr last; Clean.age := PyInt age;
     Clean.average_mark := PyFloat mark; Clean.gender := PyStr gender;
     Clean.phone_number := NaN |}.

Definition ann := student "Ann Lee" "Ann" "Lee" 19 6 "f".
Definition bea := student "Bea Moss" "Bea" "Moss" 22 4 "f".
Definition cal := student "Cal Roe" "Cal" "Roe" 27 8 "m".

(** The three rows of the aggregation example. *)
Definition batch : list Clean.row := [ann; bea; cal].

Definition with_input (l : list string) (w : world) : world :=
  {| db := db w; sent := sent w; stdin := l; stdout := stdout w |}.

(** A new connection to the server of [w]: nothing was sent on it yet. *)
Definition reconnected (w : world) : world :=
  {| db := db w; sent := []; stdin := stdin w; stdout := stdout w |}.

(** The world after the batch was inserted into the new table. *)
Definition loaded : world :=
  snd (data_insertion.insert_student_data batch "students" created).

Definition stored (w : world) : list Db.row :=
  match committed (db w) !! "students" with
  | Some t => tbl_rows t
  | None => []
  end.

(** A batch whose second record has an age the table refuses. *)
Definition spoiled : list Clean.row :=
  [ann; student "Max Low" "Max" "Low" 0 7 "m"; cal].

(** The letter e with an acute accent, which takes two bytes, and a name of
    thirty of them. *)
Definition e_acute : string :=
  String (ascii_of_nat 195) (String (ascii_of_nat 169) EmptyString).

Definition accented_name : string := String.concat "" (List.repeat e_acute 30).



(** The insertion script run a second time on the same batch, the operator
    agreeing to insert into the table that is no longer empty. *)
Definition second_run : result Z * world :=
  data_insertion.main batch "students" (with_input ["y"] loaded).

End Sample.

(** * Vocabulary of the statements *)

(** ** Worlds *)

(** [says out w]: the world [w] after the lines [out] were printed. *)
Definition says (out : list line) (w : world) : world :=
  {| db := db w; sent := sent w; stdin := stdin w; stdout := stdout w ++ out |}.

(** The arguments of the lines printed from the template [t]. *)
Definition printed (t : string) (w : world) : list (list arg) :=
  List.map args (List.filter (fun l => String.eqb (template l) t) (stdout w)).

(** Whether a transaction is open on the connection: psycopg2 begins one
    before a statement when none is open, and it lasts until the next
    [commit], [rollback] or [close] (a statement that failed leaves it open,
    and failed).  So one is open exactly when the last thing the connection
    was asked is a statement. *)
Definition opens_transaction (s : stmt) : bool :=
  match s with
  | Commit | Rollback | Close => false
  | SelectCount _ | Select _ _ | CreateTableIfNotExists _ | InsertInto _ _ => true
  end.

Definition transaction_open (w : world) : bool :=
  match List.rev (sent w) with
  | [] => false
  | s :: _ => opens_transaction s
  end.

(** The next value of the sequence behind the [SERIAL] column of a table. *)
Definition next_id (w : world) (tbl : string) : Z :=
  match sequences (db w) !! tbl with
  | Some n => n
  | None => 1
  end.

(** What [SELECT COUNT( * )] would answer. *)
Definition row_count (w : world) (tbl : string) : option Z :=
  option_map (fun t => len (tbl_rows t)) (working (db w) !! tbl).

(** ** Computations that only read *)

(** The statements that only read. *)
Definition is_query (s : stmt) : Prop :=
  match s with
  | SelectCount _ | Select _ _ => True
  | _ => False
  end.

(** [w'] differs from [w] by printed lines and by queries that were sent. *)
Definition only_reads (w w' : world) : Prop :=
  db w' = db w /\ stdin w' = stdin w /\
  (exists out, stdout w' = stdout w ++ out) /\
  (exists stmts, sent w' = sent w ++ stmts /\ Forall is_query stmts).

(** A computation that returns, and only prints and queries. *)
Definition reads {A} (m : M A) : Prop :=
  forall w, exists a w', m w = (Ok a, w') /\ only_reads w w'.

(** The same, but it may also raise. *)
Definition reads_or_raises {A} (m : M A) : Prop :=
  forall w, exists r w', m w = (r, w') /\ only_reads w w'.

(** On the server [srv], [m] returns [a] and only prints and queries. *)
Definition runs {A} (srv : server) (m : M A) (a : A) : Prop :=
  forall w, db w = srv -> exists w', m w = (Ok a, w') /\ only_reads w w'.

(** ** Cleaning *)

(** The first and the second piece of a name cut at every space, as the
    columns 0 and 1 of the expanded split hold them when the frame has both:
    [None] pads a name with a single piece, and a name that is not text gives
    NaN in every column. *)
Definition name_columns (name : cell) : cell * cell :=
  match name with
  | PyStr s =>
      match split " " s with
      | first :: last :: _ => (PyStr first, PyStr last)
      | [first] => (PyStr first, PyNone)
      | [] => (PyNone, PyNone)
      end
  | _ => (NaN, NaN)
  end.

(** A raw record with the two name columns added. *)
Definition with_names (r : Raw.row) : Clean.row :=
  {| Clean.student_name := Raw.student_name r;
     Clean.first_name := fst (name_columns (Raw.student_name r));
     Clean.last_name := snd (name_columns (Raw.student_name r));
     Clean.age := Raw.age r;
     Clean.average_mark := Raw.average_mark r;
     Clean.gender := Raw.gender r;
     Clean.phone_number := Raw.phone_number r |}.

(** ** Validation *)

(** A cell pandas compares with a number without raising: anything but text. *)
Definition numeric (c : cell) : Prop :=
  match c with
  | PyStr _ => False
  | _ => True
  end.

(** A number from [lo] to [hi]. *)
Definition in_range (lo hi : Z) (c : cell) : Prop :=
  match c with
  | PyInt z => lo <= z <= hi
  | PyFloat q => (inject_Z lo <= q /\ q <= inject_Z hi)%Q
  | _ => False
  end.

(** The records no check of the validation counts. *)
Definition acceptable (r : Clean.row) : Prop :=
  isnull (Clean.first_name r) = false /\
  isnull (Clean.last_name r) = false /\
  in_range 1 150 (Clean.age r) /\
  in_range 0 10 (Clean.average_mark r) /\
  (Clean.gender r = PyStr "m" \/ Clean.gender r = PyStr "f").

(** The entries of the masks [column < k] and [column > k]. *)
Definition below (k : Z) (c : cell) : bool :=
  match cell_lt c k with Ok b => b | Raise _ => false end.

Definition above (k : Z) (c : cell) : bool :=
  match cell_gt c k with Ok b => b | Raise _ => false end.

(** Two records that agree on every column but the phone number. *)
Definition same_but_phone (a b : Clean.row) : Prop :=
  Clean.student_name a = Clean.student_name b /\
  Clean.first_name a = Clean.first_name b /\
  Clean.last_name a = Clean.last_name b /\
  Clean.age a = Clean.age b /\
  Clean.average_mark a = Clean.average_mark b /\
  Clean.gender a = Clean.gender b.

(** ** The students table *)

Definition sql_phone (p : option Z) : sqlval :=
  match p with
  | Some z => VInt z
  | None => VNull
  end.

(** The values sent for one student, in the order of [insert_columns]. *)
Definition student_values (n f l : string) (a : Z) (m : Q) (g : string) (p : option Z)
  : list sqlval :=
  [VText n; VText f; VText l; VInt a; VNum m; VText g; sql_phone p].

(** The row offered to the constraints once every column has its value. *)
Definition candidate (seq : Z) (n f l : string) (a : Z) (m : Q) (g : string)
  (p : option Z) (ts : Z) : list (string * sqlval) :=
  [("id", VInt seq); ("student_name", VText n); ("first_name", VText f);
   ("last_name", VText l); ("age", VInt a); ("average_mark", VNum m);
   ("gender", VText g); ("phone_number", sql_phone p); ("created_at", VInt ts)].

(** ** Aggregation *)

(** The rows of the group with key [k]. *)
Fixpoint group_of {A} (k : string) (groups : list (string * list A)) : list A :=
  match groups with
  | [] => []
  | (k', rs) :: rest => if String.eqb k k' then rs else group_of k rest
  end.

(** The rows with a mark above 5 and gender [g]. *)
Definition high_performers_of (g : string) (rows : list Db.row) : list Db.row :=
  List.filter (fun r => String.eqb (Db.gender r) g)
              (List.filter data_analysis.above_5 rows).

(** The rows of the bucket labelled [label], whatever their mark. *)
Definition bucket (label : string) (rows : list Db.row) : list Db.row :=
  List.filter (fun r => String.eqb (data_analysis.age_group_of r) label) rows.

(** ** Further vocabulary *)

(** A name with a space in it. *)
Definition has_space (c : cell) : bool :=
  match c with
  | PyStr s => existsb (Ascii.eqb " ") (list_ascii_of_string s)
  | _ => false
  end.

Definition is_text (c : cell) : bool :=
  match c with
  | PyStr _ => true
  | _ => false
  end.

(** The last line [split_student_names] prints. *)
Definition names_verdict (df : list Raw.row) : line :=
  let missing_first :=
    len (List.filter (fun r => negb (is_text (Raw.student_name r))) df) in
  let missing_last :=
    len (List.filter (fun r => negb (has_space (Raw.student_name r))) df) in
  if (0 <? missing_first) || (0 <? missing_last)
  then Line "Warning: {} records missing first name, {} missing last name"
            [AInt missing_first; AInt missing_last]
  else Line "All names split successfully" [].

(** What a table with the columns [ddl] keeps of the tuples [data], inserted
    one after the other with sequence values from [seq] on: the rows, or the
    first refusal. *)
Fixpoint insert_all `{Runtime} (ddl : list column) (cols : list string)
  (data : list (list sqlval)) (seq ts : Z) : result (list Db.row) :=
  match data with
  | [] => Ok []
  | vals :: rest =>
      rbind (store_insert ddl cols vals seq ts) (fun row =>
      rbind (insert_all ddl cols rest (seq + 1) ts) (fun rows => Ok (row :: rows)))
  end.

(** What the [CHECK] clauses of the students table ask of a row. *)
Definition valid_row (r : Db.row) : Prop :=
  0 < Db.age r /\
  (0 <= Db.average_mark r /\ Db.average_mark r <= 10)%Q /\
  (Db.gender r = "m" \/ Db.gender r = "f").

Definition is_insert (s : stmt) : Prop :=
  match s with
  | InsertInto _ _ => True
  | _ => False
  end.

(** On the server [srv], [m] returns [a]; it sends the queries [qs] and
    nothing else, prints, and leaves the server and the input as they were. *)
Definition asks {A} (srv : server) (m : M A) (a : A) (qs : list stmt) : Prop :=
  forall w, db w = srv ->
    exists out,
      m w = (Ok a, {| db := db w; sent := sent w ++ qs; stdin := stdin w;
                      stdout := stdout w ++ out |}).

(** The label the scripts print for a gender code. *)
Definition gender_label (row : data_analysis.gender_row) : string :=
  if String.eqb (data_analysis.g_gender row) "m" then "Male" else "Female".

(** * Properties *)

(** ** Printing and sequencing *)

Lemma says_nil w : says [] w = w.
Proof. destruct w; unfold says; simpl. now rewrite app_nil_r. Qed.

Lemma says_says o1 o2 w : says o2 (says o1 w) = says (o1 ++ o2) w.
Proof. unfold says; simpl. now rewrite app_assoc. Qed.

Lemma print_says t a out w :
  print t a (says out w) = (Ok tt, says (out ++ [Line t a]) w).
Proof. unfold print, says; simpl. now rewrite app_assoc. Qed.

Lemma bind_ok {A B} (m : M A) (k : A -> M B) w a w' :
  m w = (Ok a, w') -> bind m k w = k a w'.
Proof. intros H. unfold bind. now rewrite H. Qed.

Lemma bind_raise {A B} (m : M A) (k : A -> M B) w e w' :
  m w = (Raise e, w') -> bind m k w = (Raise e, w').
Proof. intros H. unfold bind. now rewrite H. Qed.

Lemma bind_print {A} t a (k : unit -> M A) out w :
  bind (print t a) k (says out w) = k tt (says (out ++ [Line t a]) w).
Proof. apply bind_ok, print_says. Qed.

Lemma ret_says {A} (a : A) w : ret a w = (Ok a, w).
Proof. reflexivity. Qed.

(** A run from [w] is a run from [w] with nothing printed yet. *)
Lemma from_start {A} (m : M A) w : m w = m (says [] w).
Proof. now rewrite says_nil. Qed.

Ltac step := first [ rewrite bind_print | rewrite print_says ].

(** ** Records without a mark *)

Lemma sum_map {A} (p : A -> bool) (l : list A) :
  sum (List.map p l) = len (List.filter p l).
Proof.
  unfold sum, len. f_equal.
  induction l as [|a l IH]; simpl; [reflexivity|].
  destruct (p a); simpl; now rewrite IH.
Qed.

Lemma sum_map_map {A} (f : A -> cell) (p : cell -> bool) (l : list A) :
  sum (List.map p (List.map f l)) = len (List.filter (fun r => p (f r)) l).
Proof. rewrite List.map_map. apply sum_map. Qed.

Lemma len_filter_split {A} (p : A -> bool) (l : list A) :
  len (List.filter p l) + len (List.filter (fun a => negb (p a)) l) = len l.
Proof.
  unfold len. induction l as [|a l IH]; simpl; [reflexivity|].
  destruct (p a); simpl; lia.
Qed.

(** C4, as the code has it.  [remove_missing_average_marks] never raises; it
    returns, in their order, the records whose average mark is not missing
    ([None] or NaN), prints the four counts, and the length of its result is
    the length of the input less the number of records with a missing mark.
    A mark that is present is kept, whether or not it is a number. *)
Theorem remove_missing_average_marks_drops_missing (df : list Raw.row) (w : world) :
  let kept := List.filter (fun r => notna (Raw.average_mark r)) df in
  let missing := List.filter (fun r => isnull (Raw.average_mark r)) df in
  data_cleaning.remove_missing_average_marks df w =
    (Ok kept,
     says [Line "=== Removing Records with Missing Average Marks ===" [];
           Line "Records before cleaning: {}" [AInt (len df)];
           Line "Records with missing average marks: {}" [AInt (len missing)];
           Line "Records after cleaning: {}" [AInt (len kept)];
           Line "Records removed: {}" [AInt (len missing)]] w) /\
  (forall r, In r kept <-> In r df /\ isnull (Raw.average_mark r) = false) /\
  len kept = len df - len missing.
Proof.
  intros kept missing.
  assert (Hlen : len kept = len df - len missing).
  { pose proof (len_filter_split (fun r => isnull (Raw.average_mark r)) df) as H.
    cbv beta in H. unfold kept, missing, notna. lia. }
  split; [|split].
  - rewrite (from_start (data_cleaning.remove_missing_average_marks df)).
    unfold data_cleaning.remove_missing_average_marks, dropna.
    repeat step.
    rewrite sum_map_map. fold kept missing. rewrite Hlen.
    replace (len df - (len df - len missing)) with (len missing) by lia.
    reflexivity.
  - intros r. unfold kept. rewrite List.filter_In. unfold notna.
    rewrite Bool.negb_true_iff. reflexivity.
  - exact Hlen.
Qed.

(** C4 as worded fails: a record whose average mark is the text [abc] is
    non-numeric, so the specification drops it, and the cleaner keeps it. *)
Lemma cleaner_keeps_non_numeric_mark :
  let r := {| Raw.student_name := PyStr "Dee Fox"; Raw.age := PyInt 20;
              Raw.average_mark := PyStr "abc"; Raw.gender := PyStr "f";
              Raw.phone_number := NaN |} in
  Spec.dropped r = true /\
  fst (data_cleaning.remove_missing_average_marks [r] Sample.fresh) = Ok [r].
Proof. split; reflexivity. Qed.

(** ** Splitting *)

Lemma split_not_nil sep s : split sep s <> [].
Proof.
  destruct s as [|c s]; simpl; [discriminate|].
  destruct (Ascii.eqb c sep); [discriminate|].
  destruct (split sep s); discriminate.
Qed.

Lemma concat_cons sep x ls :
  ls <> [] -> String.concat sep (x :: ls) = (x ++ sep ++ String.concat sep ls)%string.
Proof. destruct ls; [congruence | reflexivity]. Qed.

Lemma split_concat sep s :
  String.concat (String sep EmptyString) (split sep s) = s.
Proof.
  induction s as [|c s IH]; simpl; [reflexivity|].
  pose proof (split_not_nil sep s) as Hnn.
  destruct (Ascii.eqb_spec c sep) as [->|Hne].
  - rewrite concat_cons by assumption. simpl. now rewrite IH.
  - destruct (split sep s) as [|p ps] eqn:E; [congruence|].
    destruct ps as [|q ps].
    + simpl in *. now rewrite IH.
    + rewrite concat_cons by discriminate.
      rewrite concat_cons in IH by discriminate.
      rewrite <- IH. reflexivity.
Qed.

Lemma split_parts_free sep s :
  Forall (fun p => ~ In sep (list_ascii_of_string p)) (split sep s).
Proof.
  induction s as [|c s IH]; simpl.
  - constructor; [simpl; tauto | constructor].
  - destruct (Ascii.eqb_spec c sep) as [->|Hne].
    + constructor; [simpl; tauto | exact IH].
    + pose proof (split_not_nil sep s) as Hnn.
      destruct (split sep s) as [|p ps] eqn:E; [congruence|].
      inversion IH; subst. constructor; [|assumption].
      simpl. intros [H|H]; [congruence | contradiction].
Qed.

Lemma split_two sep s :
  In sep (list_ascii_of_string s) -> (2 <= List.length (split sep s))%nat.
Proof.
  induction s as [|c s IH]; simpl; [tauto|].
  intros H. destruct (Ascii.eqb_spec c sep) as [->|Hne].
  - pose proof (split_not_nil sep s). destruct (split sep s); simpl; [congruence | lia].
  - destruct H as [H|H]; [congruence|]. specialize (IH H).
    destruct (split sep s); simpl in *; lia.
Qed.

Lemma expand_width_ge rows row :
  In row rows -> (List.length row <= expand_width rows)%nat.
Proof.
  unfold expand_width. induction rows as [|x rows IH]; simpl; [tauto|].
  intros [->|H]; [lia|]. specialize (IH H). lia.
Qed.

Lemma expand_row_columns width c :
  (2 <= width)%nat ->
  List.nth 0 (expand_row width (str_split " " c)) PyNone = fst (name_columns c) /\
  List.nth 1 (expand_row width (str_split " " c)) PyNone = snd (name_columns c).
Proof.
  intros Hw. destruct c as [| |z|q|s]; simpl;
    try (destruct width as [|[|width]]; [lia|lia|simpl; split; reflexivity]).
  pose proof (split_not_nil " " s) as Hnn.
  destruct (split " " s) as [|p [|p' ps]]; [congruence| |]; simpl.
  - split; [reflexivity|]. destruct width as [|[|width]]; [lia|lia|reflexivity].
  - split; reflexivity.
Qed.

Lemma assign_names_map (f g : Raw.row -> cell) df :
  data_cleaning.assign_names df (List.map f df) (List.map g df) =
  List.map (fun r => {| Clean.student_name := Raw.student_name r;
                        Clean.first_name := f r;
                        Clean.last_name := g r;
                        Clean.age := Raw.age r;
                        Clean.average_mark := Raw.average_mark r;
                        Clean.gender := Raw.gender r;
                        Clean.phone_number := Raw.phone_number r |}) df.
Proof. induction df as [|r df IH]; simpl; [reflexivity | now rewrite IH]. Qed.

Lemma lift_says {A B} (r : result A) (k : A -> M B) a w :
  r = Ok a -> bind (lift r) k w = k a w.
Proof. intros ->. reflexivity. Qed.

(** C5, as the code has it.  When some name in the frame contains a space
    (so that the expanded split has a second column), [split_student_names]
    returns every record with the first and second pieces of its name, cut at
    every single space character: the pieces of a name, joined by one space,
    give the name back, and no piece contains a space.  Further pieces are
    discarded; a name with one piece has last name [None]; a name that is not
    text has both parts missing. *)
Theorem split_student_names_at_spaces (df : list Raw.row) (w : world) :
  (exists r s, In r df /\ Raw.student_name r = PyStr s /\
               In " "%char (list_ascii_of_string s)) ->
  (exists out,
     data_cleaning.split_student_names df w =
       (Ok (List.map with_names df), says out w)) /\
  (forall s, String.concat " " (split " " s) = s /\
             Forall (fun p => ~ In " "%char (list_ascii_of_string p)) (split " " s)).
Proof.
  intros (r & s & Hin & Hname & Hsp).
  split; [|intros s'; split; [apply split_concat | apply split_parts_free]].
  set (names := List.map Raw.student_name df).
  set (rows := List.map (str_split " ") names).
  assert (Hw : (2 <= expand_width rows)%nat).
  { apply split_two in Hsp.
    pose proof (expand_width_ge rows (str_split " " (PyStr s))) as H.
    simpl in H. rewrite List.length_map in H.
    assert (In (List.map PyStr (split " " s)) rows).
    { unfold rows, names. apply List.in_map_iff. exists (PyStr s). split; [reflexivity|].
      apply List.in_map_iff. exists r. now split. }
    specialize (H H0). lia. }
  rewrite (from_start (data_cleaning.split_student_names df)).
  unfold data_cleaning.split_student_names. step.
  unfold str_split_expand. fold names. fold rows.
  unfold getitem at 1. cbn [pf_width pf_rows].
  destruct (Nat.ltb_spec 0 (expand_width rows)) as [_|]; [|lia].
  rewrite (lift_says _ _ _ _ eq_refl).
  unfold getitem at 1. cbn [pf_width pf_rows].
  destruct (Nat.ltb_spec 1 (expand_width rows)) as [_|]; [|lia].
  rewrite (lift_says _ _ _ _ eq_refl).
  unfold rows, names. rewrite !List.map_map.
  rewrite assign_names_map.
  erewrite (List.map_ext _ with_names).
  2:{ intros a. unfold with_names.
      destruct (expand_row_columns (expand_width rows) (Raw.student_name a) Hw) as [H0 H1].
      unfold rows, names in H0, H1. rewrite !List.map_map in H0, H1.
      now rewrite H0, H1. }
  repeat step.
  match goal with |- context [if ?c then _ else _] => destruct c end;
    step; eexists; reflexivity.
Qed.

(** C5 on a frame with a two-word name and a one-word name. *)
Lemma split_student_names_at_spaces_witness :
  let df := [Raw.Row (PyStr "Ann Lee") (PyInt 19) (PyFloat 6) (PyStr "f") NaN;
             Raw.Row (PyStr "Cher") (PyInt 30) (PyFloat 9) (PyStr "f") NaN] in
  exists out,
    data_cleaning.split_student_names df Sample.fresh =
      (Ok (List.map with_names df), says out Sample.fresh).
Proof.
  intros df.
  refine (proj1 (split_student_names_at_spaces df Sample.fresh _)).
  exists (Raw.Row (PyStr "Ann Lee") (PyInt 19) (PyFloat 6) (PyStr "f") NaN), "Ann Lee".
  split; [now left|]. split; [reflexivity|]. simpl. tauto.
Defined.

(** C5 as worded fails: with two spaces between the words, the first run of
    whitespace separates [John] from [Smith], and the code, which cuts at each
    space, takes the empty piece between the two spaces as the last name. *)
Lemma split_student_names_double_space :
  let r := Raw.Row (PyStr "John  Smith") (PyInt 20) (PyFloat 6) (PyStr "m") NaN in
  Spec.split_name "John  Smith" = ("John", "Smith") /\
  fst (data_cleaning.split_student_names [r] Sample.fresh) =
    Ok [Clean.Row (PyStr "John  Smith") (PyStr "John") (PyStr "") (PyInt 20) (PyFloat 6)
                  (PyStr "m") NaN].
Proof. split; vm_compute; reflexivity. Qed.

(** ** Validation *)

Lemma traverse_ok {A B} (f : A -> result B) (g : A -> B) l :
  Forall (fun a => f a = Ok (g a)) l -> traverse f l = Ok (List.map g l).
Proof.
  induction 1 as [|a l Ha _ IH]; simpl; [reflexivity|].
  now rewrite Ha, IH.
Qed.

Lemma series_lt_numeric {A} (f : A -> cell) (df : list A) k :
  Forall (fun r => numeric (f r)) df ->
  series_cmp cell_lt (List.map f df) k = Ok (List.map (fun r => below k (f r)) df).
Proof.
  intros H. unfold series_cmp.
  rewrite (traverse_ok _ (below k)).
  - now rewrite List.map_map.
  - apply List.Forall_map. eapply List.Forall_impl; [|exact H].
    intros r. unfold below. cbv beta. destruct (f r); simpl; first [reflexivity | contradiction].
Qed.

Lemma series_gt_numeric {A} (f : A -> cell) (df : list A) k :
  Forall (fun r => numeric (f r)) df ->
  series_cmp cell_gt (List.map f df) k = Ok (List.map (fun r => above k (f r)) df).
Proof.
  intros H. unfold series_cmp.
  rewrite (traverse_ok _ (above k)).
  - now rewrite List.map_map.
  - apply List.Forall_map. eapply List.Forall_impl; [|exact H].
    intros r. unfold above. cbv beta. destruct (f r); simpl; first [reflexivity | contradiction].
Qed.

Lemma check_step {B} (cond : bool) t1 a1 t2 a2 (vp : bool) (k : bool -> M B) out w :
  bind (if cond then print t1 a1 ;;; ret false else print t2 a2 ;;; ret vp) k
       (says out w)
  = k (negb cond && vp) (says (out ++ [if cond then Line t1 a1 else Line t2 a2]) w).
Proof.
  destruct cond; simpl; unfold bind at 1; rewrite bind_print; reflexivity.
Qed.

Lemma boolean_index_mask {A} (p : A -> bool) (df : list A) :
  boolean_index df (List.map p df) = List.filter p df.
Proof.
  induction df as [|r df IH]; simpl; [reflexivity|].
  destruct (p r); now rewrite IH.
Qed.

Lemma mask_or_map {A} (p q : A -> bool) (df : list A) :
  mask_or (List.map p df) (List.map q df) = List.map (fun r => p r || q r) df.
Proof.
  unfold mask_or. induction df as [|r df IH]; simpl; [reflexivity|].
  now rewrite IH.
Qed.

Lemma no_violation {A} (p : A -> bool) (df : list A) :
  (0 <? len (List.filter p df)) = false <-> Forall (fun r => p r = false) df.
Proof.
  unfold len. induction df as [|r df IH]; simpl.
  - split; [constructor | reflexivity].
  - destruct (p r) eqn:E; simpl.
    + split; [intros H; apply Z.ltb_ge in H; lia | intros H; inversion H; congruence].
    + rewrite IH. split; [now constructor | now inversion 1].
Qed.

Lemma all_isin {A} (f : A -> cell) (df : list A) vals :
  negb (all (isin (List.map f df) vals)) = false <->
  Forall (fun r => exists s, f r = PyStr s /\ In s vals) df.
Proof.
  rewrite Bool.negb_false_iff. unfold all, isin.
  rewrite List.map_map, List.forallb_forall, List.Forall_forall.
  split.
  - intros H r Hr. specialize (H _ (List.in_map _ _ _ Hr)). cbv beta in H.
    destruct (f r); try discriminate.
    apply List.existsb_exists in H as (v & Hv & E).
    apply String.eqb_eq in E. subst. eauto.
  - intros H b Hb. apply List.in_map_iff in Hb as (r & <- & Hr).
    destruct (H r Hr) as (s & E & Hs). rewrite E.
    apply List.existsb_exists. exists s. split; [assumption | apply String.eqb_refl].
Qed.

Lemma bind_assoc {A B C} (m : M A) (f : A -> M B) (g : B -> M C) w :
  bind (bind m f) g w = bind m (fun x => bind (f x) g) w.
Proof. unfold bind. destruct (m w) as [[a|e] w']; reflexivity. Qed.

Lemma bind_lift {A B} (a : A) (k : A -> M B) w : bind (lift (Ok a)) k w = k a w.
Proof. reflexivity. Qed.

Lemma bind_ret {A B} (a : A) (k : A -> M B) w : bind (ret a) k w = k a w.
Proof. reflexivity. Qed.

Lemma getcol_first df : getcol df "first name" = Ok (List.map Clean.first_name df).
Proof. reflexivity. Qed.

Lemma getcol_last df : getcol df "last name" = Ok (List.map Clean.last_name df).
Proof. reflexivity. Qed.

Lemma getcol_age df : getcol df "age" = Ok (List.map Clean.age df).
Proof. reflexivity. Qed.

Lemma getcol_mark df : getcol df "average mark" = Ok (List.map Clean.average_mark df).
Proof. reflexivity. Qed.

Lemma getcol_gender df : getcol df "gender" = Ok (List.map Clean.gender df).
Proof. reflexivity. Qed.

Lemma range_check lo hi c :
  numeric c ->
  (isnull c = false /\ (below lo c || above hi c) = false) <-> in_range lo hi c.
Proof.
  unfold below, above, Qlt_bool.
  destruct c as [| |z|q|s]; simpl; intros Hn; try contradiction.
  - split; [intros [? _]; discriminate | tauto].
  - split; [intros [? _]; discriminate | tauto].
  - rewrite Bool.orb_false_iff, !Z.ltb_ge. intuition lia.
  - unfold Qlt_bool. rewrite Bool.orb_false_iff, !Bool.negb_false_iff, !Qle_bool_iff. tauto.
Qed.

Lemma gender_check c :
  (isnull c = false /\ exists s, c = PyStr s /\ In s ["m"; "f"]) <->
  (c = PyStr "m" \/ c = PyStr "f").
Proof.
  split.
  - intros [_ (s & -> & [<-|[<-|[]]])]; auto.
  - intros [->| ->]; (split; [reflexivity|]); eexists; (split; [reflexivity|]); simpl; auto.
Qed.

(** C2, as the code has it.  On a frame whose age and average-mark cells are
    numbers or missing, [validate_data_before_insertion] never raises, prints
    the verdict of all nine checks (five columns for missing values, then the
    age range, the mark range and the gender codes: no check is skipped after
    a failure), and answers [True] exactly when every record has a first and
    a last name that are not missing, an age from 1 to 150, a mark from 0 to
    10 and gender [m] or [f].  The phone number is not among the conditions. *)
Theorem validation_examines_every_record (df : list Clean.row) (w : world) :
  Forall (fun r => numeric (Clean.age r) /\ numeric (Clean.average_mark r)) df ->
  exists passed out,
    data_insertion.validate_data_before_insertion df w = (Ok passed, says out w) /\
    List.length out = 9%nat /\
    (passed = true <-> Forall acceptable df).
Proof.
  intros Hnum.
  assert (Hage : Forall (fun r => numeric (Clean.age r)) df)
    by (eapply List.Forall_impl; [|exact Hnum]; intros a [? ?]; assumption).
  assert (Hmark : Forall (fun r => numeric (Clean.average_mark r)) df)
    by (eapply List.Forall_impl; [|exact Hnum]; intros a [? ?]; assumption).
  rewrite (from_start (data_insertion.validate_data_before_insertion df)).
  unfold data_insertion.validate_data_before_insertion.
  step. cbn [for_loop].
  change (in_columns "age") with true.
  change (in_columns "average mark") with true.
  change (in_columns "gender") with true.
  cbv iota.
  rewrite getcol_first, getcol_last, getcol_age, getcol_mark, getcol_gender.
  repeat first [ rewrite bind_assoc | rewrite bind_lift | rewrite check_step | rewrite bind_ret
               | rewrite series_lt_numeric by assumption
               | rewrite series_gt_numeric by assumption ].
  eexists. eexists. split; [reflexivity|]. split.
  - rewrite !List.length_app. reflexivity.
  - rewrite !Bool.andb_true_iff, !Bool.negb_true_iff.
    rewrite !sum_map_map, !mask_or_map, !boolean_index_mask.
    rewrite !no_violation, all_isin.
    rewrite !List.Forall_forall. rewrite List.Forall_forall in Hage, Hmark.
    split.
    + intros (Hg & Hm & Ha & Hgn & Hmn & Han & Hl & Hf & _) r Hr.
      unfold acceptable. repeat split.
      * now apply Hf.
      * now apply Hl.
      * apply range_check; auto.
      * apply range_check; auto.
      * apply gender_check; auto.
    + intros H. repeat split; intros r Hr; destruct (H r Hr) as (Hf & Hl & Ha & Hm & Hg);
        try assumption.
      * apply gender_check in Hg. tauto.
      * apply range_check in Hm; [tauto | auto].
      * apply range_check in Ha; [tauto | auto].
      * apply gender_check in Hg. tauto.
      * apply range_check in Hm; [tauto | auto].
      * apply range_check in Ha; [tauto | auto].
Qed.

(** C2 as worded fails: a record whose phone number is the text [call me]
    violates "phone_number an integer when present", so the report of the
    specification does not pass, and yet the validator answers [True]. *)
Lemma validation_passes_malformed_phone :
  let r := {| Clean.student_name := PyStr "Ann Lee"; Clean.first_name := PyStr "Ann";
              Clean.last_name := PyStr "Lee"; Clean.age := PyInt 19;
              Clean.average_mark := PyFloat 6; Clean.gender := PyStr "f";
              Clean.phone_number := PyStr "call me" |} in
  fst (data_insertion.validate_data_before_insertion [r] Sample.fresh) = Ok true /\
  Spec.passed [r] = false.
Proof. split; reflexivity. Qed.

(** C2 on the three sample students. *)
Lemma validation_examines_every_record_witness :
  Forall (fun r => numeric (Clean.age r) /\ numeric (Clean.average_mark r)) Sample.batch /\
  exists passed out,
    data_insertion.validate_data_before_insertion Sample.batch Sample.fresh
      = (Ok passed, says out Sample.fresh) /\
    List.length out = 9%nat /\
    (passed = true <-> Forall acceptable Sample.batch).
Proof.
  assert (H : Forall (fun r => numeric (Clean.age r) /\ numeric (Clean.average_mark r))
                     Sample.batch) by (repeat constructor).
  split; [exact H|].
  exact (validation_examines_every_record Sample.batch Sample.fresh H).
Defined.

Lemma bind_ext {A B} (m : M A) (k1 k2 : A -> M B) w :
  (forall a w', k1 a w' = k2 a w') -> bind m k1 w = bind m k2 w.
Proof. intros H. unfold bind. destruct (m w) as [[a|e] w']; [apply H | reflexivity]. Qed.

Lemma boolean_index_len {A B} (df1 : list A) (df2 : list B) mask :
  List.length df1 = List.length df2 ->
  len (boolean_index df1 mask) = len (boolean_index df2 mask).
Proof.
  unfold len. revert df2 mask.
  induction df1 as [|a df1 IH]; intros [|b df2] mask H; simpl in *; try discriminate.
  - reflexivity.
  - destruct mask as [|[] mask]; simpl; [reflexivity| |].
    + rewrite !Nat2Z.inj_succ. f_equal. apply IH. lia.
    + apply IH. lia.
Qed.

Lemma same_columns (f : Clean.row -> cell) df1 df2 :
  Forall2 (fun a b => f a = f b) df1 df2 -> List.map f df1 = List.map f df2.
Proof. induction 1; simpl; congruence. Qed.

(** The verdict of the validation on a frame of numbers. *)
Lemma validation_verdict (df : list Clean.row) (w : world) :
  Forall (fun r => numeric (Clean.age r) /\ numeric (Clean.average_mark r)) df ->
  exists passed out,
    data_insertion.validate_data_before_insertion df w = (Ok passed, says out w) /\
    (passed = true <-> Forall acceptable df).
Proof.
  intros Hnum.
  assert (Hage : Forall (fun r => numeric (Clean.age r)) df)
    by (eapply List.Forall_impl; [|exact Hnum]; intros a [? ?]; assumption).
  assert (Hmark : Forall (fun r => numeric (Clean.average_mark r)) df)
    by (eapply List.Forall_impl; [|exact Hnum]; intros a [? ?]; assumption).
  rewrite (from_start (data_insertion.validate_data_before_insertion df)).
  unfold data_insertion.validate_data_before_insertion.
  step. cbn [for_loop].
  change (in_columns "age") with true.
  change (in_columns "average mark") with true.
  change (in_columns "gender") with true.
  cbv iota.
  rewrite getcol_first, getcol_last, getcol_age, getcol_mark, getcol_gender.
  repeat first [ rewrite bind_assoc | rewrite bind_lift | rewrite check_step | rewrite bind_ret
               | rewrite series_lt_numeric by assumption
               | rewrite series_gt_numeric by assumption ].
  eexists. eexists. split; [reflexivity|].
  rewrite !Bool.andb_true_iff, !Bool.negb_true_iff.
  rewrite !sum_map_map, !mask_or_map, !boolean_index_mask.
  rewrite !no_violation, all_isin.
  rewrite !List.Forall_forall. rewrite List.Forall_forall in Hage, Hmark.
  split.
  - intros (Hg & Hm & Ha & Hgn & Hmn & Han & Hl & Hf & _) r Hr.
    unfold acceptable. repeat split.
    + now apply Hf.
    + now apply Hl.
    + apply range_check; auto.
    + apply range_check; auto.
    + apply gender_check; auto.
  - intros H. repeat split; intros r Hr; destruct (H r Hr) as (Hf & Hl & Ha & Hm & Hg);
      try assumption.
    + apply gender_check in Hg. tauto.
    + apply range_check in Hm; [tauto | auto].
    + apply range_check in Ha; [tauto | auto].
    + apply gender_check in Hg. tauto.
    + apply range_check in Hm; [tauto | auto].
    + apply range_check in Ha; [tauto | auto].
Qed.

(** C10.  Two frames whose records agree on every column but the phone
    number get the same result from [validate_data_before_insertion], and the
    same lines printed: the validation never reads the phone number.  So when
    the records of the first frame are acceptable, the second frame passes,
    whatever its phone numbers are. *)
Theorem validation_ignores_phone_number (df1 df2 : list Clean.row) (w : world) :
  Forall2 same_but_phone df1 df2 ->
  data_insertion.validate_data_before_insertion df1 w =
  data_insertion.validate_data_before_insertion df2 w /\
  (Forall acceptable df1 ->
   exists out,
     data_insertion.validate_data_before_insertion df2 w = (Ok true, says out w)).
Proof.
  intros H.
  assert (Hsame : data_insertion.validate_data_before_insertion df1 w =
                  data_insertion.validate_data_before_insertion df2 w).
  { assert (Hlen : List.length df1 = List.length df2)
      by (eapply List.Forall2_length; eauto).
    assert (Hcol : forall f : Clean.row -> cell,
                     (forall a b, same_but_phone a b -> f a = f b) ->
                     List.map f df1 = List.map f df2).
    { intros f Hf. apply same_columns. eapply List.Forall2_impl; [|exact H]. exact Hf. }
    unfold data_insertion.validate_data_before_insertion.
    cbn [for_loop].
    change (in_columns "age") with true.
    change (in_columns "average mark") with true.
    change (in_columns "gender") with true.
    cbv iota.
    rewrite !getcol_first, !getcol_last, !getcol_age, !getcol_mark, !getcol_gender.
    rewrite (Hcol Clean.first_name), (Hcol Clean.last_name), (Hcol Clean.age),
            (Hcol Clean.average_mark), (Hcol Clean.gender)
      by (unfold same_but_phone; tauto).
    repeat first
      [ reflexivity
      | rewrite (boolean_index_len df1 df2) by exact Hlen
      | rewrite !bind_assoc
      | apply bind_ext; intros ]. }
  split; [exact Hsame|].
  intros Hok.
  destruct (validation_verdict df1 w) as (passed & out & Hrun & Hpassed).
  { eapply List.Forall_impl; [|exact Hok].
    intros r (_ & _ & Ha & Hm & _).
    split; [destruct (Clean.age r) | destruct (Clean.average_mark r)];
      solve [exact I | contradiction]. }
  exists out. rewrite <- Hsame, Hrun.
  now rewrite (proj2 Hpassed Hok).
Qed.

(** C10 on a sample student and the same student with the phone number
    [call me]: the malformed phone number passes. *)
Lemma validation_ignores_phone_number_witness :
  let a := Sample.ann in
  let b := {| Clean.student_name := PyStr "Ann Lee"; Clean.first_name := PyStr "Ann";
              Clean.last_name := PyStr "Lee"; Clean.age := PyInt 19;
              Clean.average_mark := PyFloat 6; Clean.gender := PyStr "f";
              Clean.phone_number := PyStr "call me" |} in
  Forall2 same_but_phone [a] [b] /\
  Forall acceptable [a] /\
  data_insertion.validate_data_before_insertion [a] Sample.fresh =
  data_insertion.validate_data_before_insertion [b] Sample.fresh /\
  exists out,
    data_insertion.validate_data_before_insertion [b] Sample.fresh
      = (Ok true, says out Sample.fresh).
Proof.
  intros a b.
  assert (H : Forall2 same_but_phone [a] [b]).
  { constructor; [|constructor]. repeat split. }
  assert (Hok : Forall acceptable [a]).
  { constructor; [|constructor]. unfold acceptable, a. cbn.
    repeat split; try lia; try (left; reflexivity); try (right; reflexivity);
      vm_compute; discriminate. }
  split; [exact H|]. split; [exact Hok|].
  destruct (validation_ignores_phone_number [a] [b] Sample.fresh H) as [Hsame Hpass].
  split; [exact Hsame | exact (Hpass Hok)].
Defined.

(** ** Batch insertion *)

Lemma len_pos {A} (l : list A) : l <> [] -> (0 <? len l) = true.
Proof. destruct l; [congruence|]. intros _. unfold len. simpl. apply Z.ltb_lt. lia. Qed.

Lemma bind_print1 {B} t a (k : unit -> M B) w :
  bind (print t a) k w = k tt (says [Line t a] w).
Proof. reflexivity. Qed.

Section Runs.

Context {rt : Runtime}.

Lemma bind_select_count {B} tbl (k : Z -> M B) w t :
  working (db w) !! tbl = Some t ->
  bind (select_count tbl) k w = k (len (tbl_rows t)) (note (SelectCount tbl) w).
Proof. intros H. unfold bind, select_count. cbn. rewrite H. reflexivity. Qed.

Lemma execute_insert_run tbl cols vals w t :
  working (db w) !! tbl = Some t ->
  exists w',
    execute_insert tbl cols vals w =
      (match store_insert (tbl_columns t) cols vals (next_id w tbl) (now (db w)) with
       | Ok _ => Ok tt
       | Raise e => Raise e
       end, w') /\
    committed (db w') = committed (db w) /\
    now (db w') = now (db w) /\
    next_id w' tbl = next_id w tbl + 1 /\
    stdin w' = stdin w /\ stdout w' = stdout w /\
    sent w' = sent w ++ [InsertInto tbl vals] /\
    match store_insert (tbl_columns t) cols vals (next_id w tbl) (now (db w)) with
    | Ok row => working (db w') =
                <[tbl := Table (tbl_columns t) (tbl_rows t ++ [row])]> (working (db w))
    | Raise _ => working (db w') = working (db w)
    end.
Proof.
  intros H. unfold execute_insert, next_id. cbn. rewrite H.
  destruct (store_insert _ _ _ _ _) as [row|e]; eexists; (split; [reflexivity|]);
    cbn; unfold next_id; cbn; rewrite lookup_insert_eq; repeat split; reflexivity.
Qed.

Lemma executemany_refused tbl cols data :
  forall i w t vals e,
    working (db w) !! tbl = Some t ->
    nth_error data i = Some vals ->
    store_insert (tbl_columns t) cols vals (next_id w tbl + Z.of_nat i) (now (db w))
      = Raise e ->
    exists e' w' n,
      executemany tbl cols data w = (Raise e', w') /\
      committed (db w') = committed (db w) /\
      stdin w' = stdin w /\ stdout w' = stdout w /\
      sent w' = sent w ++ List.map (InsertInto tbl) (List.firstn n data).
Proof.
  unfold executemany.
  induction data as [|vals0 data IH]; intros i w t vals e Ht Hnth Hbad.
  - destruct i; discriminate.
  - cbn [for_loop].
    destruct (execute_insert_run tbl cols vals0 w t Ht)
      as (w1 & Hrun & Hc & Hn & Hs & Hi & Ho & Hsent & Hw).
    unfold bind at 1. rewrite Hrun.
    destruct (store_insert (tbl_columns t) cols vals0 (next_id w tbl) (now (db w)))
      as [row|e0] eqn:E0.
    + destruct i as [|i].
      * simpl in Hnth. injection Hnth as <-.
        rewrite Z.add_0_r in Hbad. congruence.
      * simpl in Hnth.
        destruct (IH i w1 (Table (tbl_columns t) (tbl_rows t ++ [row])) vals e)
          as (e' & w' & n & Hrun' & Hc' & Hi' & Ho' & Hs').
        -- rewrite Hw. apply lookup_insert_eq.
        -- exact Hnth.
        -- cbn [tbl_columns]. rewrite Hs, Hn.
           replace (next_id w tbl + 1 + Z.of_nat i) with (next_id w tbl + Z.of_nat (S i)) by lia.
           exact Hbad.
        -- exists e', w', (S n). repeat split; try congruence.
           rewrite Hs', Hsent. cbn [List.firstn List.map].
           now rewrite <- app_assoc.
    + exists e0, w1, 1%nat. repeat split; assumption.
Qed.

Lemma insertion_failed_run e w :
  exists l,
    data_insertion.insertion_failed e w =
      (Ok false,
       {| db := {| committed := committed (db w); working := committed (db w);
                   sequences := sequences (db w); now := now (db w) |};
          sent := sent w ++ [Rollback];
          stdin := stdin w;
          stdout := stdout w ++ [l] |}).
Proof. destruct e; eexists; reflexivity. Qed.

Lemma insertion_refused df tbl w t data i vals e :
  working (db w) !! tbl = Some t ->
  traverse data_insertion.record_data df = Ok data ->
  nth_error data i = Some vals ->
  store_insert (tbl_columns t) data_insertion.insert_columns vals
               (next_id w tbl + Z.of_nat i) (now (db w)) = Raise e ->
  exists e' w' n,
    data_insertion.insertion df tbl w = (Raise e', w') /\
    committed (db w') = committed (db w) /\
    sent w' = sent w ++ List.map (InsertInto tbl) (List.firstn n data).
Proof.
  intros Ht Hdata Hnth Hbad.
  unfold data_insertion.insertion. rewrite Hdata, bind_lift, bind_print1.
  destruct (executemany_refused tbl data_insertion.insert_columns data i
              (says [Line "Inserting {} records..." [AInt (len data)]] w) t vals e)
    as (e' & w' & n & Hrun & Hc & _ & _ & Hs); try assumption.
  exists e', w', n. split; [|split; assumption].
  unfold bind at 1. now rewrite Hrun.
Qed.

(** C1.  Batch insertion is atomic.  The connection has no pending change
    and the table exists; the frame converts to parameter tuples, and the
    store refuses the tuple at position [i] (offered with the id the sequence
    gives it when the tuples before it went in).  Then [insert_student_data]
    returns [False], the committed catalog is what it was, the open
    transaction is rolled back to it, the table has the row count it had
    before the attempt, and no [COMMIT] was sent. *)
Theorem batch_insertion_is_atomic (df : list Clean.row) (table_name : string)
  (w : world) (t : table) (data : list (list sqlval)) (i : nat) (vals : list sqlval)
  (e : exn) :
  working (db w) = committed (db w) ->
  working (db w) !! table_name = Some t ->
  traverse data_insertion.record_data df = Ok data ->
  nth_error data i = Some vals ->
  store_insert (tbl_columns t) data_insertion.insert_columns vals
               (next_id w table_name + Z.of_nat i) (now (db w)) = Raise e ->
  exists w' stmts,
    data_insertion.insert_student_data df table_name w = (Ok false, w') /\
    committed (db w') = committed (db w) /\
    working (db w') = committed (db w) /\
    row_count w' table_name = row_count w table_name /\
    sent w' = sent w ++ stmts /\ ~ In Commit stmts.
Proof.
  intros Hclean Ht Hdata Hnth Hbad.
  assert (Hfail : forall w0, db w0 = db w ->
            exists w' stmts,
              try_except (data_insertion.insertion df table_name)
                         data_insertion.insertion_failed w0 = (Ok false, w') /\
              committed (db w') = committed (db w) /\
              working (db w') = committed (db w) /\
              sent w' = sent w0 ++ stmts /\ ~ In Commit stmts).
  { intros w0 Hdb.
    destruct (insertion_refused df table_name w0 t data i vals e)
      as (e' & w1 & n & Hrun & Hc & Hs); try (rewrite ?Hdb; assumption).
    { unfold next_id. rewrite Hdb. exact Hbad. }
    destruct (insertion_failed_run e' w1) as (l & Hh).
    eexists. exists (List.map (InsertInto table_name) (List.firstn n data) ++ [Rollback]).
    unfold try_except. rewrite Hrun, Hh. split; [reflexivity|].
    cbn [db committed working sent]. rewrite Hc, Hdb, Hs, app_assoc.
    repeat split. intros Hin. apply List.in_app_iff in Hin as [Hin|[Hin|[]]].
    - apply List.in_map_iff in Hin as (? & ? & _). discriminate.
    - discriminate. }
  unfold data_insertion.insert_student_data. rewrite bind_print1.
  unfold try_except at 1.
  rewrite bind_select_count with (t := t) by exact Ht.
  set (w1 := note (SelectCount table_name) _).
  assert (Hrc : forall w', working (db w') = committed (db w) ->
                           row_count w' table_name = row_count w table_name).
  { intros w' Hw'. unfold row_count. now rewrite Hw', Hclean. }
  destruct (0 <? len (tbl_rows t)) eqn:Hcount.
  - rewrite bind_print1. unfold bind at 1, input at 1.
    destruct (stdin (says _ w1)) as [|answer rest] eqn:Hin.
    + destruct (insertion_failed_run EOFError
                  {| db := db (says [Line "Table already contains {} records"
                                          [AInt (len (tbl_rows t))]] w1);
                     sent := sent (says [Line "Table already contains {} records"
                                              [AInt (len (tbl_rows t))]] w1);
                     stdin := [];
                     stdout := stdout (says [Line "Table already contains {} records"
                                                  [AInt (len (tbl_rows t))]] w1) ++
                               [Line "Do you want to proceed with insertion anyway? (y/n): " []] |})
        as (l & Hh).
      rewrite Hh. eexists. exists [SelectCount table_name; Rollback].
      split; [reflexivity|]. cbn. rewrite <- app_assoc.
      repeat split; auto. intros [H|[H|[]]]; discriminate.
    + cbv zeta. destruct (String.eqb (strip (lower answer)) "y") eqn:Hy; cbn [negb].
      * match goal with
        | |- context [data_insertion.insertion df table_name ?w0] =>
            destruct (Hfail w0 eq_refl) as (w' & stmts & Hrun & Hc & Hw & Hs & Hn)
        end.
        unfold try_except in Hrun.
        destruct (data_insertion.insertion df table_name _) as [[b|e0] w2] eqn:E.
        -- injection Hrun as -> <-. exists w2, (SelectCount table_name :: stmts).
           repeat split; auto.
           ++ rewrite Hs. cbn. now rewrite <- app_assoc.
           ++ intros [H|H]; [discriminate | contradiction].
        -- rewrite Hrun. exists w', (SelectCount table_name :: stmts).
           repeat split; auto.
           ++ rewrite Hs. cbn. now rewrite <- app_assoc.
           ++ intros [H|H]; [discriminate | contradiction].
      * rewrite bind_print1. eexists. exists [SelectCount table_name].
        split; [reflexivity|]. cbn.
        repeat split; auto. intros [H|[]]; discriminate.
  - destruct (Hfail w1 eq_refl) as (w' & stmts & Hrun & Hc & Hw & Hs & Hn).
    unfold try_except in Hrun.
    destruct (data_insertion.insertion df table_name w1) as [[b|e0] w2] eqn:E.
    + injection Hrun as -> <-. exists w2, (SelectCount table_name :: stmts).
      repeat split; auto.
      * rewrite Hs. cbn. now rewrite <- app_assoc.
      * intros [H|H]; [discriminate | contradiction].
    + rewrite Hrun. exists w', (SelectCount table_name :: stmts).
      repeat split; auto.
      * rewrite Hs. cbn. now rewrite <- app_assoc.
      * intros [H|H]; [discriminate | contradiction].
Qed.

Lemma bind_input {B} prompt (k : string -> M B) w answer rest :
  stdin w = answer :: rest ->
  bind (input prompt) k w =
    k answer {| db := db w; sent := sent w; stdin := rest;
                stdout := stdout w ++ [Line prompt []] |}.
Proof. intros H. unfold bind, input. now rewrite H. Qed.

(** C3, as the code has it.  The table holds at least one row and the
    operator's answer, lowercased and stripped, is not [y].  Then
    [insert_student_data] returns [False]; the only statement sent is the row
    count query (no [INSERT], no [COMMIT], no [ROLLBACK]), the server is left
    as it was, so the row count is unchanged, and the console shows the
    prompt and the cancellation.  The row count query is a statement like
    any other: a transaction is open when the function returns. *)
Theorem reinsertion_refused (df : list Clean.row) (table_name : string) (w : world)
  (t : table) (answer : string) (rest : list string) :
  working (db w) !! table_name = Some t ->
  tbl_rows t <> [] ->
  stdin w = answer :: rest ->
  strip (lower answer) <> "y" ->
  exists w',
    data_insertion.insert_student_data df table_name w = (Ok false, w') /\
    w' = {| db := db w;
            sent := sent w ++ [SelectCount table_name];
            stdin := rest;
            stdout := stdout w ++
              [Line "=== Inserting Data into Table '{}' ===" [AStr table_name];
               Line "Table already contains {} records" [AInt (len (tbl_rows t))];
               Line "Do you want to proceed with insertion anyway? (y/n): " [];
               Line "Data insertion cancelled by user" []] |} /\
    row_count w' table_name = row_count w table_name /\
    transaction_open w' = true.
Proof.
  intros Ht Hrows Hin Hno.
  eexists. split; [|split; [reflexivity|]].
  - unfold data_insertion.insert_student_data. rewrite bind_print1.
    unfold try_except.
    rewrite bind_select_count with (t := t) by exact Ht.
    rewrite (len_pos _ Hrows), bind_print1.
    erewrite bind_input by (cbn; exact Hin).
    cbv zeta. apply String.eqb_neq in Hno. rewrite Hno. cbn [negb].
    rewrite bind_print1. unfold says, ret. cbn. rewrite <- !app_assoc. reflexivity.
  - split; [reflexivity|].
    unfold transaction_open. cbn [sent]. now rewrite List.rev_app_distr.
Qed.

End Runs.

(** C1 on a batch whose second record has age 0, which [CHECK (age > 0)]
    refuses after the first record went into the open transaction. *)
Lemma batch_insertion_is_atomic_witness :
  exists w' stmts,
    data_insertion.insert_student_data Sample.spoiled "students" Sample.created = (Ok false, w') /\
    committed (db w') = committed (db Sample.created) /\
    working (db w') = committed (db Sample.created) /\
    row_count w' "students" = row_count Sample.created "students" /\
    sent w' = sent Sample.created ++ stmts /\ ~ In Commit stmts.
Proof.
  apply (batch_insertion_is_atomic Sample.spoiled "students" Sample.created
           (Table database_setup.create_table_sql [])
           [[VText "Ann Lee"; VText "Ann"; VText "Lee"; VInt 19; VNum 6; VText "f"; VNull];
            [VText "Max Low"; VText "Max"; VText "Low"; VInt 0; VNum 7; VText "m"; VNull];
            [VText "Cal Roe"; VText "Cal"; VText "Roe"; VInt 27; VNum 8; VText "m"; VNull]]
           1 [VText "Max Low"; VText "Max"; VText "Low"; VInt 0; VNum 7; VText "m"; VNull]
           (PgError (CheckViolation "age")));
    vm_compute; reflexivity.
Defined.

(** C3 on the loaded table, the operator answering [n]. *)
Lemma reinsertion_refused_witness :
  exists w',
    data_insertion.insert_student_data Sample.batch "students"
      (Sample.with_input ["n"] Sample.loaded) = (Ok false, w') /\
    w' = {| db := db Sample.loaded;
            sent := sent Sample.loaded ++ [SelectCount "students"];
            stdin := [];
            stdout := stdout Sample.loaded ++
              [Line "=== Inserting Data into Table '{}' ===" [AStr "students"];
               Line "Table already contains {} records" [AInt 3];
               Line "Do you want to proceed with insertion anyway? (y/n): " [];
               Line "Data insertion cancelled by user" []] |} /\
    row_count w' "students" = Some 3 /\
    transaction_open w' = true.
Proof.
  refine (reinsertion_refused Sample.batch "students"
            (Sample.with_input ["n"] Sample.loaded)
            (Table database_setup.create_table_sql (Sample.stored Sample.loaded))
            "n" [] _ _ _ _).
  - vm_compute. reflexivity.
  - vm_compute. discriminate.
  - vm_compute. reflexivity.
  - vm_compute. discriminate.
Defined.

(** C3 as worded fails: on a new connection to the server with the loaded
    table no transaction is open; the operator declines, the insertion is
    refused, and a transaction is open, which the row count query began. *)
Lemma reinsertion_opens_transaction :
  row_count (Sample.reconnected Sample.loaded) "students" = Some 3 /\
  transaction_open (Sample.with_input ["n"] (Sample.reconnected Sample.loaded)) = false /\
  fst (data_insertion.insert_student_data Sample.batch "students"
         (Sample.with_input ["n"] (Sample.reconnected Sample.loaded))) = Ok false /\
  sent (snd (data_insertion.insert_student_data Sample.batch "students"
               (Sample.with_input ["n"] (Sample.reconnected Sample.loaded))))
    = [SelectCount "students"] /\
  transaction_open
    (snd (data_insertion.insert_student_data Sample.batch "students"
            (Sample.with_input ["n"] (Sample.reconnected Sample.loaded)))) = true.
Proof. repeat split; vm_compute; reflexivity. Qed.

(** The answer of the operator is stripped of the white space of Unicode:
    [Y] followed by a no-break space is a yes. *)
Lemma strip_no_break_space :
  strip (lower (String "Y" (String (ascii_of_nat 194) (String (ascii_of_nat 160) ""))))
  = "y".
Proof. vm_compute. reflexivity. Qed.

(** ** The students table *)

(** *** Texts and their characters *)












Ltac crunch :=
  cbn -[in_int32 in_int64 fit_text numeric_round rtrim Z.compare Qcompare inject_Z
        existsb Z.lt Qle].

Section Schema.

Context {rt : Runtime}.

Lemma insert_columns_known :
  forallb (fun c => existsb (String.eqb c)
                      (List.map column_name database_setup.create_table_sql))
          data_insertion.insert_columns = true.
Proof. reflexivity. Qed.

Lemma gender_in_list s :
  existsb (String.eqb s) ["m"; "f"] = true <-> s = "m" \/ s = "f".
Proof.
  simpl. rewrite !Bool.orb_true_iff, !String.eqb_eq. intuition discriminate.
Qed.

Lemma Qcompare_not_lt (x y : Q) : (x ?= y)%Q <> Lt -> (y <= x)%Q.
Proof.
  intros H. apply Qle_alt. rewrite <- Qcompare_antisym.
  destruct (x ?= y)%Q; simpl; congruence.
Qed.



Lemma students_checks seq n f l a m g p ts :
  check_constraints database_setup.create_table_sql (candidate seq n f l a m g p ts)
    = Ok tt <->
  0 < a /\ (0 <= m /\ m <= 10)%Q /\ (g = "m" \/ g = "f").
Proof.
  unfold database_setup.create_table_sql, candidate. crunch.
  rewrite <- gender_in_list.
  split.
  - destruct (a ?= 0) eqn:Ea; cbv beta iota; try discriminate.
    destruct (m ?= inject_Z 0)%Q eqn:E0; cbv beta iota; try discriminate;
      destruct (m ?= inject_Z 10)%Q eqn:E10; cbv beta iota; try discriminate;
      destruct (existsb (String.eqb g) ["m"; "f"]); cbv beta iota; try discriminate;
      intros _;
      (split; [apply Z.compare_gt_iff in Ea; lia|]);
      (split; [|reflexivity]);
      (split; [apply (Qcompare_not_lt m (inject_Z 0)); congruence
              | apply Qle_alt; change (10:Q) with (inject_Z 10); congruence]).
  - intros (Ha & [Hm0 Hm10] & Hg).
    apply Z.compare_gt_iff in Ha. rewrite Ha.
    assert (E0 : (m ?= inject_Z 0)%Q <> Lt).
    { intros E. apply Qlt_alt in E. change (inject_Z 0) with (0:Q) in E.
      apply Qle_not_lt in Hm0. contradiction. }
    assert (E10 : (m ?= inject_Z 10)%Q <> Gt) by (apply Qle_alt; exact Hm10).
    rewrite Hg.
    destruct (m ?= inject_Z 0)%Q; try congruence;
      destruct (m ?= inject_Z 10)%Q; try congruence; reflexivity.
Qed.



Lemma assign_columns_shape ddl given seq ts :
  forall cand,
    assign_columns ddl given seq ts = Ok cand ->
    Forall2 (fun c kv =>
               fst kv = column_name c /\
               coerce (data_type c)
                      (match assoc (column_name c) given with
                       | Some v => v
                       | None => default_of c seq ts
                       end) = Some (snd kv)) ddl cand.
Proof.
  induction ddl as [|c ddl IH]; simpl; intros cand H.
  - injection H as <-. constructor.
  - destruct (coerce _ _) as [v'|] eqn:Ec; [|discriminate].
    destruct (assign_columns ddl given seq ts) as [cand'|e]; [|discriminate].
    injection H as <-. constructor; [split; [reflexivity | exact Ec] | now apply IH].
Qed.






End Schema.



(** The lengths of the text columns count characters: a first name of
    thirty accented letters takes sixty bytes and goes into [VARCHAR(50)]. *)
Lemma students_table_counts_characters :
  String.length Sample.accented_name = 60%nat /\
  char_length Sample.accented_name = 30%nat /\
  store_insert database_setup.create_table_sql data_insertion.insert_columns
               (student_values "Zoe" Sample.accented_name "Zoe" 20 6 "f" None) 1 0
  = Ok (Db.Row 1 "Zoe" Sample.accented_name "Zoe" 20 6 "f" None 0).
Proof. repeat split; vm_compute; reflexivity. Qed.

(** ** Computations that only read *)

Lemma only_reads_refl w : only_reads w w.
Proof.
  repeat split; [exists [] | exists []]; rewrite ?app_nil_r; auto.
Qed.

Lemma only_reads_trans w1 w2 w3 : only_reads w1 w2 -> only_reads w2 w3 -> only_reads w1 w3.
Proof.
  intros (Hd & Hi & (o & Ho) & (s & Hs & Hq)) (Hd' & Hi' & (o' & Ho') & (s' & Hs' & Hq')).
  repeat split; try congruence.
  - exists (o ++ o'). rewrite Ho', Ho. now rewrite app_assoc.
  - exists (s ++ s'). split; [rewrite Hs', Hs; now rewrite app_assoc|].
    apply List.Forall_app. now split.
Qed.

Lemma only_reads_says out w : only_reads w (says out w).
Proof.
  repeat split; [exists out | exists []]; rewrite ?app_nil_r; auto.
Qed.

Lemma reads_ret {A} (a : A) : reads (ret a).
Proof. intros w. exists a, w. split; [reflexivity | apply only_reads_refl]. Qed.

Lemma reads_print t a : reads (print t a).
Proof. intros w. exists tt, (says [Line t a] w). split; [reflexivity | apply only_reads_says]. Qed.

Lemma reads_bind {A B} (m : M A) (k : A -> M B) :
  reads m -> (forall a, reads (k a)) -> reads (bind m k).
Proof.
  intros Hm Hk w. destruct (Hm w) as (a & w1 & E1 & R1).
  destruct (Hk a w1) as (b & w2 & E2 & R2).
  exists b, w2. split; [unfold bind; now rewrite E1 | eapply only_reads_trans; eauto].
Qed.

Lemma reads_for_loop {A S} (l : list A) (body : A -> S -> M S) :
  (forall a s, reads (body a s)) -> forall s, reads (for_loop l body s).
Proof.
  intros Hb. induction l as [|a l IH]; intros s; simpl.
  - apply reads_ret.
  - apply reads_bind; [apply Hb | intros s'; apply IH].
Qed.

Lemma raises_of_reads {A} (m : M A) : reads m -> reads_or_raises m.
Proof. intros H w. destruct (H w) as (a & w' & E & R). eauto. Qed.

Lemma raises_bind {A B} (m : M A) (k : A -> M B) :
  reads_or_raises m -> (forall a, reads_or_raises (k a)) -> reads_or_raises (bind m k).
Proof.
  intros Hm Hk w. destruct (Hm w) as ([a|e] & w1 & E1 & R1).
  - destruct (Hk a w1) as (r & w2 & E2 & R2).
    exists r, w2. split; [unfold bind; now rewrite E1 | eapply only_reads_trans; eauto].
  - exists (Raise e), w1. split; [unfold bind; now rewrite E1 | assumption].
Qed.

Lemma reads_try_except {A} (m : M A) (h : exn -> M A) :
  reads_or_raises m -> (forall e, reads (h e)) -> reads (try_except m h).
Proof.
  intros Hm Hh w. destruct (Hm w) as ([a|e] & w1 & E1 & R1).
  - exists a, w1. split; [unfold try_except; now rewrite E1 | assumption].
  - destruct (Hh e w1) as (a & w2 & E2 & R2).
    exists a, w2. split; [unfold try_except; now rewrite E1 | eapply only_reads_trans; eauto].
Qed.

(** ** Verification after the commit *)

Section Verification.

Context {rt : Runtime}.

Lemma only_reads_note s w : is_query s -> only_reads w (note s w).
Proof.
  intros H. repeat split; [exists [] | exists [s]]; rewrite ?app_nil_r; auto.
Qed.

Lemma raises_select_count tbl : reads_or_raises (select_count tbl).
Proof.
  intros w. unfold select_count. cbn.
  destruct (working (db w) !! tbl); eexists; eexists; (split; [reflexivity|]);
    apply only_reads_note; exact I.
Qed.

Lemma raises_select {A} what tbl (q : list Db.row -> A) : reads_or_raises (select what tbl q).
Proof.
  intros w. unfold select. cbn.
  destruct (working (db w) !! tbl); eexists; eexists; (split; [reflexivity|]);
    apply only_reads_note; exact I.
Qed.

Lemma reads_select_columns tbl : reads (select_columns tbl).
Proof.
  intros w. unfold select_columns. eexists; eexists. split; [reflexivity|].
  apply only_reads_note. exact I.
Qed.

Lemma check_null_fields_reads table_name :
  reads_or_raises (data_insertion.check_null_fields table_name).
Proof.
  unfold data_insertion.check_null_fields.
  apply raises_bind; [apply raises_select|]. intros counts.
  apply raises_bind.
  { apply raises_of_reads, reads_for_loop. intros [field [[|n|n]|]] s;
      (apply reads_bind; [apply reads_print | intros _; apply reads_ret]). }
  intros passed.
  apply raises_bind; [apply raises_select|]. intros sample.
  apply raises_bind; [apply raises_of_reads, reads_print|]. intros _.
  apply raises_bind; [apply raises_of_reads, reads_select_columns|]. intros cols.
  apply raises_bind.
  { apply raises_of_reads, reads_for_loop. intros [i record] s. apply reads_print. }
  intros _. apply raises_of_reads, reads_ret.
Qed.

Lemma verification_error_reads e : reads (data_insertion.verification_error e).
Proof.
  destruct e; (apply reads_bind; [apply reads_print | intros _; apply reads_ret]).
Qed.

Lemma verify_reads table_name expected_count :
  reads (data_insertion.verify_insertion_success table_name expected_count).
Proof.
  unfold data_insertion.verify_insertion_success.
  apply reads_bind; [apply reads_print|]. intros _.
  apply reads_try_except; [|apply verification_error_reads].
  apply raises_bind; [apply raises_select_count|]. intros actual.
  apply raises_bind; [apply raises_of_reads, reads_print|]. intros _.
  apply raises_bind; [apply raises_of_reads, reads_print|]. intros _.
  destruct (expected_count <=? actual).
  - apply raises_bind; [apply raises_of_reads, reads_print|]. intros _.
    apply check_null_fields_reads.
  - apply raises_bind; [apply raises_of_reads, reads_print|]. intros _.
    apply raises_of_reads, reads_ret.
Qed.

Lemma close_run w :
  close w = (Ok tt, {| db := {| committed := committed (db w); working := committed (db w);
                                sequences := sequences (db w); now := now (db w) |};
                       sent := sent w ++ [Close]; stdin := stdin w; stdout := stdout w |}).
Proof. reflexivity. Qed.

End Verification.

(** C8 as worded fails: a second batch of three goes into the table of
    three.  The count before the batch plus the inserted records is 6, but
    [main] passes the batch size, so 3 is expected, 6 is found, and the count
    is reported as verified although the two differ. *)
Lemma verification_expects_batch_size :
  row_count Sample.loaded "students" = Some 3 /\
  len Sample.batch = 3 /\
  Spec.expected_count 3 (len Sample.batch) = 6 /\
  fst Sample.second_run = Ok 0 /\
  row_count (snd Sample.second_run) "students" = Some 6 /\
  printed "Expected records: {}" (snd Sample.second_run) = [[AInt 3]] /\
  printed "Actual records: {}" (snd Sample.second_run) = [[AInt 6]] /\
  printed "Record count verification passed" (snd Sample.second_run) = [[]] /\
  printed "Record count verification failed" (snd Sample.second_run) = [].
Proof. repeat split; vm_compute; reflexivity. Qed.

(** ** Grouping *)

Section Grouping.

Context {A : Type} (key : A -> string).

Lemma add_to_group_keys k (r : A) groups :
  List.map fst (add_to_group k r groups) =
  if existsb (String.eqb k) (List.map fst groups)
  then List.map fst groups
  else List.map fst groups ++ [k].
Proof.
  induction groups as [|[k' rs] groups IH]; simpl; [reflexivity|].
  destruct (String.eqb k k'); simpl; [reflexivity|].
  rewrite IH. destruct (existsb _ _); reflexivity.
Qed.

Lemma add_to_group_group_of k (r : A) groups k' :
  group_of k' (add_to_group k r groups) =
  if String.eqb k' k then group_of k groups ++ [r] else group_of k' groups.
Proof.
  induction groups as [|[k0 rs] groups IH]; simpl.
  - destruct (String.eqb k' k); reflexivity.
  - destruct (String.eqb_spec k k0) as [E|Hne]; simpl.
    + destruct (String.eqb_spec k' k0) as [E'|Hne'].
      * rewrite E, E', String.eqb_refl. reflexivity.
      * destruct (String.eqb_spec k' k); [congruence | reflexivity].
    + destruct (String.eqb_spec k' k0) as [E'|Hne'].
      * destruct (String.eqb_spec k' k); [congruence | reflexivity].
      * exact IH.
Qed.

Lemma existsb_eqb_In k (l : list string) : existsb (String.eqb k) l = true <-> In k l.
Proof.
  rewrite List.existsb_exists. split.
  - intros (x & Hx & E). apply String.eqb_eq in E. now subst.
  - intros H. exists k. split; [assumption | apply String.eqb_refl].
Qed.

Lemma add_to_group_nodup k (r : A) groups :
  List.NoDup (List.map fst groups) -> List.NoDup (List.map fst (add_to_group k r groups)).
Proof.
  intros H. rewrite add_to_group_keys.
  destruct (existsb (String.eqb k) (List.map fst groups)) eqn:E; [assumption|].
  apply List.NoDup_app.
  - assumption.
  - constructor; [simpl; tauto | constructor].
  - intros x Hx [<-|[]]. apply existsb_eqb_In in Hx. congruence.
Qed.

Lemma fold_groups (rows : list A) :
  forall acc,
    List.NoDup (List.map fst acc) ->
    let groups := List.fold_left (fun g r => add_to_group (key r) r g) rows acc in
    List.NoDup (List.map fst groups) /\
    (forall k, group_of k groups =
               group_of k acc ++ List.filter (fun r => String.eqb (key r) k) rows) /\
    (forall k, In k (List.map fst groups) <->
               In k (List.map fst acc) \/ exists r, In r rows /\ key r = k).
Proof.
  induction rows as [|r rows IH]; intros acc Hnd; simpl.
  - repeat split; auto.
    + intros k. now rewrite app_nil_r.
    + intros [H|(r & [] & _)]; assumption.
  - destruct (IH (add_to_group (key r) r acc) (add_to_group_nodup _ _ _ Hnd))
      as (H1 & H2 & H3).
    split; [exact H1|]. split.
    + intros k. rewrite H2, add_to_group_group_of.
      rewrite (String.eqb_sym (key r) k).
      destruct (String.eqb_spec k (key r)) as [->|Hne]; simpl.
      * now rewrite <- app_assoc.
      * reflexivity.
    + intros k. rewrite H3, add_to_group_keys.
      destruct (existsb (String.eqb (key r)) (List.map fst acc)) eqn:E.
      * apply existsb_eqb_In in E. split.
        -- intros [H|(r' & Hr' & Hk)]; [now left | right; eauto].
        -- intros [H|(r' & [<-|Hr'] & Hk)]; [now left | subst; now left | right; eauto].
      * rewrite List.in_app_iff. simpl. split.
        -- intros [[H|[<-|[]]]|(r' & Hr' & Hk)]; [now left | right; eauto | right; eauto].
        -- intros [H|(r' & [<-|Hr'] & Hk)]; [now left; left | left; right; now left | right; eauto].
Qed.

Lemma group_of_In k (rs : list A) groups :
  List.NoDup (List.map fst groups) -> In (k, rs) groups -> group_of k groups = rs.
Proof.
  induction groups as [|[k' rs'] groups IH]; simpl; [tauto|].
  intros Hnd [[= -> ->]|Hin].
  - now rewrite String.eqb_refl.
  - inversion Hnd as [|? ? Hni Hnd']; subst.
    destruct (String.eqb_spec k k') as [->|Hne].
    + exfalso. apply Hni. apply List.in_map_iff. exists (k', rs). now split.
    + now apply IH.
Qed.

(** The groups of [GROUP BY]: one per key that occurs, holding the rows with
    that key in table order. *)
Lemma group_by_spec (rows : list A) :
  List.NoDup (List.map fst (group_by key rows)) /\
  (forall k rs, In (k, rs) (group_by key rows) ->
                rs = List.filter (fun r => String.eqb (key r) k) rows /\ rs <> []) /\
  (forall k, In k (List.map fst (group_by key rows)) <-> exists r, In r rows /\ key r = k).
Proof.
  destruct (fold_groups rows [] (List.NoDup_nil _)) as (H1 & H2 & H3).
  fold (group_by key rows) in H1, H2, H3. simpl in H2, H3.
  split; [exact H1|]. split.
  - intros k rs Hin.
    assert (E : rs = List.filter (fun r => String.eqb (key r) k) rows).
    { rewrite <- H2. symmetry. now apply group_of_In. }
    split; [exact E|].
    assert (Hk : In k (List.map fst (group_by key rows))).
    { apply List.in_map_iff. exists (k, rs). now split. }
    apply H3 in Hk as [[]|(r & Hr & Hkr)].
    intros Hnil. rewrite Hnil in E.
    assert (In r (List.filter (fun r => String.eqb (key r) k) rows)).
    { apply List.filter_In. split; [assumption|]. subst. apply String.eqb_refl. }
    rewrite <- E in H. contradiction.
  - intros k. rewrite H3. tauto.
Qed.

End Grouping.

(** ** Ordering *)

Section Ordering.

Context {A : Type} (le : A -> A -> bool).

Hypothesis le_total : forall a b, le a b = true \/ le b a = true.

Hypothesis le_trans : forall a b c, le a b = true -> le b c = true -> le a c = true.

Lemma insert_sorted_perm x l : Permutation (insert_sorted le x l) (x :: l).
Proof.
  induction l as [|y l IH]; simpl; [reflexivity|].
  destruct (le x y); [reflexivity|].
  rewrite IH. apply perm_swap.
Qed.

Lemma order_by_perm l : Permutation (order_by le l) l.
Proof.
  induction l as [|x l IH]; simpl; [constructor|].
  unfold order_by in *. simpl. rewrite insert_sorted_perm. now constructor.
Qed.

Lemma insert_sorted_sorted x l :
  StronglySorted (fun a b => le a b = true) l ->
  StronglySorted (fun a b => le a b = true) (insert_sorted le x l).
Proof.
  induction 1 as [|y l Hs IH Hall]; simpl.
  - repeat constructor.
  - destruct (le x y) eqn:E.
    + constructor; [now constructor|].
      constructor; [exact E|].
      eapply List.Forall_impl; [|exact Hall]. intros z Hz. eapply le_trans; eauto.
    + constructor; [exact IH|].
      assert (Hyx : le y x = true) by (destruct (le_total x y); congruence).
      eapply Permutation_Forall; [symmetry; apply insert_sorted_perm|].
      constructor; assumption.
Qed.

Lemma order_by_sorted l : StronglySorted (fun a b => le a b = true) (order_by le l).
Proof.
  induction l as [|x l IH]; simpl; [constructor|].
  now apply insert_sorted_sorted.
Qed.

End Ordering.

(** ** Strings in order *)

Lemma leb_cases a b : String.leb a b = true <-> a = b \/ String_as_OT.lt a b.
Proof.
  unfold String.leb. rewrite <- String_as_OT.cmp_lt, <- String_as_OT.cmp_eq.
  unfold String_as_OT.cmp. destruct (String.compare a b); intuition discriminate.
Qed.

Lemma leb_trans a b c :
  String.leb a b = true -> String.leb b c = true -> String.leb a c = true.
Proof.
  rewrite !leb_cases. intros [->|H1] [->|H2]; auto.
  right. eapply String_as_OT.lt_trans; eauto.
Qed.

Lemma ltb_of_leb a b : String.leb a b = true -> a <> b -> String.ltb a b = true.
Proof.
  unfold String.leb, String.ltb. intros H Hne.
  destruct (String.compare a b) eqn:E; try discriminate; [|reflexivity].
  apply String.compare_eq_iff in E. contradiction.
Qed.

Lemma strictly_sorted {A} (key : A -> string) (l : list A) :
  StronglySorted (fun a b => String.leb (key a) (key b) = true) l ->
  List.NoDup (List.map key l) ->
  StronglySorted (fun a b => String.ltb (key a) (key b) = true) l.
Proof.
  induction 1 as [|x l Hs IH Hall]; simpl; intros Hnd; constructor.
  - apply IH. now inversion Hnd.
  - inversion Hnd as [|? ? Hni _]; subst.
    rewrite List.Forall_forall in *. intros y Hy.
    apply ltb_of_leb; [now apply Hall|].
    intros E. apply Hni. rewrite E. now apply List.in_map.
Qed.

(** ** Aggregates *)

Lemma fold_min_spec l : forall x,
  let m := List.fold_left Qmin_of l x in
  In m (x :: l) /\ Forall (fun y => (m <= y)%Q) (x :: l).
Proof.
  induction l as [|y l IH]; intros x; simpl.
  - split; [now left | constructor; [apply Qle_refl | constructor]].
  - destruct (IH (Qmin_of x y)) as [Hin Hall]. simpl in Hin.
    inversion Hall as [|? ? Hm Hl]; subst.
    assert (Hxy : (Qmin_of x y <= x)%Q /\ (Qmin_of x y <= y)%Q /\
                  (Qmin_of x y = x \/ Qmin_of x y = y)).
    { unfold Qmin_of. destruct (Qle_bool x y) eqn:E.
      - apply Qle_bool_iff in E. repeat split; auto. apply Qle_refl.
      - assert (~ (x <= y)%Q) by (rewrite <- Qle_bool_iff; congruence).
        apply Qnot_le_lt, Qlt_le_weak in H. repeat split; auto. apply Qle_refl. }
    destruct Hxy as (Hx & Hy & Hc). split.
    + destruct Hin as [E|Hin]; [|right; now right].
      rewrite <- E. destruct Hc as [->| ->]; [now left | right; now left].
    + constructor; [eapply Qle_trans; eauto|].
      constructor; [eapply Qle_trans; eauto | assumption].
Qed.

Lemma fold_max_spec l : forall x,
  let m := List.fold_left Qmax_of l x in
  In m (x :: l) /\ Forall (fun y => (y <= m)%Q) (x :: l).
Proof.
  induction l as [|y l IH]; intros x; simpl.
  - split; [now left | constructor; [apply Qle_refl | constructor]].
  - destruct (IH (Qmax_of x y)) as [Hin Hall]. simpl in Hin.
    inversion Hall as [|? ? Hm Hl]; subst.
    assert (Hxy : (x <= Qmax_of x y)%Q /\ (y <= Qmax_of x y)%Q /\
                  (Qmax_of x y = x \/ Qmax_of x y = y)).
    { unfold Qmax_of. destruct (Qle_bool x y) eqn:E.
      - apply Qle_bool_iff in E. repeat split; auto. apply Qle_refl.
      - assert (~ (x <= y)%Q) by (rewrite <- Qle_bool_iff; congruence).
        apply Qnot_le_lt, Qlt_le_weak in H. repeat split; auto. apply Qle_refl. }
    destruct Hxy as (Hx & Hy & Hc). split.
    + destruct Hin as [E|Hin]; [|right; now right].
      rewrite <- E. destruct Hc as [->| ->]; [now left | right; now left].
    + constructor; [eapply Qle_trans; eauto|].
      constructor; [eapply Qle_trans; eauto | assumption].
Qed.

(** *** The division of the average *)

(** Rounding moves a number by half a unit at most. *)
Lemma round_half_away_close (y : Q) :
  (Qabs (inject_Z (round_half_away y) - y) <= 1 # 2)%Q.
Proof.
  unfold round_half_away.
  destruct (Qle_bool 0 y) eqn:E.
  - pose proof (Qfloor_le (y + (1 # 2))) as H1.
    pose proof (Qlt_floor (y + (1 # 2))) as H2.
    rewrite inject_Z_plus in H2. change (inject_Z 1) with 1%Q in H2.
    apply Qabs_Qle_condition.
    generalize dependent (inject_Z (Qfloor (y + (1 # 2)))). intros f H1 H2.
    split; lra.
  - pose proof (Qfloor_le (- y + (1 # 2))) as H1.
    pose proof (Qlt_floor (- y + (1 # 2))) as H2.
    rewrite inject_Z_plus in H2. change (inject_Z 1) with 1%Q in H2.
    rewrite inject_Z_opp.
    apply Qabs_Qle_condition.
    generalize dependent (inject_Z (Qfloor (- y + (1 # 2)))). intros f H1 H2.
    split; lra.
Qed.

(** The quotient the server gives is the exact one to half a unit of its
    last decimal. *)
Lemma numeric_div_close (x : Q) (n : Z) :
  (Qabs (numeric_div x n - x / inject_Z n) * inject_Z (10 ^ div_scale x n) <= 1 # 2)%Q.
Proof.
  unfold numeric_div. cbv zeta.
  set (u := 10 ^ div_scale x n).
  assert (Hu : 0 < u).
  { apply Z.pow_pos_nonneg. lia. unfold div_scale. lia. }
  set (q := (x / inject_Z n)%Q).
  rewrite Qred_correct.
  pose proof (round_half_away_close (q * inject_Z u)) as H.
  set (r := round_half_away (q * inject_Z u)) in *.
  assert (E : ((r # Z.to_pos u) == inject_Z r / inject_Z u)%Q).
  { rewrite Qmake_Qdiv. now rewrite Z2Pos.id. }
  rewrite E.
  assert (Hq : (0 < inject_Z u)%Q).
  { change 0%Q with (inject_Z 0). now rewrite <- Zlt_Qlt. }
  assert (E2 : (inject_Z r / inject_Z u - q == (inject_Z r - q * inject_Z u) / inject_Z u)%Q).
  { field. lra. }
  rewrite E2. unfold Qdiv. rewrite Qabs_Qmult.
  rewrite (Qabs_pos (/ inject_Z u)) by (apply Qlt_le_weak, Qinv_lt_0_compat; exact Hq).
  rewrite <- Qmult_assoc. rewrite (Qmult_comm (/ inject_Z u)).
  rewrite Qmult_inv_r by lra. now rewrite Qmult_1_r.
Qed.

Lemma weight_above_spec (fuel : nat) : forall x,
  1 <= x -> Z.log2 x <= Z.of_nat fuel ->
  0 <= weight_above fuel x /\
  10000 ^ weight_above fuel x <= x < 10000 ^ (weight_above fuel x + 1).
Proof.
  induction fuel as [|fuel IH]; intros x Hx Hlog; cbn [weight_above].
  - assert (Hx2 : x < 2 ^ 1) by (apply Z.log2_lt_pow2; lia).
    change (2 ^ 1) with 2 in Hx2.
    split; [lia|]. cbn. lia.
  - destruct (Z.ltb_spec x 10000) as [H|H].
    + split; [lia|]. cbn. lia.
    + assert (Hy : 1 <= x / 10000) by (apply Z.div_le_lower_bound; lia).
      assert (Hlogy : Z.log2 (x / 10000) <= Z.of_nat fuel).
      { assert (Hb : x / 10000 < 2 ^ (Z.of_nat fuel + 1)).
        { assert (Hb : x < 2 ^ (Z.of_nat (S fuel) + 1)) by (apply Z.log2_lt_pow2; lia).
          replace (Z.of_nat (S fuel) + 1) with (Z.of_nat fuel + 1 + 1) in Hb by lia.
          rewrite (Z.pow_add_r _ _ 1) in Hb by lia. change (2 ^ 1) with 2 in Hb.
          apply Z.div_lt_upper_bound; lia. }
        apply Z.log2_lt_pow2 in Hb; lia. }
      destruct (IH _ Hy Hlogy) as (Hw & Hlo & Hhi).
      set (w := weight_above fuel (x / 10000)) in *.
      split; [lia|].
      replace (1 + w + 1) with (w + 1 + 1) by lia.
      replace (1 + w) with (w + 1) by lia.
      rewrite !(Z.pow_add_r _ _ 1) in * by lia. change (10000 ^ 1) with 10000 in *.
      pose proof (Z.mul_div_le x 10000 ltac:(lia)).
      pose proof (Z.mul_succ_div_gt x 10000 ltac:(lia)).
      nia.
Qed.

Lemma weight_below_spec (fuel : nat) : forall q : Q,
  (0 < q)%Q -> (q < 1)%Q -> (1 <= q * inject_Z (2 ^ Z.of_nat fuel))%Q ->
  weight_below fuel q <= -1 /\
  (10000 ^ weight_below fuel q <= q)%Q /\ (q < 10000 ^ (weight_below fuel q + 1))%Q.
Proof.
  induction fuel as [|fuel IH]; intros q H0 H1 Hf.
  - change (inject_Z (2 ^ Z.of_nat 0)) with 1%Q in Hf. lra.
  - cbn [weight_below].
    destruct (Qle_bool 1 (q * 10000)) eqn:E.
    + apply Qle_bool_iff in E. split; [lia|].
      change (10000 ^ (-1))%Q with (1 # 10000)%Q. change (10000 ^ (-1 + 1))%Q with 1%Q.
      split; [|exact H1]. lra.
    + assert (E' : (q * 10000 < 1)%Q).
      { apply Qnot_le_lt. rewrite <- Qle_bool_iff. congruence. }
      destruct (IH (q * 10000)%Q) as (Hw & Hlo & Hhi); [lra | lra | |].
      { rewrite Nat2Z.inj_succ, Z.pow_succ_r, inject_Z_mult in Hf by lia.
        assert (0 < inject_Z (2 ^ Z.of_nat fuel))%Q.
        { change 0%Q with (inject_Z 0). rewrite <- Zlt_Qlt. apply Z.pow_pos_nonneg; lia. }
        change (inject_Z 2) with 2%Q in Hf. nra. }
      set (w := weight_below fuel (q * 10000)) in *.
      split; [lia|].
      assert (Hne : ~ (10000 == 0)%Q) by discriminate.
      replace (-1 + w + 1) with (w + 1 + -1) by lia.
      replace (-1 + w) with (w + -1) by lia.
      rewrite !(Qpower_plus _ _ (-1)) by exact Hne.
      change (10000 ^ (-1))%Q with (1 # 10000)%Q.
      split; lra.
Qed.

(** A number lies between the power of 10000 at its weight and the next. *)
Lemma weight_spec (x : Q) :
  (0 < Qabs x)%Q ->
  (10000 ^ weight x <= Qabs x)%Q /\ (Qabs x < 10000 ^ (weight x + 1))%Q.
Proof.
  intros Hpos. unfold weight. cbv zeta. set (a := Qabs x) in *.
  destruct (Qle_bool 1 a) eqn:E1.
  - apply Qle_bool_iff in E1.
    assert (Hf : 1 <= Qfloor a).
    { change 1 with (Qfloor 1). now apply Qfloor_resp_le. }
    destruct (weight_above_spec (Z.to_nat (Z.log2 (Qfloor a))) (Qfloor a) Hf) as (Hw & Hlo & Hhi).
    { rewrite Z2Nat.id; [lia | apply Z.log2_nonneg]. }
    set (w := weight_above _ _) in *.
    rewrite <- !(Zpower_Qpower 10000) by lia.
    split.
    + eapply Qle_trans; [|apply Qfloor_le]. now rewrite <- Zle_Qle.
    + eapply Qlt_le_trans; [apply Qlt_floor|]. rewrite <- Zle_Qle. lia.
  - assert (Hlt : (a < 1)%Q).
    { apply Qnot_le_lt. rewrite <- Qle_bool_iff. congruence. }
    destruct (Qle_bool a 0) eqn:E2.
    { apply Qle_bool_iff in E2. lra. }
    destruct (weight_below_spec (Pos.to_nat (Pos.size (Qden a))) a Hpos Hlt) as (_ & Hlo & Hhi).
    { destruct a as [n d]. cbn [Qden].
      assert (Hn : 1 <= n) by (unfold Qlt in Hpos; cbn in Hpos; lia).
      pose proof (Pos.size_gt d) as Hs.
      rewrite positive_nat_Z.
      unfold Qle, Qmult, inject_Z. cbn [Qnum Qden].
      assert (Z.pos d < 2 ^ Z.pos (Pos.size d)).
      { rewrite <- Pos2Z.inj_pow. lia. }
      nia. }
    split; assumption.
Qed.

Lemma weight_zero (x : Q) : (Qabs x == 0)%Q -> weight x = 0 /\ first_digit x = 0.
Proof.
  intros H. unfold first_digit, weight. cbv zeta.
  assert (E1 : Qle_bool 1 (Qabs x) = false).
  { destruct (Qle_bool 1 (Qabs x)) eqn:E; [|reflexivity]. apply Qle_bool_iff in E. lra. }
  assert (E2 : Qle_bool (Qabs x) 0 = true) by (apply Qle_bool_iff; lra).
  rewrite E1, E2. split; [reflexivity|].
  change (10000 ^ 0)%Q with 1%Q.
  assert (E : (Qabs x / 1 == 0)%Q) by (rewrite H; reflexivity).
  rewrite E. reflexivity.
Qed.

(** The quotient of a sum of marks below 10000 times their count has 16
    decimals or more. *)
Lemma div_scale_16 (x : Q) (n : Z) :
  1 <= n -> (Qabs x < inject_Z (10000 * n))%Q -> 16 <= div_scale x n.
Proof.
  intros Hn Hx.
  assert (Hpn : (0 < Qabs (inject_Z n))%Q).
  { rewrite Qabs_pos; change 0%Q with (inject_Z 0); [rewrite <- Zlt_Qlt | rewrite <- Zle_Qle]; lia. }
  destruct (weight_spec (inject_Z n) Hpn) as (Hnlo & Hnhi).
  rewrite Qabs_pos in Hnlo, Hnhi by (change 0%Q with (inject_Z 0); rewrite <- Zle_Qle; lia).
  assert (Hq : forall q, 16 <= Z.min 1000 (Z.max 0 (Z.max 0 (Z.max 2 (16 - q * 4)))) <-> q <= 0) by lia.
  unfold div_scale. cbv zeta. apply Hq.
  destruct (Qlt_le_dec 0 (Qabs x)) as [Hpos|Hzero].
  - destruct (weight_spec x Hpos) as (Hlo & Hhi).
    assert (Hne : ~ (10000 == 0)%Q) by discriminate.
    assert (Hw : weight x < weight (inject_Z n) + 2).
    { apply (Qpower_lt_compat_l_inv 10000); [|reflexivity].
      eapply Qle_lt_trans; [exact Hlo|]. eapply Qlt_trans; [exact Hx|].
      rewrite inject_Z_mult. change (inject_Z 10000) with 10000%Q.
      replace (weight (inject_Z n) + 2) with (1 + (weight (inject_Z n) + 1)) by lia.
      rewrite Qpower_plus by exact Hne. change (10000 ^ 1)%Q with 10000%Q.
      lra. }
    destruct (Z.eq_dec (weight x) (weight (inject_Z n) + 1)) as [E|E]; [|
      destruct (first_digit x <=? first_digit (inject_Z n)); lia].
    assert (Hfd : first_digit x <= first_digit (inject_Z n)).
    { unfold first_digit. apply Qfloor_resp_le.
      rewrite (Qabs_pos (inject_Z n)) by (change 0%Q with (inject_Z 0); rewrite <- Zle_Qle; lia).
      rewrite E. replace (weight (inject_Z n) + 1) with (1 + weight (inject_Z n)) by lia.
      rewrite Qpower_plus by exact Hne. change (10000 ^ 1)%Q with 10000%Q.
      assert (Hp : (0 < 10000 ^ weight (inject_Z n))%Q) by (apply Qpower_0_lt; reflexivity).
      rewrite inject_Z_mult in Hx. change (inject_Z 10000) with 10000%Q in Hx.
      set (p := (10000 ^ weight (inject_Z n))%Q) in *.
      apply Qle_shift_div_l; [exact Hp|].
      assert (Ex : (Qabs x / (10000 * p) * p == Qabs x / 10000)%Q) by (field; lra).
      rewrite Ex. apply Qle_shift_div_r; [reflexivity|].
      generalize dependent (Qabs x). generalize dependent (inject_Z n). intros. lra. }
    apply Z.leb_le in Hfd. rewrite Hfd. lia.
  - assert (Hz : (Qabs x == 0)%Q) by (pose proof (Qabs_nonneg x); lra).
    destruct (weight_zero x Hz) as [-> ->].
    assert (0 <= weight (inject_Z n)).
    { apply Z.lt_succ_r. apply (Qpower_lt_compat_l_inv 10000); [|reflexivity].
      change (10000 ^ 0)%Q with 1%Q. unfold Z.succ.
      eapply Qle_lt_trans; [|exact Hnhi].
      change 1%Q with (inject_Z 1). rewrite <- Zle_Qle. lia. }
    destruct (0 <=? first_digit (inject_Z n)); lia.
Qed.

Lemma Qsum_bounds (l : list Q) :
  Forall (fun m => (0 <= m /\ m <= 10)%Q) l ->
  (0 <= Qsum l /\ Qsum l <= 10 * inject_Z (len l))%Q.
Proof.
  induction 1 as [|m l [H0 H10] _ [IH0 IH10]].
  - split; vm_compute; discriminate.
  - unfold len in *. cbn [Qsum List.fold_right List.length].
    fold (Qsum l). rewrite Nat2Z.inj_succ. unfold Z.succ. rewrite inject_Z_plus.
    change (inject_Z 1) with 1%Q.
    generalize dependent (inject_Z (Z.of_nat (List.length l))). intros. split; lra.
Qed.

(** The average of marks from 0 to 10 is their exact mean to half a unit of
    the sixteenth decimal. *)
Lemma sql_avg_close (l : list Q) :
  l <> [] ->
  Forall (fun m => (0 <= m /\ m <= 10)%Q) l ->
  (Qabs (numeric_div (Qsum l) (len l) - Qsum l / inject_Z (len l))
   <= 1 # 20000000000000000)%Q.
Proof.
  intros Hne Hall.
  assert (Hn : 1 <= len l).
  { destruct l; [congruence|]. unfold len. cbn [List.length]. lia. }
  destruct (Qsum_bounds l Hall) as [H0 H10].
  assert (Hs : 16 <= div_scale (Qsum l) (len l)).
  { apply div_scale_16; [exact Hn|]. rewrite Qabs_pos by exact H0.
    rewrite inject_Z_mult. change (inject_Z 10000) with 10000%Q.
    assert (1 <= inject_Z (len l))%Q by (change 1%Q with (inject_Z 1); now rewrite <- Zle_Qle).
    generalize dependent (inject_Z (len l)). generalize dependent (Qsum l). intros. lra. }
  pose proof (numeric_div_close (Qsum l) (len l)) as Hc.
  set (d := Qabs _) in *.
  assert (Hd : (0 <= d)%Q) by apply Qabs_nonneg.
  assert (Hu : (inject_Z (10 ^ 16) <= inject_Z (10 ^ div_scale (Qsum l) (len l)))%Q).
  { rewrite <- Zle_Qle. apply Z.pow_le_mono_r; lia. }
  change (inject_Z (10 ^ 16)) with 10000000000000000%Q in Hu.
  generalize dependent (inject_Z (10 ^ div_scale (Qsum l) (len l))). intros u Hc Hu.
  assert (H : (d * 10000000000000000 <= 1 # 2)%Q) by nra.
  lra.
Qed.

(** Over at least one value the aggregates are not NULL: the average is the
    sum divided by the count as the server divides, the minimum and the
    maximum are values of the list that bound it. *)
Lemma aggregates_spec (l : list Q) :
  l <> [] ->
  exists mean lo hi,
    sql_avg l = Some mean /\ sql_min l = Some lo /\ sql_max l = Some hi /\
    mean = numeric_div (Qsum l) (len l) /\
    In lo l /\ Forall (fun y => (lo <= y)%Q) l /\
    In hi l /\ Forall (fun y => (y <= hi)%Q) l.
Proof.
  destruct l as [|x l]; [congruence|]. intros _.
  destruct (fold_min_spec l x) as [Hmin1 Hmin2].
  destruct (fold_max_spec l x) as [Hmax1 Hmax2].
  eexists. eexists. eexists.
  split; [reflexivity|]. split; [reflexivity|]. split; [reflexivity|].
  split; [reflexivity|]. auto.
Qed.

(** ** Performance by gender *)

Lemma runs_ret {A} srv (a : A) : runs srv (ret a) a.
Proof. intros w _. exists w. split; [reflexivity | apply only_reads_refl]. Qed.

Lemma runs_lift {A} srv (a : A) : runs srv (lift (Ok a)) a.
Proof. intros w _. exists w. split; [reflexivity | apply only_reads_refl]. Qed.

Lemma runs_print srv t a : runs srv (print t a) tt.
Proof.
  intros w _. exists (says [Line t a] w). split; [reflexivity | apply only_reads_says].
Qed.

Lemma runs_bind {A B} srv (m : M A) (k : A -> M B) a b :
  runs srv m a -> runs srv (k a) b -> runs srv (bind m k) b.
Proof.
  intros Hm Hk w Hw. destruct (Hm w Hw) as (w1 & E1 & R1).
  destruct (Hk w1) as (w2 & E2 & R2); [destruct R1; congruence|].
  exists w2. split; [unfold bind; now rewrite E1 | eapply only_reads_trans; eauto].
Qed.

Lemma runs_try_except {A} srv (m : M A) h a : runs srv m a -> runs srv (try_except m h) a.
Proof.
  intros Hm w Hw. destruct (Hm w Hw) as (w1 & E1 & R1).
  exists w1. split; [unfold try_except; now rewrite E1 | assumption].
Qed.

Lemma runs_for_loop {A} srv (l : list A) (body : A -> unit -> M unit) :
  Forall (fun a => runs srv (body a tt) tt) l -> runs srv (for_loop l body tt) tt.
Proof.
  induction 1 as [|a l Ha _ IH]; simpl.
  - apply runs_ret.
  - eapply runs_bind; eauto.
Qed.

Section Queries.

Context {rt : Runtime}.

Lemma runs_select {A} srv what tbl (q : list Db.row -> A) t :
  working srv !! tbl = Some t -> runs srv (select what tbl q) (q (tbl_rows t)).
Proof.
  intros Ht w Hw. unfold select. cbn. rewrite Hw, Ht.
  eexists. split; [reflexivity|]. apply only_reads_note. exact I.
Qed.

End Queries.

Lemma above_5_iff r : data_analysis.above_5 r = true <-> (5 < Db.average_mark r)%Q.
Proof.
  unfold data_analysis.above_5, Qlt_bool. rewrite Bool.negb_true_iff.
  split.
  - intros H. apply Qnot_le_lt. rewrite <- Qle_bool_iff. congruence.
  - intros H. apply Qlt_not_le in H. rewrite <- Qle_bool_iff in H.
    destruct (Qle_bool (Db.average_mark r) 5); congruence.
Qed.

Lemma analysis_query_spec (rows : list Db.row) :
  let result := data_analysis.analysis_query rows in
  StronglySorted (fun a b => String.ltb (data_analysis.g_gender a)
                                        (data_analysis.g_gender b) = true) result /\
  (forall g, In g (List.map data_analysis.g_gender result) <->
             exists r, In r rows /\ Db.gender r = g /\ (5 < Db.average_mark r)%Q) /\
  (forall row, In row result ->
     let members := high_performers_of (data_analysis.g_gender row) rows in
     members <> [] /\
     data_analysis.student_count row = len members /\
     data_analysis.avg_mark_in_group row = sql_avg (data_analysis.marks members) /\
     data_analysis.min_mark_in_group row = sql_min (data_analysis.marks members) /\
     data_analysis.max_mark_in_group row = sql_max (data_analysis.marks members)).
Proof.
  unfold data_analysis.analysis_query.
  set (selected := List.filter data_analysis.above_5 rows).
  set (groups := group_by Db.gender selected).
  set (mk := fun g : string * list Db.row => _).
  set (le := fun a b : data_analysis.gender_row =>
              String.leb (data_analysis.g_gender a) (data_analysis.g_gender b)).
  destruct (group_by_spec Db.gender selected) as (Hnd & Hgroups & Hkeys).
  fold groups in Hnd, Hgroups, Hkeys.
  assert (Hperm : Permutation (order_by le (List.map mk groups)) (List.map mk groups))
    by apply order_by_perm.
  assert (Hmap : List.map data_analysis.g_gender (List.map mk groups) = List.map fst groups).
  { rewrite List.map_map. apply List.map_ext. intros [k rs]. reflexivity. }
  cbv zeta. split; [|split].
  - apply strictly_sorted.
    + apply (order_by_sorted le).
      * intros a b. apply String.leb_total.
      * intros a b c. apply leb_trans.
    + eapply Permutation_NoDup; [apply Permutation_map; symmetry; exact Hperm|].
      now rewrite Hmap.
  - intros g. rewrite (Permutation_in' (eq_refl g) (Permutation_map _ Hperm)).
    rewrite Hmap, Hkeys. split.
    + intros (r & Hr & Hg). apply List.filter_In in Hr as [Hr Ha].
      exists r. repeat split; auto. now apply above_5_iff.
    + intros (r & Hr & Hg & Hm). exists r. split; [|assumption].
      apply List.filter_In. split; [assumption | now apply above_5_iff].
  - intros row Hrow.
    apply (Permutation_in _ Hperm) in Hrow.
    apply List.in_map_iff in Hrow as ([k rs] & <- & Hin).
    destruct (Hgroups k rs Hin) as [E Hne].
    unfold high_performers_of. cbn [mk data_analysis.g_gender fst snd
      data_analysis.student_count data_analysis.avg_mark_in_group
      data_analysis.min_mark_in_group data_analysis.max_mark_in_group].
    fold selected. rewrite <- E. repeat split; auto.
Qed.

Section Analysis.

Context {rt : Runtime}.

Lemma results_printable rows srv :
  Forall (fun row =>
    runs srv
      (let gender_label :=
         if String.eqb (data_analysis.g_gender row) "m" then "Male" else "Female" in
       print "  {} students: {} students"
             [AStr gender_label; AInt (data_analysis.student_count row)] ;;;
       mean <- lift (data_analysis.format_2f (data_analysis.avg_mark_in_group row)) ;;
       print "    Average mark in group: {}" [mean] ;;;
       lo <- lift (data_analysis.format_2f (data_analysis.min_mark_in_group row)) ;;
       hi <- lift (data_analysis.format_2f (data_analysis.max_mark_in_group row)) ;;
       print "    Mark range in group: {} to {}" [lo; hi]) tt)
    (data_analysis.analysis_query rows).
Proof.
  apply List.Forall_forall. intros row Hrow.
  destruct (analysis_query_spec rows) as (_ & _ & H).
  destruct (H row Hrow) as (Hne & _ & Ha & Hmin & Hmax).
  assert (Hm : data_analysis.marks (high_performers_of (data_analysis.g_gender row) rows) <> []).
  { unfold data_analysis.marks. intros E. apply List.map_eq_nil in E. contradiction. }
  destruct (aggregates_spec _ Hm) as (mean & lo & hi & E1 & E2 & E3 & _).
  rewrite Ha, Hmin, Hmax, E1, E2, E3. cbv zeta.
  eapply runs_bind; [apply runs_print|].
  eapply runs_bind; [apply runs_lift|].
  eapply runs_bind; [apply runs_print|].
  eapply runs_bind; [apply runs_lift|].
  eapply runs_bind; [apply runs_lift|].
  apply runs_print.
Qed.

Lemma analyze_runs table_name srv t :
  working srv !! table_name = Some t ->
  tbl_rows t <> [] ->
  runs srv (data_analysis.analyze_student_performance_by_gender table_name)
       (Some (data_analysis.analysis_query (tbl_rows t))).
Proof.
  intros Ht Hne.
  unfold data_analysis.analyze_student_performance_by_gender.
  eapply runs_bind; [apply runs_print|].
  apply runs_try_except.
  eapply runs_bind; [apply runs_print|].
  eapply runs_bind; [apply runs_select; exact Ht|].
  assert (Hm : data_analysis.marks (tbl_rows t) <> []).
  { unfold data_analysis.marks. intros E. apply List.map_eq_nil in E. contradiction. }
  destruct (aggregates_spec _ Hm) as (mean & lo & hi & E1 & E2 & E3 & _).
  unfold data_analysis.overview_query. rewrite E1, E2, E3.
  eapply runs_bind; [apply runs_print|].
  eapply runs_bind; [apply runs_print|].
  eapply runs_bind; [apply runs_lift|].
  eapply runs_bind; [apply runs_lift|].
  eapply runs_bind; [apply runs_print|].
  eapply runs_bind; [apply runs_lift|].
  eapply runs_bind; [apply runs_print|].
  eapply runs_bind; [apply runs_print|].
  eapply runs_bind; [apply runs_select; exact Ht|].
  eapply runs_bind; [apply runs_print|].
  eapply runs_bind; [apply runs_for_loop, results_printable|].
  apply runs_ret.
Qed.

End Analysis.

Section Performance.

Context {rt : Runtime}.

(** X20.  On a table with at least one row,
    [analyze_student_performance_by_gender] returns the answer of the analysis
    query and leaves the server as it was.  The answer is in strictly
    ascending order of gender (so no gender occurs twice); a gender occurs in
    it exactly when some row of that gender has a mark above 5.0, the fixed
    threshold; its row carries the number of such rows, their average as the
    server divides (the sum over the count, rounded to the decimals the
    division shows, which leaves it within half a unit of the sixteenth
    decimal of the exact mean when no mark is above 10), and the least and
    the greatest of their marks.  On rows with marks 6, 4, 8 and genders f,
    f, m the answer is f: 1, 6, 6, 6 and m: 1, 8, 8, 8. *)
Theorem performance_by_gender (table_name : string) (w : world) (t : table) :
  working (db w) !! table_name = Some t ->
  tbl_rows t <> [] ->
  let result := data_analysis.analysis_query (tbl_rows t) in
  (exists w',
     data_analysis.analyze_student_performance_by_gender table_name w
       = (Ok (Some result), w') /\
     db w' = db w) /\
  StronglySorted (fun a b => String.ltb (data_analysis.g_gender a)
                                        (data_analysis.g_gender b) = true) result /\
  (forall g, In g (List.map data_analysis.g_gender result) <->
             exists r, In r (tbl_rows t) /\ Db.gender r = g /\
                       (5 < Db.average_mark r)%Q) /\
  (forall row, In row result ->
     let members := data_analysis.marks
                      (high_performers_of (data_analysis.g_gender row) (tbl_rows t)) in
     exists mean lo hi,
       data_analysis.student_count row = len members /\
       data_analysis.avg_mark_in_group row = Some mean /\
       mean = numeric_div (Qsum members) (len members) /\
       (Forall (fun m => (m <= 10)%Q) members ->
        (Qabs (mean - Qsum members / inject_Z (len members))
         <= 1 # 20000000000000000)%Q) /\
       data_analysis.min_mark_in_group row = Some lo /\
       In lo members /\ Forall (fun m => (lo <= m)%Q) members /\
       data_analysis.max_mark_in_group row = Some hi /\
       In hi members /\ Forall (fun m => (m <= hi)%Q) members) /\
  (forall r1 r2 r3,
     Db.average_mark r1 = 6%Q /\ Db.gender r1 = "f" /\
     Db.average_mark r2 = 4%Q /\ Db.gender r2 = "f" /\
     Db.average_mark r3 = 8%Q /\ Db.gender r3 = "m" ->
     data_analysis.analysis_query [r1; r2; r3] =
       [data_analysis.GenderRow "f" 1 (Some 6%Q) (Some 6%Q) (Some 6%Q);
        data_analysis.GenderRow "m" 1 (Some 8%Q) (Some 8%Q) (Some 8%Q)]).
Proof.
  intros Ht Hne result.
  destruct (analysis_query_spec (tbl_rows t)) as (Hsorted & Hkeys & Hrows).
  split; [|split; [exact Hsorted | split; [exact Hkeys | split]]].
  - destruct (analyze_runs table_name (db w) t Ht Hne w eq_refl) as (w' & E & Hdb & _).
    exists w'. split; assumption.
  - intros row Hrow members.
    destruct (Hrows row Hrow) as (Hm & Hc & Ha & Hmin & Hmax).
    assert (Hmarks : members <> []).
    { unfold members, data_analysis.marks. intros E. apply List.map_eq_nil in E.
      contradiction. }
    destruct (aggregates_spec members Hmarks)
      as (mean & lo & hi & E1 & E2 & E3 & Hmean & Hlo1 & Hlo2 & Hhi1 & Hhi2).
    exists mean, lo, hi. fold members in Ha, Hmin, Hmax.
    rewrite Ha, Hmin, Hmax. repeat split; auto.
    + rewrite Hc. unfold members, data_analysis.marks, len. now rewrite List.length_map.
    + intros Hten. rewrite Hmean. apply sql_avg_close; [exact Hmarks|].
      apply List.Forall_forall. intros m Hin. split.
      * unfold members, data_analysis.marks, high_performers_of in Hin.
        apply List.in_map_iff in Hin as (r & <- & Hr).
        apply List.filter_In in Hr as [Hr _]. apply List.filter_In in Hr as [_ Hr].
        apply above_5_iff in Hr. lra.
      * rewrite List.Forall_forall in Hten. now apply Hten.
  - intros [i1 n1 f1 l1 a1 m1 g1 p1 c1] [i2 n2 f2 l2 a2 m2 g2 p2 c2]
           [i3 n3 f3 l3 a3 m3 g3 p3 c3]. cbn [Db.average_mark Db.gender].
    intros (-> & -> & -> & -> & -> & ->). vm_compute. reflexivity.
Qed.

End Performance.

(** X20 on the loaded table, which holds the three rows of the example. *)
Lemma performance_by_gender_witness :
  exists w',
    data_analysis.analyze_student_performance_by_gender "students" Sample.loaded
      = (Ok (Some [data_analysis.GenderRow "f" 1 (Some 6%Q) (Some 6%Q) (Some 6%Q);
                   data_analysis.GenderRow "m" 1 (Some 8%Q) (Some 8%Q) (Some 8%Q)]), w') /\
    db w' = db Sample.loaded.
Proof.
  refine (proj1 (performance_by_gender "students" Sample.loaded
                   (Table database_setup.create_table_sql (Sample.stored Sample.loaded))
                   _ _)).
  - vm_compute. reflexivity.
  - vm_compute. discriminate.
Defined.

(** C7 fails on the empty table.  The analysis query would answer with no
    group, the empty list that [create_pandas_dataframe_from_results] is
    prepared for.  But the overview printed first formats the [NULL] minimum
    of the marks with [:.2f]: the [TypeError] lands in the handler of the
    unexpected errors, the analysis query is never sent, the function
    returns [None], and the script reports that the core analysis failed. *)
Lemma performance_by_gender_empty_table :
  row_count Sample.created "students" = Some 0 /\
  data_analysis.analysis_query [] = [] /\
  fst (data_analysis.analyze_student_performance_by_gender "students" Sample.created)
    = Ok None /\
  printed "Unexpected error during analysis: {}"
          (snd (data_analysis.analyze_student_performance_by_gender "students"
                  Sample.created)) = [[AExn TypeError]] /\
  sent (snd (data_analysis.analyze_student_performance_by_gender "students"
               Sample.created)) =
    sent Sample.created ++ [Select "overview" "students"] /\
  fst (data_analysis.main "students" Sample.created) = Ok tt /\
  printed "Core analysis failed" (snd (data_analysis.main "students" Sample.created))
    = [[]].
Proof. repeat split; vm_compute; reflexivity. Qed.

(** ** The age group query *)




Section AgeGroups.

Context {rt : Runtime}.

Lemma age_group_query_perm rows :
  Permutation (data_analysis.age_group_query rows) (data_analysis.age_groups rows).
Proof.
  unfold data_analysis.age_group_query. now rewrite !order_by_perm.
Qed.


(** The row of a bucket in the answer of the age group query. *)
Lemma age_group_row rows row :
  In row (data_analysis.age_group_query rows) ->
  let members := bucket (data_analysis.age_group row) rows in
  members <> [] /\
  data_analysis.total_students row = len members /\
  data_analysis.high_performers row = len (List.filter data_analysis.above_5 members) /\
  data_analysis.avg_mark row =
    Some (numeric_div (Qsum (data_analysis.marks members)) (len members)).
Proof.
  intros Hin. apply (Permutation_in _ (age_group_query_perm rows)) in Hin.
  unfold data_analysis.age_groups in Hin.
  apply List.in_map_iff in Hin as ([k rs] & <- & Hin).
  destruct (group_by_spec data_analysis.age_group_of rows) as (_ & Hgroups & _).
  destruct (Hgroups k rs Hin) as [E Hne].
  unfold bucket. cbn [data_analysis.age_group fst snd data_analysis.total_students
    data_analysis.high_performers data_analysis.avg_mark].
  rewrite <- E. repeat split; auto.
  assert (Hm : data_analysis.marks rs <> []).
  { unfold data_analysis.marks. intros E'. apply List.map_eq_nil in E'. contradiction. }
  destruct (aggregates_spec _ Hm) as (mean & _ & _ & E1 & _ & _ & Hmean & _).
  rewrite E1, Hmean. unfold data_analysis.marks, len. now rewrite List.length_map.
Qed.


End AgeGroups.



(** * Further properties *)

(** ** The cleaning script *)

Lemma has_space_In s :
  existsb (Ascii.eqb " ") (list_ascii_of_string s) = true <->
  In " "%char (list_ascii_of_string s).
Proof.
  rewrite List.existsb_exists. split.
  - intros (c & Hc & E). apply Ascii.eqb_eq in E. now subst.
  - intros H. exists " "%char. split; [assumption | reflexivity].
Qed.

Lemma split_one sep s :
  ~ In sep (list_ascii_of_string s) -> split sep s = [s].
Proof.
  induction s as [|c s IH]; simpl; [reflexivity|].
  intros H. destruct (Ascii.eqb_spec c sep) as [->|Hne]; [tauto|].
  rewrite IH by tauto. reflexivity.
Qed.

Lemma first_name_missing c : isnull (fst (name_columns c)) = negb (is_text c).
Proof.
  destruct c as [| |z|q|s]; try reflexivity. simpl.
  pose proof (split_not_nil " " s).
  destruct (split " " s) as [|p [|p' ps]]; [congruence| |]; reflexivity.
Qed.

Lemma last_name_missing c : isnull (snd (name_columns c)) = negb (has_space c).
Proof.
  destruct c as [| |z|q|s]; try reflexivity. simpl.
  destruct (existsb (Ascii.eqb " ") (list_ascii_of_string s)) eqn:E.
  - apply has_space_In, (split_two " "%char) in E.
    destruct (split " " s) as [|p [|p' ps]]; simpl in E; try lia. reflexivity.
  - rewrite split_one; [reflexivity|]. rewrite <- has_space_In. congruence.
Qed.

(** What [split_student_names] does once the expanded split has a second
    column. *)
Lemma split_student_names_run (df : list Raw.row) (w : world) :
  (exists r, In r df /\ has_space (Raw.student_name r) = true) ->
  data_cleaning.split_student_names df w =
    (Ok (List.map with_names df),
     says [Line "=== Splitting Student Names ===" [];
           Line "Sample name splitting results:" [];
           Line "{}" [ACells (List.map (fun r => [Clean.student_name r;
                                                   Clean.first_name r;
                                                   Clean.last_name r])
                                       (head (List.map with_names df)))];
           names_verdict df] w).
Proof.
  intros (r & Hin & Hsp).
  destruct (Raw.student_name r) as [| |z|q|s] eqn:Hname; try discriminate.
  simpl in Hsp. apply has_space_In in Hsp.
  set (names := List.map Raw.student_name df).
  set (rows := List.map (str_split " ") names).
  assert (Hw : (2 <= expand_width rows)%nat).
  { apply split_two in Hsp.
    pose proof (expand_width_ge rows (str_split " " (PyStr s))) as H.
    simpl in H. rewrite List.length_map in H.
    assert (In (List.map PyStr (split " " s)) rows).
    { unfold rows, names. apply List.in_map_iff. exists (PyStr s). split; [reflexivity|].
      apply List.in_map_iff. exists r. now split. }
    specialize (H H0). lia. }
  rewrite (from_start (data_cleaning.split_student_names df)).
  unfold data_cleaning.split_student_names. step.
  unfold str_split_expand. fold names. fold rows.
  unfold getitem at 1. cbn [pf_width pf_rows].
  destruct (Nat.ltb_spec 0 (expand_width rows)) as [_|]; [|lia].
  rewrite (lift_says _ _ _ _ eq_refl).
  unfold getitem at 1. cbn [pf_width pf_rows].
  destruct (Nat.ltb_spec 1 (expand_width rows)) as [_|]; [|lia].
  rewrite (lift_says _ _ _ _ eq_refl).
  unfold rows, names. rewrite !List.map_map.
  rewrite assign_names_map.
  erewrite (List.map_ext _ with_names).
  2:{ intros a. unfold with_names.
      destruct (expand_row_columns (expand_width rows) (Raw.student_name a) Hw) as [H0 H1].
      unfold rows, names in H0, H1. rewrite !List.map_map in H0, H1.
      now rewrite H0, H1. }
  repeat step.
  rewrite !sum_map.
  assert (E1 : List.filter (fun r0 => isnull (Clean.first_name r0)) (List.map with_names df)
               = List.map with_names
                   (List.filter (fun r0 => negb (is_text (Raw.student_name r0))) df)).
  { clear. induction df as [|a df IH]; simpl; [reflexivity|].
    rewrite first_name_missing. destruct (is_text (Raw.student_name a)); simpl; now rewrite IH. }
  assert (E2 : List.filter (fun r0 => isnull (Clean.last_name r0)) (List.map with_names df)
               = List.map with_names
                   (List.filter (fun r0 => negb (has_space (Raw.student_name r0))) df)).
  { clear. induction df as [|a df IH]; simpl; [reflexivity|].
    rewrite last_name_missing. destruct (has_space (Raw.student_name a)); simpl; now rewrite IH. }
  rewrite E1, E2. unfold len at 1 2 3 4. rewrite !List.length_map.
  fold (len (List.filter (fun r0 => negb (is_text (Raw.student_name r0))) df)).
  fold (len (List.filter (fun r0 => negb (has_space (Raw.student_name r0))) df)).
  unfold names_verdict.
  match goal with |- context [if ?c then _ else _] => destruct c end;
    step; reflexivity.
Qed.

Lemma remove_missing_average_marks_run (df : list Raw.row) (w : world) :
  exists out,
    data_cleaning.remove_missing_average_marks df w =
      (Ok (dropna Raw.average_mark df), says out w).
Proof.
  rewrite (from_start (data_cleaning.remove_missing_average_marks df)).
  unfold data_cleaning.remove_missing_average_marks.
  repeat step. eexists. reflexivity.
Qed.

Lemma missing_report_run (df : list Clean.row) (cols : list string) :
  Forall (fun c => in_columns c = true) cols ->
  forall out w,
  exists out',
    for_loop cols
      (fun column (_ : unit) =>
         col <- lift (getcol df column) ;;
         if 0 <? sum (List.map isnull col)
         then print "  {}: {} missing" [AStr column; AInt (sum (List.map isnull col))]
         else print "  {}: No missing values" [AStr column]) tt (says out w)
    = (Ok tt, says out' w).
Proof.
  induction 1 as [|c cols Hc _ IH]; intros out w; cbn [for_loop].
  - eexists. reflexivity.
  - unfold getcol. unfold in_columns in Hc.
    destruct (Clean.column c) as [f|]; [|discriminate].
    rewrite bind_assoc, bind_lift.
    destruct (0 <? sum (List.map isnull (List.map f df))); rewrite bind_print; apply IH.
Qed.

Lemma validate_cleaned_data_run (df : list Clean.row) out (w : world) :
  exists out',
    data_cleaning.validate_cleaned_data df (says out w) = (Ok true, says out' w).
Proof.
  unfold data_cleaning.validate_cleaned_data.
  repeat step.
  match goal with
  | |- context [bind (for_loop ?cols _ tt) _ (says ?o w)] =>
      destruct (missing_report_run df cols ltac:(repeat constructor) o w) as (out1 & H1)
  end.
  unfold bind at 1. rewrite H1. repeat step. eexists. reflexivity.
Qed.

(** X1.  The cleaning script on a frame in which some record has a mark and
    a name with a space in it (so that the expanded split has a second
    column).  [main] returns, in the order of the input, the records whose
    mark is not missing, each with its two name columns added: no record of
    the result lacks a mark, every record of the result comes from a record
    of the input, and there are no more records than were loaded.  It only
    prints. *)
Theorem cleaning_pipeline (df : list Raw.row) (w : world) :
  (exists r, In r df /\ isnull (Raw.average_mark r) = false /\
             has_space (Raw.student_name r) = true) ->
  let kept := List.filter (fun r => notna (Raw.average_mark r)) df in
  (exists out, data_cleaning.main df w = (Ok (List.map with_names kept), says out w)) /\
  Forall (fun c => isnull (Clean.average_mark c) = false) (List.map with_names kept) /\
  (forall c, In c (List.map with_names kept) ->
             exists r, In r df /\ c = with_names r) /\
  (List.length (List.map with_names kept) <= List.length df)%nat.
Proof.
  intros (r & Hin & Hmark & Hsp) kept.
  split; [|split; [|split]].
  - rewrite (from_start (data_cleaning.main df)).
    unfold data_cleaning.main. step.
    destruct (remove_missing_average_marks_run df
                (says ([] ++ [Line "=== Student Data Cleaning Pipeline ===" []]) w))
      as (out1 & H1).
    rewrite (bind_ok _ _ _ _ _ H1). unfold dropna. fold kept.
    rewrite says_says.
    erewrite bind_ok.
    2:{ apply split_student_names_run. exists r. split; [|assumption].
        apply List.filter_In. split; [assumption|].
        unfold notna. now rewrite Hmark. }
    rewrite says_says.
    match goal with
    | |- context [bind (data_cleaning.validate_cleaned_data ?d) _ (says ?o w)] =>
        destruct (validate_cleaned_data_run d o w) as (out3 & H3)
    end.
    rewrite (bind_ok _ _ _ _ _ H3). eexists. reflexivity.
  - apply List.Forall_forall. intros c Hc.
    apply List.in_map_iff in Hc as (a & <- & Ha).
    apply List.filter_In in Ha as [_ Ha]. simpl.
    unfold notna in Ha. now apply Bool.negb_true_iff in Ha.
  - intros c Hc. apply List.in_map_iff in Hc as (a & <- & Ha).
    apply List.filter_In in Ha as [Ha _]. eauto.
  - rewrite List.length_map. apply List.filter_length_le.
Qed.

(** X1 on three records: one without a mark, one with a one-word name. *)
Lemma cleaning_pipeline_witness :
  let df := [Raw.Row (PyStr "Ann Lee") (PyInt 19) (PyFloat 6) (PyStr "f") NaN;
             Raw.Row (PyStr "Bo Hill") (PyInt 21) NaN (PyStr "m") NaN;
             Raw.Row (PyStr "Cher") (PyInt 30) (PyFloat 9) (PyStr "f") NaN] in
  exists out,
    data_cleaning.main df Sample.fresh =
      (Ok [Clean.Row (PyStr "Ann Lee") (PyStr "Ann") (PyStr "Lee") (PyInt 19) (PyFloat 6)
                     (PyStr "f") NaN;
           Clean.Row (PyStr "Cher") (PyStr "Cher") PyNone (PyInt 30) (PyFloat 9)
                     (PyStr "f") NaN],
       says out Sample.fresh).
Proof.
  intros df.
  refine (proj1 (cleaning_pipeline df Sample.fresh _)).
  exists (Raw.Row (PyStr "Ann Lee") (PyInt 19) (PyFloat 6) (PyStr "f") NaN).
  split; [now left|]. split; reflexivity.
Defined.

(** X2.  When some name has a space in it, the last line that
    [split_student_names] prints is the warning if a first or a last name is
    missing and the success line otherwise.  The two counts of the warning
    are the numbers of names that are not text and of names without a space;
    they are the numbers of missing first and last names in the frame that
    is returned, and the first is never above the second. *)
Theorem split_student_names_reports_missing (df : list Raw.row) (w : world) :
  (exists r, In r df /\ has_space (Raw.student_name r) = true) ->
  let without_text :=
    len (List.filter (fun r => negb (is_text (Raw.student_name r))) df) in
  let without_space :=
    len (List.filter (fun r => negb (has_space (Raw.student_name r))) df) in
  exists result out,
    data_cleaning.split_student_names df w =
      (Ok result,
       says (out ++ [if (0 <? without_text) || (0 <? without_space)
                     then Line "Warning: {} records missing first name, {} missing last name"
                               [AInt without_text; AInt without_space]
                     else Line "All names split successfully" []]) w) /\
    without_text = len (List.filter (fun c => isnull (Clean.first_name c)) result) /\
    without_space = len (List.filter (fun c => isnull (Clean.last_name c)) result) /\
    without_text <= without_space.
Proof.
  intros H without_text without_space.
  exists (List.map with_names df).
  exists [Line "=== Splitting Student Names ===" [];
          Line "Sample name splitting results:" [];
          Line "{}" [ACells (List.map (fun r => [Clean.student_name r;
                                                  Clean.first_name r;
                                                  Clean.last_name r])
                                      (head (List.map with_names df)))]].
  split; [|split; [|split]].
  - rewrite split_student_names_run by assumption. reflexivity.
  - unfold without_text, len. f_equal. clear.
    induction df as [|a df IH]; simpl; [reflexivity|].
    rewrite first_name_missing. destruct (is_text (Raw.student_name a)); simpl; lia.
  - unfold without_space, len. f_equal. clear.
    induction df as [|a df IH]; simpl; [reflexivity|].
    rewrite last_name_missing. destruct (has_space (Raw.student_name a)); simpl; lia.
  - unfold without_text, without_space, len. apply inj_le. clear.
    induction df as [|a df IH]; simpl; [lia|].
    destruct (Raw.student_name a) as [| |z|q|s]; simpl; try lia.
    destruct (existsb _ _); simpl; lia.
Qed.

(** X2 on two records, one with a one-word name. *)
Lemma split_student_names_reports_missing_witness :
  let df := [Raw.Row (PyStr "Ann Lee") (PyInt 19) (PyFloat 6) (PyStr "f") NaN;
             Raw.Row (PyStr "Cher") (PyInt 30) (PyFloat 9) (PyStr "f") NaN] in
  exists result out,
    data_cleaning.split_student_names df Sample.fresh =
      (Ok result,
       says (out ++ [Line "Warning: {} records missing first name, {} missing last name"
                          [AInt 0; AInt 1]]) Sample.fresh).
Proof.
  intros df.
  destruct (split_student_names_reports_missing df Sample.fresh) as (result & out & H & _).
  - exists (Raw.Row (PyStr "Ann Lee") (PyInt 19) (PyFloat 6) (PyStr "f") NaN).
    split; [now left | reflexivity].
  - exists result, out. exact H.
Defined.

(** X3.  On a frame that is not empty and in which every name is a text
    without a space, the expanded split has one column only:
    [split_student_names] raises [KeyError] on the lookup of column 1, after
    its header line and before anything else is printed. *)
Theorem split_student_names_single_words (df : list Raw.row) (w : world) :
  df <> [] ->
  Forall (fun r => is_text (Raw.student_name r) = true /\
                   has_space (Raw.student_name r) = false) df ->
  data_cleaning.split_student_names df w =
    (Raise KeyError, says [Line "=== Splitting Student Names ===" []] w).
Proof.
  intros Hne Hall.
  rewrite (from_start (data_cleaning.split_student_names df)).
  unfold data_cleaning.split_student_names. step.
  unfold str_split_expand.
  set (rows := List.map (str_split " ") (List.map Raw.student_name df)).
  assert (Hw : expand_width rows = 1%nat).
  { unfold rows, expand_width. rewrite !List.map_map. clear w.
    induction df as [|a df IH]; [congruence|].
    inversion Hall as [|? ? [Ht Hs] Hrest]; subst.
    cbn [List.map List.fold_right].
    destruct (Raw.student_name a) as [| |z|q|s]; try discriminate.
    simpl in Hs. cbn [str_split]. rewrite split_one.
    2:{ rewrite <- has_space_In. congruence. }
    cbn [List.map List.length].
    destruct df as [|b df]; [reflexivity|].
    rewrite IH; [reflexivity | discriminate | assumption]. }
  unfold getitem at 1. cbn [pf_width pf_rows]. rewrite Hw.
  cbn [Nat.ltb Nat.leb]. rewrite (lift_says _ _ _ _ eq_refl).
  unfold getitem at 1. cbn [pf_width pf_rows].
  reflexivity.
Qed.

(** X3 on a single record with a one-word name. *)
Lemma split_student_names_single_words_witness :
  data_cleaning.split_student_names
    [Raw.Row (PyStr "Cher") (PyInt 30) (PyFloat 9) (PyStr "f") NaN] Sample.fresh =
  (Raise KeyError, says [Line "=== Splitting Student Names ===" []] Sample.fresh).
Proof.
  apply split_student_names_single_words.
  - discriminate.
  - constructor; [split; reflexivity | constructor].
Defined.

(** ** Validation before insertion *)

Lemma numeric_is_text c : numeric c <-> is_text c = false.
Proof. destruct c; simpl; intuition congruence. Qed.

Lemma numeric_or_text {A} (f : A -> cell) (df : list A) :
  Forall (fun r => numeric (f r)) df \/ exists r, In r df /\ is_text (f r) = true.
Proof.
  induction df as [|a df [IH|(r & Hr & Ht)]].
  - left. constructor.
  - destruct (is_text (f a)) eqn:E.
    + right. exists a. split; [now left | assumption].
    + left. constructor; [now apply numeric_is_text | assumption].
  - right. exists r. split; [now right | assumption].
Qed.

Lemma series_cmp_text {A} (cmp : cell -> Z -> result bool) (f : A -> cell) df k :
  (forall c, match cmp c k with
             | Ok _ => is_text c = false
             | Raise e => e = TypeError
             end) ->
  (exists r, In r df /\ is_text (f r) = true) ->
  series_cmp cmp (List.map f df) k = Raise TypeError.
Proof.
  intros Hcmp. unfold series_cmp.
  induction df as [|a df IH]; intros (r & Hin & Ht); [destruct Hin|].
  cbn [List.map traverse]. pose proof (Hcmp (f a)) as Ha.
  destruct (cmp (f a) k) as [b|e]; [|now subst].
  cbn [rbind]. rewrite IH; [reflexivity|].
  destruct Hin as [->|Hin]; [congruence | eauto].
Qed.

Lemma cell_lt_text c k :
  match cell_lt c k with Ok _ => is_text c = false | Raise e => e = TypeError end.
Proof. destruct c; reflexivity. Qed.

Lemma cell_gt_text c k :
  match cell_gt c k with Ok _ => is_text c = false | Raise e => e = TypeError end.
Proof. destruct c; reflexivity. Qed.

Lemma sum_perm (m1 m2 : list bool) : Permutation m1 m2 -> sum m1 = sum m2.
Proof.
  intros H. unfold sum, len. f_equal.
  induction H; simpl; try congruence.
  - destruct x; simpl; congruence.
  - destruct x, y; reflexivity.
Qed.

Lemma all_perm (m1 m2 : list bool) : Permutation m1 m2 -> all m1 = all m2.
Proof.
  intros H. unfold all.
  induction H; simpl; try congruence.
  destruct x, y; reflexivity.
Qed.

Lemma filter_len_perm {A} (p : A -> bool) l1 l2 :
  Permutation l1 l2 -> len (List.filter p l1) = len (List.filter p l2).
Proof.
  intros H. unfold len. f_equal.
  induction H; simpl; try congruence.
  - destruct (p x); simpl; congruence.
  - destruct (p x), (p y); reflexivity.
Qed.

Lemma numeric_perm {A} (f : A -> cell) l1 l2 :
  Permutation l1 l2 ->
  Forall (fun r => numeric (f r)) l1 -> Forall (fun r => numeric (f r)) l2.
Proof. intros H. now apply Permutation_Forall. Qed.

Lemma text_perm {A} (f : A -> cell) (l1 l2 : list A) :
  Permutation l1 l2 ->
  (exists r, In r l1 /\ is_text (f r) = true) ->
  exists r, In r l2 /\ is_text (f r) = true.
Proof.
  intros H (r & Hr & Ht). exists r. split; [|assumption].
  eapply Permutation_in; eassumption.
Qed.

Lemma bind_lift_raise {A B} e (k : A -> M B) w : bind (lift (Raise e)) k w = (Raise e, w).
Proof. reflexivity. Qed.

(** A range check on a column gives the same result for two orders of the
    frame. *)
Lemma range_check_perm {B C} (f : Clean.row -> cell) lo hi df1 df2
  (F : Z -> M B) (R1 R2 : B -> M C) w :
  Permutation df1 df2 ->
  (forall b w', R1 b w' = R2 b w') ->
  bind (lift (series_cmp cell_lt (List.map f df1) lo))
       (fun below =>
          bind (bind (lift (series_cmp cell_gt (List.map f df1) hi))
                     (fun above => F (len (boolean_index df1 (mask_or below above)))))
               R1) w
  =
  bind (lift (series_cmp cell_lt (List.map f df2) lo))
       (fun below =>
          bind (bind (lift (series_cmp cell_gt (List.map f df2) hi))
                     (fun above => F (len (boolean_index df2 (mask_or below above)))))
               R2) w.
Proof.
  intros H HR.
  destruct (numeric_or_text f df1) as [Hn|Ht].
  - pose proof (numeric_perm f _ _ H Hn) as Hn2.
    rewrite !series_lt_numeric, !bind_lift by assumption.
    rewrite !series_gt_numeric by assumption.
    rewrite !bind_assoc, !bind_lift.
    rewrite !mask_or_map, !boolean_index_mask.
    rewrite (filter_len_perm _ _ _ H).
    apply bind_ext, HR.
  - pose proof (text_perm f _ _ H Ht) as Ht2.
    rewrite !(series_cmp_text cell_lt) by (assumption || (intros; apply cell_lt_text)).
    reflexivity.
Qed.

(** X4.  [validate_data_before_insertion] looks at counts over the columns
    only: on two frames with the same records in another order it returns
    the same verdict, or raises the same exception, and prints the same
    lines. *)
Theorem validation_order_independent (df1 df2 : list Clean.row) (w : world) :
  Permutation df1 df2 ->
  data_insertion.validate_data_before_insertion df1 w =
  data_insertion.validate_data_before_insertion df2 w.
Proof.
  intros H.
  assert (Hsum : forall f : Clean.row -> cell,
            sum (List.map isnull (List.map f df1)) = sum (List.map isnull (List.map f df2))).
  { intros f. apply sum_perm. now do 2 apply Permutation_map. }
  assert (Hisin : forall vals,
            Permutation (isin (List.map Clean.gender df1) vals)
                        (isin (List.map Clean.gender df2) vals)).
  { intros vals. unfold isin. now do 2 apply Permutation_map. }
  assert (Hinv : sum (invert (isin (List.map Clean.gender df1) ["m"; "f"])) =
                 sum (invert (isin (List.map Clean.gender df2) ["m"; "f"]))).
  { apply sum_perm. unfold invert. apply Permutation_map, Hisin. }
  unfold data_insertion.validate_data_before_insertion.
  cbn [for_loop].
  change (in_columns "age") with true.
  change (in_columns "average mark") with true.
  change (in_columns "gender") with true.
  cbv iota.
  rewrite !getcol_first, !getcol_last, !getcol_age, !getcol_mark, !getcol_gender.
  repeat first
    [ reflexivity
    | rewrite !bind_assoc
    | rewrite !bind_lift
    | progress rewrite ?Hinv
    | progress rewrite ?(Hsum Clean.first_name), ?(Hsum Clean.last_name), ?(Hsum Clean.age),
                       ?(Hsum Clean.average_mark), ?(Hsum Clean.gender)
    | progress rewrite ?(all_perm _ _ (Hisin ["m"; "f"]))
    | match goal with
      | |- context [bind (print "All age values within valid range" [])
                         (fun _ => ret ?v)] =>
          apply (range_check_perm Clean.age 1 150 df1 df2
                   (fun n => if 0 <? n
                             then print "Found {} records with invalid age values" [AInt n] ;;;
                                  ret false
                             else print "All age values within valid range" [] ;;; ret v)
                   _ _ _ H); intros
      | |- context [bind (print "All average mark values within valid range" [])
                         (fun _ => ret ?v)] =>
          apply (range_check_perm Clean.average_mark 0 10 df1 df2
                   (fun n => if 0 <? n
                             then print "Found {} records with invalid average mark values"
                                        [AInt n] ;;;
                                  ret false
                             else print "All average mark values within valid range" [] ;;;
                                  ret v)
                   _ _ _ H); intros
      end
    | apply bind_ext; intros ].
Qed.

(** X4 on the sample batch and its reverse. *)
Lemma validation_order_independent_witness :
  Permutation Sample.batch (List.rev Sample.batch) /\
  data_insertion.validate_data_before_insertion Sample.batch Sample.fresh =
  data_insertion.validate_data_before_insertion (List.rev Sample.batch) Sample.fresh.
Proof.
  assert (H : Permutation Sample.batch (List.rev Sample.batch))
    by apply Permutation_rev.
  split; [exact H|].
  exact (validation_order_independent _ _ Sample.fresh H).
Defined.

(** X5.  A text in the age or in the mark of some record makes
    [validate_data_before_insertion] raise [TypeError] on the comparison with
    a number: it returns neither [True] nor [False], whatever the other
    records are. *)
Theorem validation_raises_on_text (df : list Clean.row) (w : world) :
  (exists r, In r df /\
             (is_text (Clean.age r) = true \/ is_text (Clean.average_mark r) = true)) ->
  exists out,
    data_insertion.validate_data_before_insertion df w = (Raise TypeError, says out w).
Proof.
  intros Hbad.
  assert (Hcases : (exists r, In r df /\ is_text (Clean.age r) = true) \/
                   (Forall (fun r => numeric (Clean.age r)) df /\
                    exists r, In r df /\ is_text (Clean.average_mark r) = true)).
  { destruct (numeric_or_text Clean.age df) as [Hn|Ht]; [|now left].
    right. split; [assumption|].
    destruct Hbad as (r & Hr & [Ht|Ht]); [|eauto].
    rewrite List.Forall_forall in Hn. apply Hn, numeric_is_text in Hr. congruence. }
  clear Hbad.
  rewrite (from_start (data_insertion.validate_data_before_insertion df)).
  unfold data_insertion.validate_data_before_insertion.
  step. cbn [for_loop].
  change (in_columns "age") with true.
  change (in_columns "average mark") with true.
  cbv iota.
  rewrite getcol_first, getcol_last, getcol_age, getcol_mark, getcol_gender.
  repeat first [ rewrite bind_assoc | rewrite bind_lift | rewrite check_step | rewrite bind_ret ].
  destruct Hcases as [Ht|[Hn Ht]].
  - rewrite (series_cmp_text cell_lt) by (assumption || (intros; apply cell_lt_text)).
    eexists. reflexivity.
  - rewrite series_lt_numeric by assumption. rewrite bind_lift.
    rewrite series_gt_numeric by assumption.
    repeat first [ rewrite bind_assoc | rewrite bind_lift | rewrite check_step | rewrite bind_ret ].
    rewrite (series_cmp_text cell_lt) by (assumption || (intros; apply cell_lt_text)).
    eexists. reflexivity.
Qed.

(** X5 on a frame whose second record has the age [twenty]. *)
Lemma validation_raises_on_text_witness :
  exists out,
    data_insertion.validate_data_before_insertion
      [Sample.ann;
       {| Clean.student_name := PyStr "Bea Moss"; Clean.first_name := PyStr "Bea";
          Clean.last_name := PyStr "Moss"; Clean.age := PyStr "twenty";
          Clean.average_mark := PyFloat 4; Clean.gender := PyStr "f";
          Clean.phone_number := NaN |}] Sample.fresh
    = (Raise TypeError, says out Sample.fresh).
Proof.
  apply validation_raises_on_text.
  eexists. split; [right; left; reflexivity|]. left. reflexivity.
Defined.

(** ** The insertion of a batch *)

Section Batch.

Context {rt : Runtime}.

Lemma insert_all_length ddl cols data : forall seq ts rows,
  insert_all ddl cols data seq ts = Ok rows -> List.length rows = List.length data.
Proof.
  induction data as [|vals data IH]; simpl; intros seq ts rows H.
  - now injection H as <-.
  - destruct (store_insert ddl cols vals seq ts) as [row|e]; [|discriminate].
    simpl in H. destruct (insert_all ddl cols data (seq + 1) ts) as [rs|e] eqn:E;
      [|discriminate].
    injection H as <-. simpl. f_equal. eapply IH; eauto.
Qed.

Lemma insert_all_rows ddl cols data : forall seq ts rows,
  insert_all ddl cols data seq ts = Ok rows ->
  forall i row, nth_error rows i = Some row ->
    exists vals, nth_error data i = Some vals /\
                 store_insert ddl cols vals (seq + Z.of_nat i) ts = Ok row.
Proof.
  induction data as [|vals data IH]; simpl; intros seq ts rows H i row Hi.
  - injection H as <-. destruct i; discriminate.
  - destruct (store_insert ddl cols vals seq ts) as [row0|e] eqn:E0; [|discriminate].
    simpl in H. destruct (insert_all ddl cols data (seq + 1) ts) as [rs|e] eqn:E;
      [|discriminate].
    injection H as <-. destruct i as [|i]; simpl in Hi.
    + injection Hi as <-. exists vals. split; [reflexivity|]. now rewrite Z.add_0_r.
    + destruct (IH _ _ _ E i row Hi) as (v & Hv & Hs).
      exists v. split; [exact Hv|].
      replace (seq + Z.of_nat (S i)) with (seq + 1 + Z.of_nat i) by lia. exact Hs.
Qed.

Lemma table_eta (t : table) : Table (tbl_columns t) (tbl_rows t) = t.
Proof. now destruct t. Qed.

(** [executemany] carries out [insert_all] in the open transaction. *)
Lemma executemany_run tbl cols data : forall w t,
  working (db w) !! tbl = Some t ->
  exists w' n,
    executemany tbl cols data w =
      (match insert_all (tbl_columns t) cols data (next_id w tbl) (now (db w)) with
       | Ok _ => Ok tt
       | Raise e => Raise e
       end, w') /\
    committed (db w') = committed (db w) /\
    now (db w') = now (db w) /\
    stdin w' = stdin w /\ stdout w' = stdout w /\
    sent w' = sent w ++ List.map (InsertInto tbl) (List.firstn n data) /\
    match insert_all (tbl_columns t) cols data (next_id w tbl) (now (db w)) with
    | Ok rows =>
        n = List.length data /\
        working (db w') =
          <[tbl := Table (tbl_columns t) (tbl_rows t ++ rows)]> (working (db w))
    | Raise _ => True
    end.
Proof.
  unfold executemany.
  induction data as [|vals data IH]; intros w t Ht.
  - exists w, 0%nat. cbn. rewrite !app_nil_r, table_eta, insert_id by assumption.
    repeat split; reflexivity.
  - cbn [for_loop insert_all].
    destruct (execute_insert_run tbl cols vals w t Ht)
      as (w1 & Hrun & Hc & Hn & Hs & Hi & Ho & Hsent & Hw).
    unfold bind at 1. rewrite Hrun.
    destruct (store_insert (tbl_columns t) cols vals (next_id w tbl) (now (db w)))
      as [row|e] eqn:E0; cbn [rbind].
    + destruct (IH w1 (Table (tbl_columns t) (tbl_rows t ++ [row])))
        as (w' & n & Hrun' & Hc' & Hn' & Hi' & Ho' & Hs' & Hw').
      { rewrite Hw. apply lookup_insert_eq. }
      cbn [tbl_columns tbl_rows] in Hrun', Hw'. rewrite Hs, Hn in Hrun', Hw'.
      exists w', (S n). rewrite Hrun'.
      destruct (insert_all (tbl_columns t) cols data (next_id w tbl + 1) (now (db w)))
        as [rows|e]; cbn [rbind];
        (split; [reflexivity|]); repeat split; try congruence.
      * rewrite Hs', Hsent. cbn [List.firstn List.map]. now rewrite <- app_assoc.
      * destruct Hw' as [-> _]. reflexivity.
      * destruct Hw' as [_ ->]. rewrite Hw, insert_insert_eq, <- app_assoc. reflexivity.
      * rewrite Hs', Hsent. cbn [List.firstn List.map]. now rewrite <- app_assoc.
    + exists w1, 1%nat. repeat split; assumption.
Qed.

Lemma select_count_found tbl w t :
  working (db w) !! tbl = Some t ->
  select_count tbl w = (Ok (len (tbl_rows t)), note (SelectCount tbl) w).
Proof. intros H. unfold select_count. cbn. now rewrite H. Qed.

(** The statements after the question to the operator, on a table that is
    there. *)
Lemma insertion_run df tbl w t :
  working (db w) !! tbl = Some t ->
  match traverse data_insertion.record_data df with
  | Raise e => data_insertion.insertion df tbl w = (Raise e, w)
  | Ok data =>
      match insert_all (tbl_columns t) data_insertion.insert_columns data
                       (next_id w tbl) (now (db w)) with
      | Raise e =>
          exists w' n,
            data_insertion.insertion df tbl w = (Raise e, w') /\
            committed (db w') = committed (db w) /\
            now (db w') = now (db w) /\
            sent w' = sent w ++ List.map (InsertInto tbl) (List.firstn n data)
      | Ok rows =>
          exists w',
            data_insertion.insertion df tbl w = (Ok true, w') /\
            committed (db w') =
              <[tbl := Table (tbl_columns t) (tbl_rows t ++ rows)]> (working (db w)) /\
            working (db w') = committed (db w') /\
            now (db w') = now (db w) /\
            sent w' = sent w ++ List.map (InsertInto tbl) data ++ [Commit; SelectCount tbl] /\
            (exists out, stdout w' = stdout w ++ out) /\
            stdin w' = stdin w
      end
  end.
Proof.
  intros Ht. unfold data_insertion.insertion.
  destruct (traverse data_insertion.record_data df) as [data|e]; [|reflexivity].
  rewrite bind_lift, bind_print1.
  destruct (executemany_run tbl data_insertion.insert_columns data
              (says [Line "Inserting {} records..." [AInt (len data)]] w) t Ht)
    as (w1 & n & Hrun & Hc & Hn & Hi & Ho & Hs & Hw).
  change (next_id (says _ w) tbl) with (next_id w tbl) in *.
  unfold says in Hc, Hn, Hs, Hw. cbn [db sent] in Hc, Hn, Hs, Hw.
  destruct (insert_all _ _ _ _ _) as [rows|e].
  - destruct Hw as [-> Hw].
    rewrite (bind_ok _ _ _ _ _ Hrun).
    unfold bind at 1, commit. cbn [note set_db db sent stdin stdout working committed
                                   sequences now].
    erewrite bind_ok.
    2:{ apply select_count_found with
          (t := Table (tbl_columns t) (tbl_rows t ++ rows)).
        cbn [db working]. rewrite Hw. apply lookup_insert_eq. }
    rewrite !bind_print1. eexists. split; [reflexivity|].
    unfold says, note, set_db. cbn [db committed working now sent stdin stdout].
    rewrite Hw, Hn, Hs, Ho, Hi.
    rewrite List.firstn_all. repeat split.
    + rewrite <- !app_assoc. reflexivity.
    + unfold says. cbn [stdout]. rewrite <- !app_assoc. eexists. reflexivity.
  - exists w1, n. rewrite (bind_raise _ _ _ _ _ Hrun). repeat split; assumption.
Qed.

Lemma try_insertion df tbl w t :
  working (db w) !! tbl = Some t ->
  exists b w' stmts,
    try_except (data_insertion.insertion df tbl) data_insertion.insertion_failed w
      = (Ok b, w') /\
    sent w' = sent w ++ stmts /\
    now (db w') = now (db w) /\
    if b
    then exists data rows,
           traverse data_insertion.record_data df = Ok data /\
           insert_all (tbl_columns t) data_insertion.insert_columns data
                      (next_id w tbl) (now (db w)) = Ok rows /\
           committed (db w') =
             <[tbl := Table (tbl_columns t) (tbl_rows t ++ rows)]> (working (db w)) /\
           working (db w') = committed (db w') /\
           stmts = List.map (InsertInto tbl) data ++ [Commit; SelectCount tbl]
    else committed (db w') = committed (db w) /\
         working (db w') = committed (db w) /\
         ~ In Commit stmts /\
         ((exists e, traverse data_insertion.record_data df = Raise e) ->
          stmts = [Rollback]).
Proof.
  intros Ht. pose proof (insertion_run df tbl w t Ht) as H.
  unfold try_except.
  destruct (traverse data_insertion.record_data df) as [data|e].
  - destruct (insert_all _ _ _ _ _) as [rows|e] eqn:E.
    + destruct H as (w' & Hrun & Hc & Hw & Hn & Hs & _).
      exists true, w', (List.map (InsertInto tbl) data ++ [Commit; SelectCount tbl]).
      rewrite Hrun. repeat split; try assumption.
      exists data, rows. repeat split; assumption.
    + destruct H as (w' & n & Hrun & Hc & Hn & Hs).
      destruct (insertion_failed_run e w') as (l & Hh).
      rewrite Hrun, Hh.
      eexists false, _, (List.map (InsertInto tbl) (List.firstn n data) ++ [Rollback]).
      split; [reflexivity|]. cbn [db sent committed working now].
      rewrite Hs, Hc, Hn, <- app_assoc. repeat split.
      * intros Hin. apply List.in_app_iff in Hin as [Hin|[Hin|[]]]; [|discriminate].
        apply List.in_map_iff in Hin as (? & ? & _). discriminate.
      * intros (e' & He'). discriminate.
  - destruct (insertion_failed_run e w) as (l & Hh).
    rewrite H, Hh. eexists false, _, [Rollback].
    split; [reflexivity|]. cbn [db sent committed working now]. repeat split.
    intros [Hin|[]]. discriminate.
Qed.

End Batch.

Section Insertion.

Context {rt : Runtime}.

Lemma traverse_length {A B} (f : A -> result B) l : forall l',
  traverse f l = Ok l' -> List.length l' = List.length l.
Proof.
  induction l as [|a l IH]; simpl; intros l' H.
  - now injection H as <-.
  - destruct (f a) as [b|e]; [|discriminate]. simpl in H.
    destruct (traverse f l) as [bs|e]; [|discriminate].
    injection H as <-. simpl. f_equal. now apply IH.
Qed.

Lemma traverse_raises {A B} (f : A -> result B) l a e :
  In a l -> f a = Raise e -> exists e', traverse f l = Raise e'.
Proof.
  induction l as [|x l IH]; simpl; intros Hin Hf; [destruct Hin|].
  destruct (f x) as [b|e0] eqn:E; [|eauto]. simpl.
  destruct Hin as [->|Hin]; [congruence|].
  destruct (IH Hin Hf) as (e' & ->). eauto.
Qed.

Lemma select_count_missing tbl w :
  working (db w) !! tbl = None ->
  select_count tbl w = (Raise (PgError UndefinedTable), note (SelectCount tbl) w).
Proof. intros H. unfold select_count. cbn. now rewrite H. Qed.

Lemma input_eof prompt w :
  stdin w = [] ->
  input prompt w = (Raise EOFError, says [Line prompt []] w).
Proof. intros H. unfold input. rewrite H. unfold says. now rewrite H. Qed.

(** Every way through [insert_student_data]. *)
Lemma insert_student_data_cases df tbl w :
  exists b w' stmts,
    data_insertion.insert_student_data df tbl w = (Ok b, w') /\
    sent w' = sent w ++ SelectCount tbl :: stmts /\
    now (db w') = now (db w) /\
    if b
    then exists t data rows,
           working (db w) !! tbl = Some t /\
           traverse data_insertion.record_data df = Ok data /\
           insert_all (tbl_columns t) data_insertion.insert_columns data
                      (next_id w tbl) (now (db w)) = Ok rows /\
           committed (db w') =
             <[tbl := Table (tbl_columns t) (tbl_rows t ++ rows)]> (working (db w)) /\
           working (db w') = committed (db w') /\
           stmts = List.map (InsertInto tbl) data ++ [Commit; SelectCount tbl]
    else committed (db w') = committed (db w) /\
         (working (db w') = committed (db w) \/ db w' = db w) /\
         ~ In Commit stmts /\
         ((exists e, traverse data_insertion.record_data df = Raise e) ->
          Forall (fun s => ~ is_insert s) stmts) /\
         (working (db w) !! tbl = None -> stmts = [Rollback]).
Proof.
  unfold data_insertion.insert_student_data. rewrite bind_print1.
  set (w0 := says _ w).
  assert (Hfailed : forall e w1 stmts0,
            db w1 = db w -> sent w1 = sent w ++ SelectCount tbl :: stmts0 ->
            stmts0 = [] ->
            exists b w' stmts,
              data_insertion.insertion_failed e w1 = (Ok b, w') /\
              sent w' = sent w ++ SelectCount tbl :: stmts /\
              now (db w') = now (db w) /\
              b = false /\ committed (db w') = committed (db w) /\
              working (db w') = committed (db w) /\ stmts = [Rollback]).
  { intros e w1 stmts0 Hdb Hs ->. destruct (insertion_failed_run e w1) as (l & Hh).
    eexists false, _, [Rollback]. split; [exact Hh|].
    cbn [db sent committed working now]. rewrite Hs, Hdb, <- app_assoc.
    repeat split. }
  assert (Hno : forall stmts, stmts = [Rollback] ->
            ~ In Commit stmts /\
            ((exists e, traverse data_insertion.record_data df = Raise e) ->
             Forall (fun s => ~ is_insert s) stmts)).
  { intros stmts ->. split; [intros [H|[]]; discriminate|].
    intros _. repeat constructor. intros []. }
  assert (Hgo : forall w1 t,
            working (db w) !! tbl = Some t -> db w1 = db w ->
            sent w1 = sent w ++ [SelectCount tbl] ->
            exists b w' stmts,
              try_except (data_insertion.insertion df tbl)
                         data_insertion.insertion_failed w1 = (Ok b, w') /\
              sent w' = sent w ++ SelectCount tbl :: stmts /\
              now (db w') = now (db w) /\
              if b
              then exists t data rows,
                     working (db w) !! tbl = Some t /\
                     traverse data_insertion.record_data df = Ok data /\
                     insert_all (tbl_columns t) data_insertion.insert_columns data
                                (next_id w tbl) (now (db w)) = Ok rows /\
                     committed (db w') =
                       <[tbl := Table (tbl_columns t) (tbl_rows t ++ rows)]>
                         (working (db w)) /\
                     working (db w') = committed (db w') /\
                     stmts = List.map (InsertInto tbl) data ++ [Commit; SelectCount tbl]
              else committed (db w') = committed (db w) /\
                   (working (db w') = committed (db w) \/ db w' = db w) /\
                   ~ In Commit stmts /\
                   ((exists e, traverse data_insertion.record_data df = Raise e) ->
                    Forall (fun s => ~ is_insert s) stmts) /\
                   (working (db w) !! tbl = None -> stmts = [Rollback])).
  { intros w1 t Ht Hdb Hs.
    destruct (try_insertion df tbl w1 t) as (b & w' & stmts & Hrun & Hs' & Hn & Hb).
    { now rewrite Hdb. }
    exists b, w', stmts. split; [exact Hrun|].
    split; [rewrite Hs', Hs, <- app_assoc; reflexivity|].
    split; [now rewrite Hn, Hdb|].
    unfold next_id in *. rewrite Hdb in Hb. destruct b.
    - destruct Hb as (data & rows & H1 & H2 & H3 & H4 & H5).
      exists t, data, rows. repeat split; assumption.
    - destruct Hb as (H1 & H2 & H3 & H4). repeat split; auto.
      + intros He. rewrite (H4 He). repeat constructor. intros [].
      + congruence. }
  unfold try_except at 1.
  destruct (working (db w) !! tbl) as [t|] eqn:Ht.
  - rewrite bind_select_count with (t := t) by exact Ht.
    destruct (0 <? len (tbl_rows t)) eqn:Hcount.
    + rewrite bind_print1.
      destruct (stdin w) as [|answer rest] eqn:Hin.
      * erewrite bind_raise by (apply input_eof; exact Hin).
        destruct (Hfailed EOFError
                    (says [Line "Do you want to proceed with insertion anyway? (y/n): " []]
                       (says [Line "Table already contains {} records"
                                   [AInt (len (tbl_rows t))]]
                          (note (SelectCount tbl) w0))) [] eq_refl eq_refl eq_refl)
          as (b & w' & stmts & Hrun & Hs & Hn & -> & Hc & Hw & Hst).
        exists false, w', stmts. destruct (Hno _ Hst) as [H1 H2].
        repeat split; auto.
      * erewrite bind_input by (cbn; exact Hin). cbv zeta.
        destruct (String.eqb (strip (lower answer)) "y") eqn:Hy; cbn [negb].
        -- match goal with
           | |- context [data_insertion.insertion df tbl ?w1] =>
               destruct (Hgo w1 t ltac:(first [exact Ht | reflexivity]) eq_refl eq_refl)
                 as (b & w' & stmts & Hrun & Hrest)
           end.
           exists b, w', stmts. split; [exact Hrun | exact Hrest].
        -- rewrite bind_print1. eexists false, _, []. split; [reflexivity|].
           cbn [says note db sent]. repeat split; auto; try discriminate.
    + match goal with
      | |- context [data_insertion.insertion df tbl ?w1] =>
          destruct (Hgo w1 t ltac:(first [exact Ht | reflexivity]) eq_refl eq_refl)
            as (b & w' & stmts & Hrun & Hrest)
      end.
      exists b, w', stmts. split; [exact Hrun | exact Hrest].
  - erewrite bind_raise by (apply select_count_missing; exact Ht).
    destruct (Hfailed (PgError UndefinedTable) (note (SelectCount tbl) w0) []
                      eq_refl eq_refl eq_refl)
      as (b & w' & stmts & Hrun & Hs & Hn & -> & Hc & Hw & Hst).
    exists false, w', stmts. destruct (Hno _ Hst) as [H1 H2].
    repeat split; auto.
Qed.

End Insertion.

Section Stored.

Context {rt : Runtime}.

Lemma assoc_combine_other {A} k ks (vs : list A) :
  ~ In k ks -> assoc k (List.combine ks vs) = None.
Proof.
  revert vs. induction ks as [|k' ks IH]; intros vs Hk; [reflexivity|].
  destruct vs as [|v vs]; [reflexivity|]. simpl.
  destruct (String.eqb_spec k k') as [->|_]; [exfalso; apply Hk; now left|].
  apply IH. intros H. apply Hk. now right.
Qed.

(** Whatever tuple is sent, a row the students table accepts has its id from
    the sequence, its timestamp from the server, and meets the [CHECK]
    clauses. *)
Lemma students_row_valid vals seq ts row :
  store_insert database_setup.create_table_sql data_insertion.insert_columns
               vals seq ts = Ok row ->
  Db.id row = seq /\ Db.created_at row = ts /\ valid_row row.
Proof.
  unfold store_insert. rewrite insert_columns_known. cbn [negb].
  destruct (assign_columns _ _ _ _) as [cand|e] eqn:E; [|discriminate].
  destruct (check_not_null _ cand) as [[]|e]; [|discriminate].
  destruct (check_constraints _ cand) as [[]|e] eqn:Ec; [|discriminate].
  destruct (row_of cand) as [r|] eqn:Er; [|discriminate].
  intros [= ->].
  apply assign_columns_shape in E.
  assert (Hid : assoc "id" (List.combine data_insertion.insert_columns vals) = None).
  { apply assoc_combine_other. simpl. intuition discriminate. }
  assert (Hts : assoc "created_at" (List.combine data_insertion.insert_columns vals) = None).
  { apply assoc_combine_other. simpl. intuition discriminate. }
  unfold database_setup.create_table_sql in E, Ec.
  repeat match goal with
         | H : Forall2 _ (_ :: _) _ |- _ => inversion H; subst; clear H
         | H : Forall2 _ [] _ |- _ => inversion H; subst; clear H
         end.
  repeat match goal with
         | H : _ /\ _ |- _ => destruct H
         end.
  repeat match goal with
         | kv : (string * sqlval)%type |- _ => destruct kv as [? ?]
         end.
  cbn [fst snd column_name data_type] in *. subst.
  match goal with
  | H : coerce SERIAL _ = Some _ |- _ => rewrite Hid in H; cbn in H; rename H into Hserial
  end.
  match goal with
  | H : coerce TIMESTAMP _ = Some _ |- _ => rewrite Hts in H; cbn in H; rename H into Hstamp
  end.
  destruct (in_int32 seq); [|discriminate]. injection Hserial as <-. injection Hstamp as <-.
  cbn in Er.
  repeat match type of Er with
         | match ?v with _ => _ end = _ => destruct v; try discriminate
         end.
  all: injection Er as <-; cbn [Db.id Db.created_at].
  all: split; [reflexivity|]; split; [reflexivity|].
  all: unfold valid_row; cbn [Db.age Db.average_mark Db.gender].
  all: match type of Ec with
       | check_constraints _ [_; (_, VText ?n); (_, VText ?f); (_, VText ?l); (_, VInt ?a);
                              (_, VNum ?m); (_, VText ?g); (_, VNull); _] = _ =>
           change (check_constraints database_setup.create_table_sql
                     (candidate seq n f l a m g None ts) = Ok tt) in Ec
       | check_constraints _ [_; (_, VText ?n); (_, VText ?f); (_, VText ?l); (_, VInt ?a);
                              (_, VNum ?m); (_, VText ?g); (_, VInt ?p); _] = _ =>
           change (check_constraints database_setup.create_table_sql
                     (candidate seq n f l a m g (Some p) ts) = Ok tt) in Ec
       end; apply students_checks in Ec; exact Ec.
Qed.

End Stored.

Section InsertionProperties.

Context {rt : Runtime}.

(** The transaction status follows the last thing the connection was
    asked. *)
Lemma transaction_open_last (w : world) (l : list stmt) (s : stmt) :
  sent w = l ++ [s] -> transaction_open w = opens_transaction s.
Proof.
  intros H. unfold transaction_open. now rewrite H, List.rev_app_distr.
Qed.

(** X6.  [insert_student_data] never raises: it returns [True] or [False]
    for every frame, table name and state of the server.  When it returns
    [False] nothing was committed: no [COMMIT] was sent and the committed
    tables are those from before the call.  When it returns [True] a
    [COMMIT] was sent, the table existed, it now holds its old rows followed
    by as many new rows as the frame has records, and nothing is left
    uncommitted; the row count query that follows the [COMMIT] has begun a
    new transaction, which is open when the function returns. *)
Theorem insert_student_data_outcome (df : list Clean.row) (table_name : string)
  (w : world) :
  exists b w' stmts,
    data_insertion.insert_student_data df table_name w = (Ok b, w') /\
    sent w' = sent w ++ stmts /\
    (b = false -> committed (db w') = committed (db w) /\ ~ In Commit stmts) /\
    (b = true ->
     In Commit stmts /\
     (exists t rows,
        working (db w) !! table_name = Some t /\
        committed (db w') !! table_name =
          Some (Table (tbl_columns t) (tbl_rows t ++ rows)) /\
        working (db w') = committed (db w') /\
        List.length rows = List.length df) /\
     transaction_open w' = true).
Proof.
  destruct (insert_student_data_cases df table_name w)
    as (b & w' & stmts & Hrun & Hs & _ & Hb).
  exists b, w', (SelectCount table_name :: stmts).
  split; [exact Hrun|]. split; [exact Hs|]. destruct b.
  - split; [discriminate|]. intros _.
    destruct Hb as (t & data & rows & Ht & Hd & Hi & Hc & Hw & ->).
    split; [|split].
    + right. apply List.in_app_iff. right. now left.
    + exists t, rows. split; [exact Ht|]. split; [|split; [exact Hw|]].
      * rewrite Hc. apply lookup_insert_eq.
      * rewrite (insert_all_length _ _ _ _ _ _ Hi). eapply traverse_length; eauto.
    + apply (transaction_open_last w'
               (sent w ++ SelectCount table_name ::
                  List.map (InsertInto table_name) data ++ [Commit])
               (SelectCount table_name)).
      rewrite Hs. rewrite <- !app_assoc. cbn [app]. now rewrite <- !app_assoc.
  - split; [|discriminate]. intros _.
    destruct Hb as (Hc & _ & Hn & _). split; [exact Hc|].
    intros [H|H]; [discriminate | contradiction].
Qed.

(** The way of a batch that the table accepts. *)
Lemma insert_student_data_accepts (df : list Clean.row) (table_name : string) (w : world)
  (t : table) (data : list (list sqlval)) (rows : list Db.row) :
  working (db w) !! table_name = Some t ->
  (tbl_rows t = [] \/
   exists answer rest, stdin w = answer :: rest /\ strip (lower answer) = "y") ->
  traverse data_insertion.record_data df = Ok data ->
  insert_all (tbl_columns t) data_insertion.insert_columns data
             (next_id w table_name) (now (db w)) = Ok rows ->
  exists w',
    data_insertion.insert_student_data df table_name w = (Ok true, w') /\
    committed (db w') =
      <[table_name := Table (tbl_columns t) (tbl_rows t ++ rows)]> (working (db w)) /\
    working (db w') = committed (db w') /\
    row_count w' table_name = Some (len (tbl_rows t) + len df) /\
    sent w' = sent w ++ SelectCount table_name ::
              List.map (InsertInto table_name) data ++ [Commit; SelectCount table_name] /\
    exists out, stdout w' = stdout w ++ out.
Proof.
  intros Ht Hgo Hdata Hrows.
  assert (Hlen : len rows = len df).
  { unfold len. f_equal. rewrite (insert_all_length _ _ _ _ _ _ Hrows).
    eapply traverse_length; eauto. }
  assert (Hrun : forall w1, db w1 = db w -> sent w1 = sent w ++ [SelectCount table_name] ->
            (exists out, stdout w1 = stdout w ++ out) ->
            exists w',
              try_except (data_insertion.insertion df table_name)
                         data_insertion.insertion_failed w1 = (Ok true, w') /\
              committed (db w') =
                <[table_name := Table (tbl_columns t) (tbl_rows t ++ rows)]>
                  (working (db w)) /\
              working (db w') = committed (db w') /\
              row_count w' table_name = Some (len (tbl_rows t) + len df) /\
              sent w' = sent w ++ SelectCount table_name ::
                        List.map (InsertInto table_name) data ++
                        [Commit; SelectCount table_name] /\
              exists out, stdout w' = stdout w ++ out).
  { intros w1 Hdb Hs (out1 & Ho1).
    pose proof (insertion_run df table_name w1 t) as H.
    rewrite Hdb in H. specialize (H Ht). rewrite Hdata in H.
    unfold next_id in H. rewrite Hdb in H. fold (next_id w table_name) in H.
    rewrite Hrows in H. destruct H as (w' & Hr & Hc & Hw & _ & Hs' & (out2 & Ho2) & _).
    exists w'. unfold try_except. rewrite Hr. repeat split; try assumption.
    - unfold row_count. rewrite Hw, Hc, lookup_insert_eq. cbn.
      unfold len in *. rewrite List.length_app. f_equal. lia.
    - rewrite Hs', Hs, <- app_assoc. reflexivity.
    - exists (out1 ++ out2). rewrite Ho2, Ho1, <- app_assoc. reflexivity. }
  unfold data_insertion.insert_student_data. rewrite bind_print1.
  unfold try_except at 1.
  rewrite bind_select_count with (t := t) by exact Ht.
  destruct (0 <? len (tbl_rows t)) eqn:Hcount.
  - destruct Hgo as [Hnil|(answer & rest & Hin & Hy)];
      [rewrite Hnil in Hcount; discriminate|].
    rewrite bind_print1.
    erewrite bind_input by (cbn; exact Hin). cbv zeta.
    rewrite Hy. cbn [String.eqb Ascii.eqb Bool.eqb negb].
    match goal with
    | |- context [data_insertion.insertion df table_name ?w1] =>
        destruct (Hrun w1 eq_refl eq_refl) as (w' & H1 & H2);
          [unfold says, note; cbn [stdout]; rewrite <- ?app_assoc; eexists; reflexivity|]
    end.
    exists w'. split; [exact H1 | exact H2].
  - match goal with
    | |- context [data_insertion.insertion df table_name ?w1] =>
        destruct (Hrun w1 eq_refl eq_refl) as (w' & H1 & H2);
          [unfold says, note; cbn [stdout]; rewrite <- ?app_assoc; eexists; reflexivity|]
    end.
    exists w'. split; [exact H1 | exact H2].
Qed.

(** X7.  The table exists; it is empty, or the operator answers [y]; every
    record gives its tuple and the table accepts all the tuples.  Then
    [insert_student_data] returns [True]; the statements sent are the row
    count, one [INSERT] per record in the order of the frame, [COMMIT] and
    the row count again; the committed table holds the old rows followed by
    the new ones, and the row count has grown by the length of the frame. *)
Theorem insertion_commits_batch (df : list Clean.row) (table_name : string) (w : world)
  (t : table) (data : list (list sqlval)) (rows : list Db.row) :
  working (db w) !! table_name = Some t ->
  (tbl_rows t = [] \/
   exists answer rest, stdin w = answer :: rest /\ strip (lower answer) = "y") ->
  traverse data_insertion.record_data df = Ok data ->
  insert_all (tbl_columns t) data_insertion.insert_columns data
             (next_id w table_name) (now (db w)) = Ok rows ->
  exists w',
    data_insertion.insert_student_data df table_name w = (Ok true, w') /\
    committed (db w') =
      <[table_name := Table (tbl_columns t) (tbl_rows t ++ rows)]> (working (db w)) /\
    working (db w') = committed (db w') /\
    row_count w' table_name = Some (len (tbl_rows t) + len df) /\
    sent w' = sent w ++ SelectCount table_name ::
              List.map (InsertInto table_name) data ++ [Commit; SelectCount table_name].
Proof.
  intros Ht Hgo Hdata Hrows.
  destruct (insert_student_data_accepts df table_name w t data rows Ht Hgo Hdata Hrows)
    as (w' & H1 & H2 & H3 & H4 & H5 & _).
  exists w'. repeat split; assumption.
Qed.

(** X8.  The tuples are all built before the first [INSERT] is sent: when
    some record of the frame has no tuple (a phone number that is not a
    number, say), [insert_student_data] returns [False], no [INSERT]
    statement reaches the server, whatever the other records are, and the
    committed tables stay as they were. *)
Theorem conversion_error_sends_no_insert (df : list Clean.row) (table_name : string)
  (w : world) (r : Clean.row) (e : exn) :
  In r df ->
  data_insertion.record_data r = Raise e ->
  exists w' stmts,
    data_insertion.insert_student_data df table_name w = (Ok false, w') /\
    sent w' = sent w ++ stmts /\
    Forall (fun s => ~ is_insert s) stmts /\
    committed (db w') = committed (db w).
Proof.
  intros Hin Hr.
  destruct (traverse_raises _ _ _ _ Hin Hr) as (e' & He').
  destruct (insert_student_data_cases df table_name w)
    as (b & w' & stmts & Hrun & Hs & _ & Hb).
  destruct b.
  - destruct Hb as (t & data & rows & _ & Hd & _). congruence.
  - destruct Hb as (Hc & _ & _ & Hno & _).
    exists w', (SelectCount table_name :: stmts). repeat split; try assumption.
    constructor; [intros [] | eauto].
Qed.

(** X9.  On a table that does not exist the row count query fails:
    [insert_student_data] returns [False], having sent that query and the
    [ROLLBACK] only; it reports the database error, and what was committed
    is unchanged (work not yet committed on the connection is rolled
    back). *)
Theorem insertion_into_missing_table (df : list Clean.row) (table_name : string)
  (w : world) :
  working (db w) !! table_name = None ->
  exists w',
    data_insertion.insert_student_data df table_name w = (Ok false, w') /\
    sent w' = sent w ++ [SelectCount table_name; Rollback] /\
    committed (db w') = committed (db w) /\
    working (db w') = committed (db w) /\
    printed "Database error during insertion: {}" w' =
      printed "Database error during insertion: {}" w ++ [[AExn (PgError UndefinedTable)]].
Proof.
  intros Hnone.
  unfold data_insertion.insert_student_data. rewrite bind_print1.
  unfold try_except at 1.
  erewrite bind_raise by (apply select_count_missing; exact Hnone).
  eexists. split; [reflexivity|].
  cbn [db sent committed working says note set_db stdout]. rewrite <- app_assoc.
  repeat split.
  unfold printed, set_db, note. cbn [stdout].
  rewrite !List.filter_app, !List.map_app, <- app_assoc. reflexivity.
Qed.

(** X10.  When [insert_student_data] returns [True] on a table with the
    columns of [create_table_sql], the rows it added have the consecutive
    ids that the sequence gives from its next value on, the time of the
    server as [created_at], a positive age, a mark from 0 to 10 and the
    gender [m] or [f]. *)
Theorem inserted_rows_are_valid (df : list Clean.row) (table_name : string)
  (w w' : world) (t : table) :
  working (db w) !! table_name = Some t ->
  tbl_columns t = database_setup.create_table_sql ->
  data_insertion.insert_student_data df table_name w = (Ok true, w') ->
  exists rows,
    committed (db w') !! table_name =
      Some (Table database_setup.create_table_sql (tbl_rows t ++ rows)) /\
    List.length rows = List.length df /\
    forall i row,
      nth_error rows i = Some row ->
      Db.id row = next_id w table_name + Z.of_nat i /\
      Db.created_at row = now (db w) /\
      valid_row row.
Proof.
  intros Ht Hcols Hrun.
  destruct (insert_student_data_cases df table_name w)
    as (b & w1 & stmts & Hrun1 & _ & _ & Hb).
  rewrite Hrun in Hrun1. injection Hrun1 as <- <-.
  destruct Hb as (t' & data & rows & Ht' & Hd & Hi & Hc & Hw & _).
  rewrite Ht in Ht'. injection Ht' as <-.
  exists rows. rewrite Hcols in *. split; [|split].
  - rewrite Hc. apply lookup_insert_eq.
  - rewrite (insert_all_length _ _ _ _ _ _ Hi). eapply traverse_length; eauto.
  - intros i row Hrow.
    destruct (insert_all_rows _ _ _ _ _ _ Hi i row Hrow) as (vals & _ & Hs).
    now apply students_row_valid in Hs.
Qed.

End InsertionProperties.

(** X7 on the sample batch and the empty students table. *)
Lemma insertion_commits_batch_witness :
  exists w',
    data_insertion.insert_student_data Sample.batch "students" Sample.created
      = (Ok true, w') /\
    row_count w' "students" = Some 3.
Proof.
  destruct (insertion_commits_batch Sample.batch "students" Sample.created
              (Table database_setup.create_table_sql [])
              [student_values "Ann Lee" "Ann" "Lee" 19 6 "f" None;
               student_values "Bea Moss" "Bea" "Moss" 22 4 "f" None;
               student_values "Cal Roe" "Cal" "Roe" 27 8 "m" None]
              [Db.Row 1 "Ann Lee" "Ann" "Lee" 19 6 "f" None 1700000000;
               Db.Row 2 "Bea Moss" "Bea" "Moss" 22 4 "f" None 1700000000;
               Db.Row 3 "Cal Roe" "Cal" "Roe" 27 8 "m" None 1700000000])
    as (w' & H1 & _ & _ & H4 & _).
  - vm_compute. reflexivity.
  - left. reflexivity.
  - vm_compute. reflexivity.
  - vm_compute. reflexivity.
  - exists w'. split; [exact H1 | exact H4].
Defined.

(** X8 on a record that passes the validation with the phone number [call me]. *)
Lemma conversion_error_sends_no_insert_witness :
  let r := {| Clean.student_name := PyStr "Ann Lee"; Clean.first_name := PyStr "Ann";
              Clean.last_name := PyStr "Lee"; Clean.age := PyInt 19;
              Clean.average_mark := PyFloat 6; Clean.gender := PyStr "f";
              Clean.phone_number := PyStr "call me" |} in
  fst (data_insertion.validate_data_before_insertion [r] Sample.created) = Ok true /\
  exists w' stmts,
    data_insertion.insert_student_data [r] "students" Sample.created = (Ok false, w') /\
    sent w' = sent Sample.created ++ stmts /\
    Forall (fun s => ~ is_insert s) stmts /\
    committed (db w') = committed (db Sample.created).
Proof.
  intros r. split; [reflexivity|].
  apply (conversion_error_sends_no_insert [r] "students" Sample.created r ValueError).
  - now left.
  - reflexivity.
Defined.

(** X9 on the server without the students table. *)
Lemma insertion_into_missing_table_witness :
  exists w',
    data_insertion.insert_student_data Sample.batch "students" Sample.fresh
      = (Ok false, w') /\
    sent w' = sent Sample.fresh ++ [SelectCount "students"; Rollback].
Proof.
  destruct (insertion_into_missing_table Sample.batch "students" Sample.fresh eq_refl)
    as (w' & H1 & H2 & _).
  exists w'. split; assumption.
Defined.

(** X10 on the sample batch and the empty students table. *)
Lemma inserted_rows_are_valid_witness :
  exists rows,
    committed (db Sample.loaded) !! "students" =
      Some (Table database_setup.create_table_sql ([] ++ rows)) /\
    List.length rows = 3%nat.
Proof.
  destruct (inserted_rows_are_valid Sample.batch "students" Sample.created Sample.loaded
              (Table database_setup.create_table_sql []))
    as (rows & H1 & H2 & _).
  - vm_compute. reflexivity.
  - reflexivity.
  - vm_compute. reflexivity.
  - exists rows. split; assumption.
Defined.

(** ** Verification *)

Section VerificationProperties.

Context {rt : Runtime}.

Lemma runs_select_count srv tbl t :
  working srv !! tbl = Some t -> runs srv (select_count tbl) (len (tbl_rows t)).
Proof.
  intros Ht w Hw. unfold select_count. cbn. rewrite Hw, Ht.
  eexists. split; [reflexivity|]. apply only_reads_note. exact I.
Qed.

Lemma runs_select_columns srv tbl :
  runs srv (select_columns tbl)
       (match working srv !! tbl with Some t => tbl_columns t | None => [] end).
Proof.
  intros w Hw. unfold select_columns. cbn. rewrite Hw.
  eexists. split; [reflexivity|]. apply only_reads_note. exact I.
Qed.

Lemma no_nulls_counted (rows : list Db.row) :
  rows <> [] ->
  data_insertion.null_counts_query rows = [Some 0; Some 0; Some 0; Some 0; Some 0].
Proof.
  intros Hne. unfold data_insertion.null_counts_query, data_insertion.null_fields.
  assert (H : data_insertion.sql_sum (List.map (fun _ : Db.row => 0) rows) = Some 0).
  { assert (Hz : forall l : list Db.row,
                   List.fold_right Z.add 0 (List.map (fun _ => 0) l) = 0).
    { induction l as [|x l IH]; simpl; [reflexivity|]. now rewrite IH. }
    destruct rows as [|r rows]; [congruence|]. unfold data_insertion.sql_sum.
    cbn [List.map]. f_equal. apply (Hz (r :: rows)). }
  cbn [List.map]. unfold data_insertion.is_null. cbn [String.eqb Ascii.eqb Bool.eqb].
  now rewrite H.
Qed.

Lemma check_null_fields_runs srv table_name t :
  working srv !! table_name = Some t ->
  runs srv (data_insertion.check_null_fields table_name)
       (match tbl_rows t with [] => false | _ => true end).
Proof.
  intros Ht. unfold data_insertion.check_null_fields.
  eapply runs_bind; [apply runs_select; exact Ht|].
  assert (Htail : forall b,
            @runs bool srv
              (sample_records <- select "* LIMIT 5" table_name (List.firstn 5) ;;
               print "Sample of inserted data:" [] ;;;
               columns <- select_columns table_name ;;
               let column_names := List.map column_name columns in
               for_loop (List.combine (List.seq 1 (List.length sample_records))
                                      sample_records)
                 (fun '(i, record) (_ : unit) =>
                    print "  Record {}: {}"
                          [AInt (Z.of_nat i); AStrs column_names; ARow record]) tt ;;;
               ret b) b).
  { intros b.
    eapply runs_bind; [apply runs_select; exact Ht|].
    eapply runs_bind; [apply runs_print|].
    eapply runs_bind; [apply runs_select_columns|].
    eapply runs_bind; [|apply runs_ret].
    apply runs_for_loop. apply List.Forall_forall. intros [i record] _. apply runs_print. }
  destruct (tbl_rows t) as [|r rows] eqn:Hr.
  - cbn [data_insertion.null_counts_query data_insertion.null_fields List.map
         data_insertion.sql_sum List.combine for_loop].
    eapply runs_bind; [|apply (Htail false)].
    repeat (eapply runs_bind; [eapply runs_bind; [apply runs_print | apply runs_ret]|]).
    apply runs_ret.
  - rewrite no_nulls_counted by discriminate.
    cbn [data_insertion.null_fields List.combine for_loop].
    eapply runs_bind; [|apply (Htail true)].
    repeat (eapply runs_bind; [eapply runs_bind; [apply runs_print | apply runs_ret]|]).
    apply runs_ret.
Qed.

Lemma verify_runs srv table_name expected_count t :
  working srv !! table_name = Some t ->
  runs srv (data_insertion.verify_insertion_success table_name expected_count)
       ((expected_count <=? len (tbl_rows t)) &&
        match tbl_rows t with [] => false | _ => true end).
Proof.
  intros Ht. unfold data_insertion.verify_insertion_success.
  eapply runs_bind; [apply runs_print|].
  apply runs_try_except.
  eapply runs_bind; [apply runs_select_count; exact Ht|].
  eapply runs_bind; [apply runs_print|].
  eapply runs_bind; [apply runs_print|].
  destruct (expected_count <=? len (tbl_rows t)); cbn [andb].
  - eapply runs_bind; [apply runs_print|]. now apply check_null_fields_runs.
  - eapply runs_bind; [apply runs_print|]. apply runs_ret.
Qed.

Lemma verify_missing table_name expected_count w :
  working (db w) !! table_name = None ->
  exists w',
    data_insertion.verify_insertion_success table_name expected_count w = (Ok false, w') /\
    db w' = db w.
Proof.
  intros Hnone. unfold data_insertion.verify_insertion_success.
  rewrite bind_print1. unfold try_except.
  erewrite bind_raise by (apply select_count_missing; exact Hnone).
  eexists. split; reflexivity.
Qed.

(** X11.  [verify_insertion_success] never raises and never changes the
    server: it sends queries only.  It returns [True] exactly when the table
    exists, holds at least one row and holds at least [expected_count]
    rows. *)
Theorem verification_verdict (table_name : string) (expected_count : Z) (w : world) :
  exists passed w',
    data_insertion.verify_insertion_success table_name expected_count w = (Ok passed, w') /\
    db w' = db w /\
    (exists stmts, sent w' = sent w ++ stmts /\ Forall is_query stmts) /\
    (passed = true <->
     exists t, working (db w) !! table_name = Some t /\
               tbl_rows t <> [] /\ expected_count <= len (tbl_rows t)).
Proof.
  destruct (working (db w) !! table_name) as [t|] eqn:Ht.
  - destruct (verify_runs (db w) table_name expected_count t Ht w eq_refl)
      as (w' & Hrun & Hdb & _ & _ & Hsent).
    eexists _, w'. split; [exact Hrun|]. split; [exact Hdb|]. split; [exact Hsent|].
    rewrite Bool.andb_true_iff, Z.leb_le. split.
    + intros [Hle Hne]. exists t. split; [reflexivity|]. split; [|exact Hle].
      destruct (tbl_rows t); [discriminate | discriminate].
    + intros (t' & [= <-] & Hne & Hle). split; [exact Hle|].
      destruct (tbl_rows t); [congruence | reflexivity].
  - destruct (verify_reads table_name expected_count w)
      as (passed & w' & Hrun & Hdb & _ & _ & Hsent).
    destruct (verify_missing table_name expected_count w Ht) as (w1 & Hrun1 & _).
    rewrite Hrun in Hrun1. injection Hrun1 as -> ->.
    exists false, w1. split; [exact Hrun|]. split; [exact Hdb|]. split; [exact Hsent|].
    split; [discriminate|]. intros (t & Hn & _). discriminate.
Qed.

(** C8, as the code has it.  [verify_insertion_success] sends queries only
    and leaves the server as it was; it prints the expected count it was
    given and the count of the table, and reports the count as verified when
    the table holds at least the expected number of rows (not: exactly).  It
    answers [True] when the count is verified and the table is not empty,
    [False] otherwise.  [main] asks it for the number of records of the
    frame (not for the count before the batch plus that number).  After a
    successful insertion, whatever the verification answers, the script ends
    with exit code 0: on [True] it prints the completion report, on [False]
    the warning of two lines; then the connection is closed.  Nothing that
    was committed is undone, and after the insertion only queries are
    sent. *)
Theorem count_verification (table_name : string) (expected_count : Z) (w : world)
  (t : table) :
  working (db w) !! table_name = Some t ->
  (exists w',
     data_insertion.verify_insertion_success table_name expected_count w =
       (Ok ((expected_count <=? len (tbl_rows t)) &&
            match tbl_rows t with [] => false | _ => true end), w') /\
     db w' = db w /\
     (exists stmts, sent w' = sent w ++ stmts /\ Forall is_query stmts) /\
     (exists out,
        stdout w' = stdout w ++
          [Line "=== Verifying Data Insertion Success ===" [];
           Line "Expected records: {}" [AInt expected_count];
           Line "Actual records: {}" [AInt (len (tbl_rows t))];
           if expected_count <=? len (tbl_rows t)
           then Line "Record count verification passed" []
           else Line "Record count verification failed" []] ++ out)) /\
  (forall df w0 w1 w2 passed w3,
     data_insertion.validate_data_before_insertion df
       (says [Line "=== Student Data Insertion Pipeline ===" []] w0) = (Ok true, w1) ->
     data_insertion.insert_student_data df table_name w1 = (Ok true, w2) ->
     data_insertion.verify_insertion_success table_name (len df) w2 = (Ok passed, w3) ->
     exists w4,
       data_insertion.main df table_name w0 = (Ok 0, w4) /\
       stdout w4 = stdout w3 ++
         (if passed
          then [Line "=== Data Insertion Complete ===" [];
                Line "Successfully inserted and verified {} student records"
                     [AInt (len df)];
                Line "Database is ready for analytical queries" []]
          else [Line "Data insertion completed but verification failed" [];
                Line "Please check the database manually for any issues" []]) ++
         [Line "Database connection closed" []] /\
       sent w4 = sent w3 ++ [Close] /\
       (exists stmts, sent w3 = sent w2 ++ stmts /\ Forall is_query stmts) /\
       committed (db w4) = committed (db w2)).
Proof.
  intros Ht. split.
  - destruct (verify_runs (db w) table_name expected_count t Ht w eq_refl)
      as (w' & Hrun & Hdb & _ & _ & Hsent).
    exists w'. split; [exact Hrun|]. split; [exact Hdb|]. split; [exact Hsent|].
    revert Hrun. unfold data_insertion.verify_insertion_success.
    rewrite bind_print1. unfold try_except.
    rewrite bind_select_count with (t := t) by exact Ht.
    rewrite !bind_print1.
    destruct (expected_count <=? len (tbl_rows t)) eqn:Hle.
    + rewrite bind_print1.
      match goal with
      | |- context [data_insertion.check_null_fields table_name ?W] =>
          destruct (check_null_fields_reads table_name W)
            as (r & w1 & E & _ & _ & (out & Hout) & _)
      end.
      rewrite E. destruct r as [b|e].
      * intros [= _ <-].
        exists out. rewrite Hout. cbn. rewrite <- !app_assoc. reflexivity.
      * destruct (verification_error_reads e w1) as (b & w2 & E2 & _ & _ & (out2 & Hout2) & _).
        rewrite E2. intros [= _ <-].
        exists (out ++ out2). rewrite Hout2, Hout. cbn. rewrite <- !app_assoc. reflexivity.
    + rewrite bind_print1. intros [= <-].
      exists []. cbn. rewrite <- !app_assoc. reflexivity.
  - intros df w0 w1 w2 passed w3 Hval Hins Hver.
    destruct (verify_reads table_name (len df) w2)
      as (passed' & w3' & Hrun & Hdb & _ & _ & Hsent).
    rewrite Hver in Hrun. injection Hrun as <- <-.
    unfold data_insertion.main. rewrite bind_print1.
    unfold bind at 1. rewrite Hval. cbn [negb].
    unfold try_finally, bind at 1. rewrite Hins. cbn [negb].
    unfold bind at 1. rewrite Hver.
    destruct passed; cbv beta iota;
      repeat first [rewrite bind_assoc | rewrite bind_print1 | rewrite bind_ret];
      unfold ret, bind at 1; rewrite close_run; unfold print; cbv beta iota;
      eexists; (split; [reflexivity|]); cbn [stdout sent db committed says];
      rewrite <- ?app_assoc, Hdb; repeat split; auto.
Qed.

End VerificationProperties.

(** C8 on the loaded table of three rows, five being expected, and on the
    script that inserts the three sample students into the new table. *)
Lemma count_verification_witness :
  (exists w',
     data_insertion.verify_insertion_success "students" 5 Sample.loaded = (Ok false, w') /\
     db w' = db Sample.loaded /\
     (exists stmts, sent w' = sent Sample.loaded ++ stmts /\ Forall is_query stmts) /\
     (exists out,
        stdout w' = stdout Sample.loaded ++
          [Line "=== Verifying Data Insertion Success ===" [];
           Line "Expected records: {}" [AInt 5];
           Line "Actual records: {}" [AInt 3];
           Line "Record count verification failed" []] ++ out)) /\
  fst (data_insertion.main Sample.batch "students" Sample.created) = Ok 0 /\
  printed "Expected records: {}"
          (snd (data_insertion.main Sample.batch "students" Sample.created)) = [[AInt 3]].
Proof.
  pose proof (count_verification "students" 5 Sample.loaded
                (Table database_setup.create_table_sql (Sample.stored Sample.loaded))
                ltac:(vm_compute; reflexivity)) as [Hverify _].
  split; [exact Hverify|].
  pose proof (count_verification "students" 3 Sample.created
                (Table database_setup.create_table_sql [])
                ltac:(vm_compute; reflexivity)) as [_ Hmain].
  destruct (Hmain Sample.batch Sample.created
              (snd (data_insertion.validate_data_before_insertion Sample.batch
                      (says [Line "=== Student Data Insertion Pipeline ===" []]
                            Sample.created)))
              (snd (data_insertion.insert_student_data Sample.batch "students"
                 (snd (data_insertion.validate_data_before_insertion Sample.batch
                         (says [Line "=== Student Data Insertion Pipeline ===" []]
                               Sample.created)))))
              true
              (snd (data_insertion.verify_insertion_success "students" 3
                 (snd (data_insertion.insert_student_data Sample.batch "students"
                    (snd (data_insertion.validate_data_before_insertion Sample.batch
                            (says [Line "=== Student Data Insertion Pipeline ===" []]
                                  Sample.created)))))))
              ltac:(vm_compute; reflexivity) ltac:(vm_compute; reflexivity)
              ltac:(vm_compute; reflexivity))
    as (w4 & Hrun & _).
  rewrite Hrun. split; [reflexivity|]. 
  revert Hrun. vm_compute. intros [= <-]. reflexivity.
Defined.


(** ** The insertion script *)

Section Script.

Context {rt : Runtime}.

(** X12.  The insertion script on a frame of numbers that fails the
    validation (a missing required field, an age that is not positive, a
    mark outside 0 to 10 or a gender other than [m] and [f]): it ends with
    exit code 1 before a connection is used; no statement is sent and the
    server is untouched. *)
Theorem invalid_batch_reaches_no_database (df : list Clean.row) (table_name : string)
  (w : world) :
  Forall (fun r => numeric (Clean.age r) /\ numeric (Clean.average_mark r)) df ->
  ~ Forall acceptable df ->
  exists out, data_insertion.main df table_name w = (Ok 1, says out w).
Proof.
  intros Hnum Hbad.
  rewrite (from_start (data_insertion.main df table_name)).
  unfold data_insertion.main. step.
  destruct (validation_verdict df
              (says ([] ++ [Line "=== Student Data Insertion Pipeline ===" []]) w) Hnum)
    as (passed & out & Hrun & Hiff).
  rewrite (bind_ok _ _ _ _ _ Hrun).
  destruct passed; [exfalso; apply Hbad, Hiff; reflexivity|].
  cbn [negb]. rewrite !says_says. step. eexists. reflexivity.
Qed.

(** X13.  The insertion script on a frame that passes the validation: on
    every way out it ends with the connection closed, [close] being the last
    thing sent, and no transaction left open.  The exit code is 0 exactly
    when a [COMMIT] was sent; with exit code 1 the committed tables are those
    from before the run. *)
Theorem valid_batch_closes_the_connection (df : list Clean.row) (table_name : string)
  (w : world) :
  Forall (fun r => numeric (Clean.age r) /\ numeric (Clean.average_mark r)) df ->
  Forall acceptable df ->
  exists code w' stmts,
    data_insertion.main df table_name w = (Ok code, w') /\
    sent w' = sent w ++ stmts ++ [Close] /\
    working (db w') = committed (db w') /\
    ((code = 0 /\ In Commit stmts) \/
     (code = 1 /\ ~ In Commit stmts /\ committed (db w') = committed (db w))).
Proof.
  intros Hnum Hok.
  unfold data_insertion.main. rewrite bind_print1.
  destruct (validation_verdict df
              (says [Line "=== Student Data Insertion Pipeline ===" []] w) Hnum)
    as (passed & out & Hrun & Hiff).
  rewrite (bind_ok _ _ _ _ _ Hrun).
  destruct passed; [|apply Hiff in Hok; discriminate].
  cbn [negb]. rewrite says_says. set (w0 := says _ w).
  destruct (insert_student_data_cases df table_name w0)
    as (b & w1 & stmts & Hins & Hs & _ & Hb).
  unfold try_finally. rewrite (bind_ok _ _ _ _ _ Hins).
  destruct b; cbn [negb].
  - destruct (verify_reads table_name (len df) w1)
      as (passed & w2 & Hver & Hdb & _ & _ & (vs & Hvs & Hq)).
    rewrite (bind_ok _ _ _ _ _ Hver).
    destruct Hb as (t & data & rows & _ & _ & _ & _ & Hw & ->).
    assert (Hend : sent w2 ++ [Close] =
                   sent w ++ (SelectCount table_name ::
                              (List.map (InsertInto table_name) data ++
                               [Commit; SelectCount table_name]) ++ vs) ++ [Close]).
    { rewrite Hvs, Hs. unfold w0. cbn [says sent].
      repeat (rewrite <- app_assoc || rewrite <- app_comm_cons). reflexivity. }
    assert (Hin : In Commit (SelectCount table_name ::
                             (List.map (InsertInto table_name) data ++
                              [Commit; SelectCount table_name]) ++ vs)).
    { right. apply List.in_app_iff. left. apply List.in_app_iff. right. now left. }
    destruct passed; cbv beta iota;
      repeat first [rewrite bind_assoc | rewrite bind_print1 | rewrite bind_ret];
      unfold ret, bind at 1; rewrite close_run; unfold print; cbv beta iota;
      eexists 0, _, _; (split; [reflexivity|]); cbn [says db sent working committed];
      (split; [exact Hend|]); (split; [reflexivity|]); left; (split; [reflexivity|]);
      exact Hin.
  - destruct Hb as (Hc & _ & Hno & _).
    rewrite bind_print1. unfold ret, bind. rewrite close_run. unfold print. cbv beta iota.
    eexists 1, _, (SelectCount table_name :: stmts). split; [reflexivity|].
    cbn [says db sent working committed]. rewrite Hs. unfold w0. cbn [says sent].
    split; [rewrite <- !app_assoc; reflexivity|]. split; [reflexivity|].
    right. split; [reflexivity|]. split; [|exact Hc].
    intros [H|H]; [discriminate | contradiction].
Qed.

(** X14.  The insertion script on an empty table and a valid frame whose
    tuples the table accepts: it ends with exit code 0, the committed table
    holds one row per record, and the console ends with the three lines of
    the completion report followed by the line that the connection is
    closed.  For the empty frame the verification fails, and the two lines
    of that report are printed instead; the exit code is 0 all the same. *)
Theorem pipeline_into_empty_table (df : list Clean.row) (table_name : string)
  (w : world) (t : table) (data : list (list sqlval)) (rows : list Db.row) :
  working (db w) !! table_name = Some t ->
  tbl_rows t = [] ->
  Forall (fun r => numeric (Clean.age r) /\ numeric (Clean.average_mark r)) df ->
  Forall acceptable df ->
  traverse data_insertion.record_data df = Ok data ->
  insert_all (tbl_columns t) data_insertion.insert_columns data
             (next_id w table_name) (now (db w)) = Ok rows ->
  exists w' out,
    data_insertion.main df table_name w = (Ok 0, w') /\
    committed (db w') !! table_name = Some (Table (tbl_columns t) rows) /\
    List.length rows = List.length df /\
    stdout w' = stdout w ++ out ++
      match df with
      | [] => [Line "Data insertion completed but verification failed" [];
               Line "Please check the database manually for any issues" []]
      | _ => [Line "=== Data Insertion Complete ===" [];
              Line "Successfully inserted and verified {} student records" [AInt (len df)];
              Line "Database is ready for analytical queries" []]
      end ++ [Line "Database connection closed" []].
Proof.
  intros Ht Hempty Hnum Hok Hdata Hrows.
  assert (Hlen : List.length rows = List.length df).
  { rewrite (insert_all_length _ _ _ _ _ _ Hrows). eapply traverse_length; eauto. }
  unfold data_insertion.main. rewrite bind_print1.
  destruct (validation_verdict df
              (says [Line "=== Student Data Insertion Pipeline ===" []] w) Hnum)
    as (passed & out & Hrun & Hiff).
  rewrite (bind_ok _ _ _ _ _ Hrun).
  destruct passed; [|apply Hiff in Hok; discriminate].
  cbn [negb]. rewrite says_says. set (w0 := says _ w).
  destruct (insert_student_data_accepts df table_name w0 t data rows Ht
              (or_introl Hempty) Hdata Hrows)
    as (w1 & Hins & Hc & Hw & _ & _ & (out1 & Ho1)).
  unfold try_finally. rewrite (bind_ok _ _ _ _ _ Hins). cbn [negb].
  assert (Ht1 : working (db w1) !! table_name = Some (Table (tbl_columns t) rows)).
  { rewrite Hw, Hc, Hempty. apply lookup_insert_eq. }
  destruct (verify_runs (db w1) table_name (len df) _ Ht1 w1 eq_refl)
    as (w2 & Hver & Hdb & _ & (out2 & Ho2) & _).
  rewrite (bind_ok _ _ _ _ _ Hver).
  cbn [tbl_rows].
  assert (Hle : (len df <=? len rows) = true).
  { unfold len. rewrite Hlen. apply Z.leb_refl. }
  rewrite Hle. cbn [andb].
  assert (Hcommitted : committed (db w2) !! table_name = Some (Table (tbl_columns t) rows)).
  { rewrite Hdb, <- Hw. exact Ht1. }
  assert (Hout : stdout w2 = stdout w ++
            ([Line "=== Student Data Insertion Pipeline ===" []] ++ out) ++ out1 ++ out2).
  { rewrite Ho2, Ho1. unfold w0. cbn [says stdout]. rewrite <- !app_assoc. reflexivity. }
  clear Hver Hle Ht1 Hins.
  destruct df as [|r df]; destruct rows as [|row rows]; try discriminate;
    cbv beta iota;
    repeat first [rewrite bind_assoc | rewrite bind_print1 | rewrite bind_ret];
    unfold ret, bind at 1; rewrite close_run; unfold print; cbv beta iota;
    eexists _, (([Line "=== Student Data Insertion Pipeline ===" []] ++ out) ++ out1 ++ out2);
    (split; [reflexivity|]); cbn [says db sent stdout working committed];
    (split; [exact Hcommitted|]); (split; [exact Hlen|]);
    rewrite Hout, <- !app_assoc; reflexivity.
Qed.

End Script.

(** X12 on a frame whose second record has the age 0. *)
Lemma invalid_batch_reaches_no_database_witness :
  exists out,
    data_insertion.main [Sample.ann; Sample.student "Max Low" "Max" "Low" 0 7 "m"]
                        "students" Sample.created
    = (Ok 1, says out Sample.created).
Proof.
  apply invalid_batch_reaches_no_database.
  - repeat constructor.
  - intros H. inversion H as [|? ? _ H1]; subst.
    inversion H1 as [|? ? (_ & _ & Ha & _) _]; subst. simpl in Ha. lia.
Defined.

(** X13 on the sample batch and the empty students table. *)
Lemma valid_batch_closes_the_connection_witness :
  exists code w' stmts,
    data_insertion.main Sample.batch "students" Sample.created = (Ok code, w') /\
    sent w' = sent Sample.created ++ stmts ++ [Close].
Proof.
  destruct (valid_batch_closes_the_connection Sample.batch "students" Sample.created)
    as (code & w' & stmts & H1 & H2 & _).
  - repeat constructor.
  - repeat constructor; simpl; try lia; try (now left); try (now right);
      unfold Qle; simpl; lia.
  - exists code, w', stmts. split; assumption.
Defined.

(** X14 on the sample batch and the empty students table. *)
Lemma pipeline_into_empty_table_witness :
  exists w' out,
    data_insertion.main Sample.batch "students" Sample.created = (Ok 0, w') /\
    committed (db w') !! "students" =
      Some (Table database_setup.create_table_sql
              [Db.Row 1 "Ann Lee" "Ann" "Lee" 19 6 "f" None 1700000000;
               Db.Row 2 "Bea Moss" "Bea" "Moss" 22 4 "f" None 1700000000;
               Db.Row 3 "Cal Roe" "Cal" "Roe" 27 8 "m" None 1700000000]) /\
    stdout w' = stdout Sample.created ++ out ++
      [Line "=== Data Insertion Complete ===" [];
       Line "Successfully inserted and verified {} student records" [AInt 3];
       Line "Database is ready for analytical queries" []] ++
      [Line "Database connection closed" []].
Proof.
  destruct (pipeline_into_empty_table Sample.batch "students" Sample.created
              (Table database_setup.create_table_sql [])
              [student_values "Ann Lee" "Ann" "Lee" 19 6 "f" None;
               student_values "Bea Moss" "Bea" "Moss" 22 4 "f" None;
               student_values "Cal Roe" "Cal" "Roe" 27 8 "m" None]
              [Db.Row 1 "Ann Lee" "Ann" "Lee" 19 6 "f" None 1700000000;
               Db.Row 2 "Bea Moss" "Bea" "Moss" 22 4 "f" None 1700000000;
               Db.Row 3 "Cal Roe" "Cal" "Roe" 27 8 "m" None 1700000000])
    as (w' & out & H1 & H2 & _ & H4).
  - vm_compute. reflexivity.
  - reflexivity.
  - repeat constructor.
  - repeat constructor; simpl; try lia; try (now left); try (now right);
      unfold Qle; simpl; lia.
  - vm_compute. reflexivity.
  - vm_compute. reflexivity.
  - exists w', out. repeat split; assumption.
Defined.

(** ** The analysis script *)

Lemma world_eta (w : world) :
  {| db := db w; sent := sent w; stdin := stdin w; stdout := stdout w |} = w.
Proof. now destruct w. Qed.

Lemma asks_ret {A} srv (a : A) : asks srv (ret a) a [].
Proof.
  intros w _. exists []. unfold ret. rewrite !app_nil_r, world_eta. reflexivity.
Qed.

Lemma asks_lift {A} srv (a : A) : asks srv (lift (Ok a)) a [].
Proof. apply (asks_ret srv a). Qed.

Lemma asks_print srv t a : asks srv (print t a) tt [].
Proof. intros w _. exists [Line t a]. unfold print. now rewrite app_nil_r. Qed.

Lemma asks_bind {A B} srv (m : M A) (k : A -> M B) a b qs1 qs2 :
  asks srv m a qs1 -> asks srv (k a) b qs2 -> asks srv (bind m k) b (qs1 ++ qs2).
Proof.
  intros Hm Hk w Hw. destruct (Hm w Hw) as (out1 & E1).
  destruct (Hk _ (eq_trans eq_refl Hw : db {| db := db w; sent := sent w ++ qs1;
                                              stdin := stdin w;
                                              stdout := stdout w ++ out1 |} = srv))
    as (out2 & E2).
  exists (out1 ++ out2). unfold bind. rewrite E1, E2. cbn [db sent stdin stdout].
  now rewrite !app_assoc.
Qed.

Lemma asks_bind_nil {A B} srv (m : M A) (k : A -> M B) a b qs :
  asks srv m a [] -> asks srv (k a) b qs -> asks srv (bind m k) b qs.
Proof. intros Hm Hk. apply (asks_bind srv m k a b [] qs Hm Hk). Qed.

Lemma asks_try_except {A} srv (m : M A) h a qs :
  asks srv m a qs -> asks srv (try_except m h) a qs.
Proof.
  intros Hm w Hw. destruct (Hm w Hw) as (out & E).
  exists out. unfold try_except. now rewrite E.
Qed.

Lemma asks_for_loop {A} srv (l : list A) (body : A -> unit -> M unit) :
  Forall (fun a => asks srv (body a tt) tt []) l -> asks srv (for_loop l body tt) tt [].
Proof.
  induction 1 as [|a l Ha _ IH]; simpl.
  - apply asks_ret.
  - eapply asks_bind_nil; eauto.
Qed.

Lemma asks_runs {A} srv (m : M A) a qs :
  Forall is_query qs -> asks srv m a qs -> runs srv m a.
Proof.
  intros Hq H w Hw. destruct (H w Hw) as (out & E).
  eexists. split; [exact E|]. repeat split; cbn; eauto.
Qed.

Section AnalysisProperties.

Context {rt : Runtime}.

Lemma asks_select {A} srv what tbl (q : list Db.row -> A) t :
  working srv !! tbl = Some t ->
  asks srv (select what tbl q) (q (tbl_rows t)) [Select what tbl].
Proof.
  intros Ht w Hw. exists []. unfold select. cbn. rewrite Hw, Ht, app_nil_r.
  unfold note. now rewrite Hw.
Qed.

Lemma select_missing {A} what tbl (q : list Db.row -> A) w :
  working (db w) !! tbl = None ->
  select what tbl q w = (Raise (PgError UndefinedTable), note (Select what tbl) w).
Proof. intros H. unfold select. cbn. now rewrite H. Qed.

Lemma select_found {A} what tbl (q : list Db.row -> A) w t :
  working (db w) !! tbl = Some t ->
  select what tbl q w = (Ok (q (tbl_rows t)), note (Select what tbl) w).
Proof. intros H. unfold select. cbn. now rewrite H. Qed.

Lemma marks_not_nil rows : rows <> [] -> data_analysis.marks rows <> [].
Proof. unfold data_analysis.marks. intros H E. apply List.map_eq_nil in E. contradiction. Qed.

(** The rows of the analysis query have their three aggregates. *)
Lemma analysis_rows_aggregates rows row :
  In row (data_analysis.analysis_query rows) ->
  exists mean lo hi,
    data_analysis.avg_mark_in_group row = Some mean /\
    data_analysis.min_mark_in_group row = Some lo /\
    data_analysis.max_mark_in_group row = Some hi.
Proof.
  intros Hrow. destruct (analysis_query_spec rows) as (_ & _ & H).
  destruct (H row Hrow) as (Hne & _ & Ha & Hmin & Hmax).
  destruct (aggregates_spec _ (marks_not_nil _ Hne)) as (mean & lo & hi & E1 & E2 & E3 & _).
  exists mean, lo, hi. rewrite Ha, Hmin, Hmax. auto.
Qed.

Lemma asks_analyze table_name srv t :
  working srv !! table_name = Some t ->
  tbl_rows t <> [] ->
  asks srv (data_analysis.analyze_student_performance_by_gender table_name)
       (Some (data_analysis.analysis_query (tbl_rows t)))
       [Select "overview" table_name; Select "analysis_query" table_name].
Proof.
  intros Ht Hne.
  unfold data_analysis.analyze_student_performance_by_gender.
  eapply asks_bind_nil; [apply asks_print|].
  apply asks_try_except.
  eapply asks_bind_nil; [apply asks_print|].
  eapply (asks_bind _ _ _ _ _ [_] [_]); [apply asks_select; exact Ht|].
  destruct (aggregates_spec _ (marks_not_nil _ Hne)) as (mean & lo & hi & E1 & E2 & E3 & _).
  unfold data_analysis.overview_query. rewrite E1, E2, E3.
  eapply asks_bind_nil; [apply asks_print|].
  eapply asks_bind_nil; [apply asks_print|].
  eapply asks_bind_nil; [apply asks_lift|].
  eapply asks_bind_nil; [apply asks_lift|].
  eapply asks_bind_nil; [apply asks_print|].
  eapply asks_bind_nil; [apply asks_lift|].
  eapply asks_bind_nil; [apply asks_print|].
  eapply asks_bind_nil; [apply asks_print|].
  eapply (asks_bind _ _ _ _ _ [_] []); [apply asks_select; exact Ht|].
  eapply asks_bind_nil; [apply asks_print|].
  eapply asks_bind_nil; [|apply asks_ret].
  apply asks_for_loop, List.Forall_forall. intros row Hrow.
  destruct (analysis_rows_aggregates _ _ Hrow) as (m & l & h & -> & -> & ->).
  cbv zeta.
  eapply asks_bind_nil; [apply asks_print|].
  eapply asks_bind_nil; [apply asks_lift|].
  eapply asks_bind_nil; [apply asks_print|].
  eapply asks_bind_nil; [apply asks_lift|].
  eapply asks_bind_nil; [apply asks_lift|].
  apply asks_print.
Qed.

(** Without rows to summarise the overview cannot be printed. *)
Lemma analyze_nothing table_name w :
  working (db w) !! table_name = None \/
  (exists t, working (db w) !! table_name = Some t /\ tbl_rows t = []) ->
  exists out,
    data_analysis.analyze_student_performance_by_gender table_name w =
      (Ok None, {| db := db w; sent := sent w ++ [Select "overview" table_name];
                   stdin := stdin w; stdout := stdout w ++ out |}).
Proof.
  intros H. unfold data_analysis.analyze_student_performance_by_gender.
  rewrite bind_print1. unfold try_except. rewrite bind_print1.
  destruct H as [Hnone|(t & Ht & Hempty)].
  - erewrite bind_raise by (apply select_missing; exact Hnone).
    eexists. cbn. rewrite <- !app_assoc. reflexivity.
  - erewrite bind_ok by (apply select_found; exact Ht).
    rewrite Hempty. cbn [data_analysis.overview_query data_analysis.marks List.map
                         sql_min sql_max sql_avg].
    rewrite !bind_print1.
    eexists. cbn. rewrite <- !app_assoc. reflexivity.
Qed.

(** X15.  [analyze_student_performance_by_gender] never raises and leaves the
    server as it was.  It returns [None] when the table does not exist or is
    empty, and the rows of the analysis query in every other case (an empty
    list when no student has a mark above 5.0). *)
Theorem analysis_needs_rows (table_name : string) (w : world) :
  exists result w',
    data_analysis.analyze_student_performance_by_gender table_name w = (Ok result, w') /\
    db w' = db w /\
    result =
      match working (db w) !! table_name with
      | Some t =>
          match tbl_rows t with
          | [] => None
          | _ => Some (data_analysis.analysis_query (tbl_rows t))
          end
      | None => None
      end.
Proof.
  destruct (working (db w) !! table_name) as [t|] eqn:Ht.
  - destruct (tbl_rows t) as [|r rows] eqn:Hr.
    + destruct (analyze_nothing table_name w) as (out & E).
      { right. exists t. split; assumption. }
      eexists _, _. split; [exact E|]. split; reflexivity.
    + assert (Hne : tbl_rows t <> []) by (rewrite Hr; discriminate).
      destruct (asks_analyze table_name (db w) t Ht Hne w eq_refl) as (out & E).
      rewrite Hr in E. eexists _, _. split; [exact E|]. split; reflexivity.
  - destruct (analyze_nothing table_name w (or_introl Ht)) as (out & E).
    eexists _, _. split; [exact E|]. split; reflexivity.
Qed.

End AnalysisProperties.

Lemma series_sum_perm (l1 l2 : list Z) : Permutation l1 l2 -> series_sum l1 = series_sum l2.
Proof. unfold series_sum. induction 1; simpl; lia. Qed.

Lemma add_to_group_total {A} k (r : A) groups :
  series_sum (List.map (fun g => len (snd g)) (add_to_group k r groups)) =
  series_sum (List.map (fun g => len (snd g)) groups) + 1.
Proof.
  unfold series_sum, len.
  induction groups as [|[k' rs] groups IH]; simpl; [reflexivity|].
  destruct (String.eqb k k'); simpl.
  - rewrite List.length_app. simpl. lia.
  - rewrite IH. lia.
Qed.

(** The groups of [GROUP BY] share out the rows. *)
Lemma group_by_total {A} (key : A -> string) (rows : list A) :
  series_sum (List.map (fun g => len (snd g)) (group_by key rows)) = len rows.
Proof.
  unfold group_by.
  assert (H : forall acc,
            series_sum (List.map (fun g => len (snd g))
                          (List.fold_left (fun groups r => add_to_group (key r) r groups)
                                          rows acc)) =
            series_sum (List.map (fun g => len (snd g)) acc) + len rows).
  { induction rows as [|r rows IH]; intros acc; simpl.
    - unfold len. simpl. lia.
    - rewrite IH, add_to_group_total. unfold len. simpl List.length.
      rewrite Nat2Z.inj_succ. lia. }
  rewrite H. reflexivity.
Qed.

Section Frames.

Context {rt : Runtime}.

(** The counts of the analysis query add up to the rows above 5.0. *)
Lemma analysis_total (rows : list Db.row) :
  series_sum (List.map data_analysis.student_count (data_analysis.analysis_query rows)) =
  len (List.filter data_analysis.above_5 rows).
Proof.
  unfold data_analysis.analysis_query.
  rewrite (series_sum_perm _ _ (Permutation_map _ (order_by_perm _ _))).
  rewrite List.map_map. cbn [data_analysis.student_count].
  apply group_by_total.
Qed.

Lemma analysis_empty (rows : list Db.row) :
  data_analysis.analysis_query rows = [] <-> List.filter data_analysis.above_5 rows = [].
Proof.
  pose proof (analysis_total rows) as H.
  split; intros E.
  - rewrite E in H. cbn in H. destruct (List.filter _ rows); [reflexivity|].
    unfold len in H. simpl in H. lia.
  - rewrite E in H. destruct (analysis_query_spec rows) as (_ & _ & Hrow).
    destruct (data_analysis.analysis_query rows) as [|row l]; [reflexivity|].
    destruct (Hrow row (or_introl eq_refl)) as (Hne & Hc & _).
    exfalso. apply Hne. unfold high_performers_of. rewrite E. reflexivity.
Qed.

Lemma summaries (results : list data_analysis.gender_row) :
  Forall (fun row => exists mean lo hi,
            data_analysis.avg_mark_in_group row = Some mean /\
            data_analysis.min_mark_in_group row = Some lo /\
            data_analysis.max_mark_in_group row = Some hi) results ->
  exists data,
    traverse data_analysis.summary_of results = Ok data /\
    List.map data_analysis.Student_Count data =
      List.map data_analysis.student_count results /\
    List.map data_analysis.Gender data = List.map gender_label results.
Proof.
  induction 1 as [|row l (m & lo & hi & E1 & E2 & E3) _ (data & Hd & Hc & Hg)].
  - exists []. repeat split.
  - eexists. cbn [traverse]. unfold data_analysis.summary_of at 1.
    rewrite E1, E2, E3. cbn [data_analysis.py_round rbind]. rewrite Hd. cbn [rbind].
    split; [reflexivity|]. cbn [List.map data_analysis.Student_Count data_analysis.Gender].
    rewrite Hc, Hg. split; reflexivity.
Qed.

Lemma idxmax_some (l : list data_analysis.summary_row) :
  l <> [] -> exists m, data_analysis.idxmax l = Some m.
Proof.
  destruct l as [|r l]; [congruence|]. intros _. simpl.
  destruct (data_analysis.idxmax l) as [m|]; [|eauto].
  destruct (_ <? _); eauto.
Qed.

(** What becomes of the rows of the analysis query. *)
Lemma asks_dataframe srv (rows : list Db.row) :
  let results := data_analysis.analysis_query rows in
  exists frame,
    asks srv (data_analysis.create_pandas_dataframe_from_results (Some results)) frame [] /\
    match frame with
    | None => results = []
    | Some f =>
        results <> [] /\
        List.map data_analysis.Student_Count (data_analysis.summary f) =
          List.map data_analysis.student_count results /\
        List.map data_analysis.Gender (data_analysis.summary f) =
          List.map gender_label results /\
        (data_analysis.Percentage f = None <-> (List.length results <= 1)%nat)
    end.
Proof.
  intros results.
  assert (Hagg : Forall (fun row => exists mean lo hi,
                   data_analysis.avg_mark_in_group row = Some mean /\
                   data_analysis.min_mark_in_group row = Some lo /\
                   data_analysis.max_mark_in_group row = Some hi) results).
  { apply List.Forall_forall. intros row. apply analysis_rows_aggregates. }
  destruct (summaries results Hagg) as (data & Hd & Hc & Hg).
  assert (Hlen : List.length data = List.length results).
  { rewrite <- (List.length_map data_analysis.Student_Count data), Hc.
    apply List.length_map. }
  unfold data_analysis.create_pandas_dataframe_from_results.
  destruct results as [|row l] eqn:Hres.
  - exists None. split; [|reflexivity].
    eapply asks_bind_nil; [apply asks_print|].
    eapply asks_bind_nil; [apply asks_print|]. apply asks_ret.
  - rewrite Hd.
    destruct (1 <? len data) eqn:Hmany.
    + destruct (idxmax_some data) as (m & Hm).
      { intros ->. discriminate. }
      eexists (Some _). split.
      * eapply asks_bind_nil; [apply asks_print|].
        eapply asks_bind_nil; [apply asks_lift|].
        eapply asks_bind_nil; [apply asks_print|].
        eapply asks_bind_nil; [apply asks_print|].
        eapply asks_bind_nil; [apply asks_print|].
        eapply asks_bind_nil; [apply asks_print|].
        eapply asks_bind_nil; [apply asks_print|].
        rewrite Hmany, Hm.
        eapply asks_bind_nil; [apply asks_lift|].
        eapply asks_bind_nil; [apply asks_print|].
        eapply asks_bind_nil; [apply asks_print|].
        eapply asks_bind_nil; [|apply asks_ret].
        apply asks_for_loop, List.Forall_forall. intros [r p] _. apply asks_print.
      * cbn [data_analysis.summary data_analysis.Percentage].
        split; [discriminate|]. split; [exact Hc|]. split; [exact Hg|].
        split; [discriminate|]. intros Hle.
        apply Z.ltb_lt in Hmany. unfold len in Hmany. rewrite Hlen in Hmany. lia.
    + eexists (Some _). split.
      * eapply asks_bind_nil; [apply asks_print|].
        eapply asks_bind_nil; [apply asks_lift|].
        eapply asks_bind_nil; [apply asks_print|].
        eapply asks_bind_nil; [apply asks_print|].
        eapply asks_bind_nil; [apply asks_print|].
        eapply asks_bind_nil; [apply asks_print|].
        eapply asks_bind_nil; [apply asks_print|].
        rewrite Hmany. apply asks_ret.
      * cbn [data_analysis.summary data_analysis.Percentage].
        split; [discriminate|]. split; [exact Hc|]. split; [exact Hg|].
        split; [|reflexivity]. intros _.
        apply Z.ltb_ge in Hmany. unfold len in Hmany. rewrite Hlen in Hmany. lia.
Qed.

(** X16.  [create_pandas_dataframe_from_results] on the rows of the analysis
    query never raises.  It returns [None] exactly when no student has a mark
    above 5.0.  Otherwise the frame has one row per gender group in the
    order of the query, labelled [Male] for [m] and [Female] for any other
    code, with the counts of the query; the counts add up to the number of
    students above 5.0; and the column [Percentage] is there exactly when
    there is more than one group. *)
Theorem dataframe_of_analysis (rows : list Db.row) (w : world) :
  let results := data_analysis.analysis_query rows in
  let high := List.filter data_analysis.above_5 rows in
  exists frame out,
    data_analysis.create_pandas_dataframe_from_results (Some results) w
      = (Ok frame, says out w) /\
    match frame with
    | None => high = []
    | Some f =>
        high <> [] /\
        List.map data_analysis.Gender (data_analysis.summary f) =
          List.map (fun row => if String.eqb (data_analysis.g_gender row) "m"
                               then "Male" else "Female") results /\
        List.map data_analysis.Student_Count (data_analysis.summary f) =
          List.map data_analysis.student_count results /\
        series_sum (List.map data_analysis.Student_Count (data_analysis.summary f)) =
          len high /\
        (data_analysis.Percentage f = None <-> (List.length results <= 1)%nat)
    end.
Proof.
  intros results high. subst results high.
  destruct (asks_dataframe (db w) rows) as (frame & Hrun & Hframe).
  destruct (Hrun w eq_refl) as (out & E).
  exists frame, out. split.
  - rewrite E. unfold says. now rewrite app_nil_r.
  - cbv zeta in Hframe. destruct frame as [f|].
    + destruct Hframe as (Hne & Hc & Hg & Hp).
      split; [|split; [exact Hg|split; [exact Hc|split; [|exact Hp]]]].
      * intros E0. apply Hne. now apply analysis_empty.
      * rewrite Hc. apply analysis_total.
    + now apply analysis_empty.
Qed.

End Frames.

Section Exploration.

Context {rt : Runtime}.

Lemma raises_lift {A} (r : result A) : reads_or_raises (lift r).
Proof. intros w. exists r, w. split; [reflexivity | apply only_reads_refl]. Qed.

Lemma raises_for_loop {A S} (l : list A) (body : A -> S -> M S) :
  (forall a s, reads_or_raises (body a s)) -> forall s, reads_or_raises (for_loop l body s).
Proof.
  intros Hb. induction l as [|a l IH]; intros s; simpl.
  - apply raises_of_reads, reads_ret.
  - apply raises_bind; [apply Hb | intros s'; apply IH].
Qed.

Lemma exploratory_analysis_reads table_name :
  reads (data_analysis.perform_additional_exploratory_analysis table_name).
Proof.
  unfold data_analysis.perform_additional_exploratory_analysis.
  apply reads_bind; [apply reads_print|]. intros _.
  apply reads_try_except.
  - apply raises_bind; [apply raises_of_reads, reads_print|]. intros _.
    apply raises_bind; [apply raises_select|]. intros age_results.
    apply raises_bind; [apply raises_of_reads, reads_print|]. intros _.
    apply raises_bind.
    { apply raises_for_loop. intros row s.
      apply raises_bind; [apply raises_lift|]. intros mean.
      apply raises_of_reads, reads_print. }
    intros _.
    apply raises_bind; [apply raises_select|]. intros [[[total above] at_or_below] overall].
    apply raises_bind; [apply raises_of_reads, reads_print|]. intros _.
    apply raises_bind; [apply raises_of_reads, reads_print|]. intros _.
    apply raises_bind; [apply raises_of_reads, reads_print|]. intros _.
    apply raises_bind; [apply raises_of_reads, reads_print|]. intros _.
    apply raises_bind; [apply raises_lift|]. intros mean.
    apply raises_of_reads, reads_print.
  - intros e. destruct e; apply reads_print.
Qed.

(** The rows of the age group query have their average. *)
Lemma age_rows_average rows row :
  In row (data_analysis.age_group_query rows) ->
  exists mean, data_analysis.avg_mark row = Some mean.
Proof.
  intros Hrow. destruct (age_group_row rows row Hrow) as (_ & _ & _ & E). eauto.
Qed.

Lemma asks_exploratory table_name srv t :
  working srv !! table_name = Some t ->
  tbl_rows t <> [] ->
  asks srv (data_analysis.perform_additional_exploratory_analysis table_name) tt
       [Select "age_group" table_name; Select "stats" table_name].
Proof.
  intros Ht Hne.
  unfold data_analysis.perform_additional_exploratory_analysis.
  eapply asks_bind_nil; [apply asks_print|].
  apply asks_try_except.
  eapply asks_bind_nil; [apply asks_print|].
  eapply (asks_bind _ _ _ _ _ [_] [_]); [apply asks_select; exact Ht|].
  eapply asks_bind_nil; [apply asks_print|].
  eapply asks_bind_nil.
  { apply asks_for_loop, List.Forall_forall. intros row Hrow.
    destruct (age_rows_average _ _ Hrow) as (mean & ->). cbv zeta.
    eapply asks_bind_nil; [apply asks_lift|]. apply asks_print. }
  eapply (asks_bind _ _ _ _ _ [_] []); [apply asks_select; exact Ht|].
  unfold data_analysis.stats_query.
  destruct (aggregates_spec _ (marks_not_nil _ Hne)) as (mean & _ & _ & -> & _).
  eapply asks_bind_nil; [apply asks_print|].
  eapply asks_bind_nil; [apply asks_print|].
  eapply asks_bind_nil; [apply asks_print|].
  eapply asks_bind_nil; [apply asks_print|].
  eapply asks_bind_nil; [apply asks_lift|].
  apply asks_print.
Qed.

(** X17.  [perform_additional_exploratory_analysis] never raises, whatever
    the table: it leaves the server and the input as they were and sends
    queries only.  On a table with at least one row it sends exactly the age
    group query and the statistics query, in this order. *)
Theorem exploratory_analysis_is_harmless (table_name : string) (w : world) :
  (exists w',
     data_analysis.perform_additional_exploratory_analysis table_name w = (Ok tt, w') /\
     db w' = db w /\ stdin w' = stdin w /\
     exists stmts, sent w' = sent w ++ stmts /\ Forall is_query stmts) /\
  (forall t,
     working (db w) !! table_name = Some t -> tbl_rows t <> [] ->
     exists out,
       data_analysis.perform_additional_exploratory_analysis table_name w =
         (Ok tt, {| db := db w;
                    sent := sent w ++ [Select "age_group" table_name;
                                       Select "stats" table_name];
                    stdin := stdin w;
                    stdout := stdout w ++ out |})).
Proof.
  split.
  - destruct (exploratory_analysis_reads table_name w) as ([] & w' & E & Hdb & Hin & _ & Hs).
    exists w'. repeat split; assumption.
  - intros t Ht Hne. exact (asks_exploratory table_name (db w) t Ht Hne w eq_refl).
Qed.

Lemma finally_close {A} (m : M A) (a : A) w qs out :
  m w = (Ok a, {| db := db w; sent := sent w ++ qs; stdin := stdin w;
                  stdout := stdout w ++ out |}) ->
  try_finally m (close ;;; print "Database connection closed" []) w =
    (Ok a, {| db := {| committed := committed (db w); working := committed (db w);
                       sequences := sequences (db w); now := now (db w) |};
              sent := sent w ++ qs ++ [Close];
              stdin := stdin w;
              stdout := stdout w ++ out ++ [Line "Database connection closed" []] |}).
Proof.
  intros E. unfold try_finally. rewrite E.
  unfold bind, close, print, note, set_db. cbn. rewrite <- !app_assoc. reflexivity.
Qed.

(** X18.  The analysis script never raises and writes nothing: the committed
    tables are unchanged.  It sends the overview query, then the analysis
    query if the table exists and has rows, then the two exploratory queries
    if some student has a mark above 5.0, and in every case ends with
    [close]. *)
Theorem analysis_script (table_name : string) (w : world) :
  let queries :=
    match working (db w) !! table_name with
    | None => [Select "overview" table_name]
    | Some t =>
        match tbl_rows t with
        | [] => [Select "overview" table_name]
        | _ =>
            [Select "overview" table_name; Select "analysis_query" table_name] ++
            match List.filter data_analysis.above_5 (tbl_rows t) with
            | [] => []
            | _ => [Select "age_group" table_name; Select "stats" table_name]
            end
        end
    end in
  exists w',
    data_analysis.main table_name w = (Ok tt, w') /\
    sent w' = sent w ++ queries ++ [Close] /\
    committed (db w') = committed (db w) /\
    working (db w') = committed (db w) /\
    stdin w' = stdin w.
Proof.
  intros queries.
  unfold data_analysis.main. rewrite bind_print1.
  set (w0 := says [Line "=== Student Performance Analysis Pipeline ===" []] w).
  match goal with
  | |- context [try_finally ?b _ _] => set (body := b)
  end.
  assert (Hbody : exists out,
            body w0 =
            (Ok tt, {| db := db w0; sent := sent w0 ++ queries; stdin := stdin w0;
                       stdout := stdout w0 ++ out |})).
  { assert (Hnothing :
              working (db w) !! table_name = None \/
              (exists t, working (db w) !! table_name = Some t /\ tbl_rows t = []) ->
              queries = [Select "overview" table_name] ->
              exists out, body w0 = (Ok tt, {| db := db w0; sent := sent w0 ++ queries;
                                               stdin := stdin w0;
                                               stdout := stdout w0 ++ out |})).
    { intros H ->. destruct (analyze_nothing table_name w0 H) as (out & E).
      unfold body. rewrite (bind_ok _ _ _ _ _ E). eexists. unfold print.
      cbn [db sent stdin stdout]. rewrite <- app_assoc. reflexivity. }
    subst queries.
    destruct (working (db w) !! table_name) as [t|] eqn:Ht.
    - destruct (tbl_rows t) as [|r rows] eqn:Hr.
      + apply Hnothing; [|reflexivity]. right. exists t. split; [reflexivity | assumption].
      + clear Hnothing.
        assert (Hne : tbl_rows t <> []) by (rewrite Hr; discriminate).
        rewrite <- Hr.
        destruct (asks_dataframe (db w0) (tbl_rows t)) as (frame & Hframe & Hshape).
        cbv zeta in Hshape.
        assert (Hasks : asks (db w0) body tt
                  ([Select "overview" table_name; Select "analysis_query" table_name] ++
                   match List.filter data_analysis.above_5 (tbl_rows t) with
                   | [] => []
                   | _ => [Select "age_group" table_name; Select "stats" table_name]
                   end)); [|exact (Hasks w0 eq_refl)].
        unfold body.
        eapply asks_bind; [apply (asks_analyze table_name (db w0) t Ht Hne)|].
        cbv beta iota.
        destruct frame as [f|].
        * destruct Hshape as (Hres & _).
          destruct (List.filter data_analysis.above_5 (tbl_rows t)) eqn:Hhigh.
          { exfalso. apply Hres. now apply analysis_empty. }
          eapply asks_bind_nil; [exact Hframe|]. cbv beta iota.
          eapply (asks_bind _ _ _ _ _ [_; _] []);
            [apply (asks_exploratory table_name (db w0) t Ht Hne)|].
          eapply asks_bind_nil; [apply asks_print|].
          eapply asks_bind_nil; [apply asks_print|].
          eapply asks_bind_nil; [apply asks_print|].
          eapply asks_bind_nil; [apply asks_print|].
          apply asks_print.
        * apply analysis_empty in Hshape. rewrite Hshape.
          eapply asks_bind_nil; [exact Hframe|]. apply asks_print.
    - apply Hnothing; [now left | reflexivity]. }
  destruct Hbody as (out & E).
  rewrite (finally_close _ _ _ _ _ E).
  eexists. split; [reflexivity|]. cbn [db sent stdin committed working says].
  unfold w0. cbn [says db sent stdin]. repeat split.
Qed.

End Exploration.

(** X17 on the loaded students table. *)
Lemma exploratory_analysis_is_harmless_witness :
  exists out,
    data_analysis.perform_additional_exploratory_analysis "students" Sample.loaded =
      (Ok tt, {| db := db Sample.loaded;
                 sent := sent Sample.loaded ++ [Select "age_group" "students";
                                                Select "stats" "students"];
                 stdin := stdin Sample.loaded;
                 stdout := stdout Sample.loaded ++ out |}).
Proof.
  refine (proj2 (exploratory_analysis_is_harmless "students" Sample.loaded)
                (Table database_setup.create_table_sql (Sample.stored Sample.loaded)) _ _).
  - vm_compute. reflexivity.
  - vm_compute. discriminate.
Defined.

(** ** The setup script *)

Section Setup.

Context {rt : Runtime}.





End Setup.

